(** * UDISE education datasets: fusion and indicators

    A shallow embedding of [src/data_processing.py] (the
    [UDISEDataProcessor.merge_datasets] fusion of the profile, enrolment,
    facility and teacher tables) and of [src/analysis.py] (the
    [EducationPolicyAnalyzer] indicator operations), with the properties of
    the specification that can be stated over them.

    Conventions of the embedding.
    - A pandas [DataFrame] is a list of named, typed columns and a list of
      rows; a cell is a number, a text or the missing value.
    - Numbers are exact rationals ([Q]). A sum over an integer column
      wraps around at 64 bits, as the int64 arithmetic of numpy does;
      the rounding and the infinities of float64 are not part of the
      model.
    - A Python function that may raise returns a [result]; [print] appends
      to an output log; objects that are shared or mutated live in a store
      addressed by references.
    - Of the errors the libraries raise, the embedding keeps the ones the
      source guards against or runs into: a missing column label
      ([KeyError]), arithmetic on text ([TypeError]), a join that pandas
      refuses (its [MergeError] is a [ValueError]) and text or a wrong
      length handed to an estimator or a column ([ValueError]).
    - Column names are taken as ASCII, as [str.lower] is modelled on the
      letters A to Z. *)

From Stdlib Require Import QArith Qabs Qround String Ascii List Lia ZArith.
From stdpp Require Import gmap strings list fin_maps sorting.
Import ListNotations.

Local Open Scope string_scope.
Local Open Scope list_scope.

(** * Python prelude *)

Module Py.

Inductive exn : Type :=
| KeyError (label : string)
| TypeError
| ValueError
| AttributeError.

Inductive result (A : Type) : Type :=
| Ok (a : A)
| Raise (e : exn).

Arguments Ok {A} a.
Arguments Raise {A} e.

Definition rbind {A B} (r : result A) (k : A -> result B) : result B :=
  match r with
  | Ok a => k a
  | Raise e => Raise e
  end.

Definition raises {A} (r : result A) : Prop :=
  match r with
  | Ok _ => False
  | Raise _ => True
  end.

(** [str.lower()], on the ASCII letters. *)
Definition lower_ascii (c : ascii) : ascii :=
  let n := nat_of_ascii c in
  if ((65 <=? n) && (n <=? 90))%nat then ascii_of_nat (n + 32) else c.

Fixpoint lower (s : string) : string :=
  match s with
  | EmptyString => EmptyString
  | String c r => String (lower_ascii c) (lower r)
  end.

(** [sub in s] on strings: [sub] occurs in [s] as a substring. *)
Fixpoint contains (sub s : string) : bool :=
  String.prefix sub s ||
  match s with
  | EmptyString => false
  | String _ r => contains sub r
  end.

(** [any(keyword in s for keyword in keywords)]. *)
Definition contains_any (keywords : list string) (s : string) : bool :=
  existsb (fun keyword => contains keyword s) keywords.

(** The loop [for x in candidates: if x in present: found = x; break]
    that the source uses for the merge key and for the state and district
    columns; [None] when the loop ends without a [break]. *)
Fixpoint first_present (candidates present : list string) : option string :=
  match candidates with
  | [] => None
  | x :: rest =>
      if decide (x ∈ present) then Some x else first_present rest present
  end.

End Py.

Export Py.

Declare Scope result_scope.
Delimit Scope result_scope with result.
Notation "x <- r ;; k" := (rbind r (fun x => k))
  (at level 100, r at next level, right associativity) : result_scope.

(** * The pandas fragment *)

Module Pandas.

Inductive cell : Type :=
| CNum (q : Q)
| CText (s : string)
| CMissing.

(** Equality of key cells as a join sees it: numbers by value, text by
    characters, and missing keys match each other. *)
Definition cell_eqb (a b : cell) : bool :=
  match a, b with
  | CNum x, CNum y => Qeq_bool x y
  | CText s, CText t => String.eqb s t
  | CMissing, CMissing => true
  | _, _ => false
  end.

Inductive dtype : Type :=
| int64
| float64
| int32
| object
| string_dtype
| bool_dtype
| other_dtype.

#[export] Instance dtype_eq_dec : EqDecision dtype.
Proof. solve_decision. Defined.

Record DataFrame : Type := {
  schema : list (string * dtype);
  rows : list (list cell)
}.

Record Series : Type := {
  sdtype : dtype;
  values : list cell
}.

(** [df.columns] and [len(df)]. *)
Definition columns (df : DataFrame) : list string := map fst (schema df).
Definition len (df : DataFrame) : nat := length (rows df).

(** Position of the first column carrying a label. *)
Fixpoint position (label : string) (cols : list string) : option nat :=
  match cols with
  | [] => None
  | c :: cs =>
      if String.eqb c label then Some 0%nat
      else option_map S (position label cs)
  end.

Definition cell_at (i : nat) (row : list cell) : cell := nth i row CMissing.

(** [df[col]]: raises [KeyError] when the label is absent. *)
Definition getitem (df : DataFrame) (col : string) : result Series :=
  match position col (columns df) with
  | Some i =>
      Ok {| sdtype := nth i (map snd (schema df)) object;
            values := map (cell_at i) (rows df) |}
  | None => Raise (KeyError col)
  end.

(** [df[col].dtype], for a label that is a column. *)
Definition dtype_of (df : DataFrame) (col : string) : dtype :=
  match position col (columns df) with
  | Some i => nth i (map snd (schema df)) object
  | None => object
  end.

(** Well-formed frames: the labels are distinct and every row has one
    cell per column. *)
Definition well_formed (df : DataFrame) : Prop :=
  NoDup (columns df) /\
  Forall (fun row => length row = length (schema df)) (rows df).

(** ** [DataFrame.merge(right, on=key, how='left', suffixes=...)] *)

(** The rows of [right] whose key equals [k]. *)
Definition matching (k : cell) (j : nat) (right_rows : list (list cell))
  : list (list cell) :=
  List.filter (fun r => cell_eqb k (cell_at j r)) right_rows.

(** A column that receives missing values can no longer be int64 or
    bool. *)
Definition na_dtype (d : dtype) : dtype :=
  match d with
  | int64 | int32 => float64
  | bool_dtype => object
  | d => d
  end.

Definition left_join_rows (i j width : nat) (left_rows right_rows : list (list cell))
  : list (list cell) :=
  flat_map
    (fun l =>
       match matching (cell_at i l) j right_rows with
       | [] => [l ++ replicate width CMissing]
       | ms => map (fun r => l ++ delete j r) ms
       end)
    left_rows.

(** How many rows of the join come from one row of [left]. *)
Definition emitted (i j : nat) (right_rows : list (list cell)) (l : list cell)
  : nat :=
  Nat.max 1 (length (matching (cell_at i l) j right_rows)).

Definition some_unmatched (i j : nat) (left_rows right_rows : list (list cell))
  : bool :=
  existsb
    (fun l =>
       match matching (cell_at i l) j right_rows with
       | [] => true
       | _ => false
       end)
    left_rows.

(** *** What [merge] refuses

    Before it joins, pandas checks the key label, the dtypes of the two
    key columns and the labels the suffixes produce; each refusal is a
    [ValueError] ([MergeError] is one). *)

(** How many columns carry the label. *)
Definition occurrences (col : string) (cols : list string) : nat :=
  length (List.filter (String.eqb col) cols).

Definition is_text (c : cell) : bool :=
  match c with
  | CText _ => true
  | _ => false
  end.

(** A whole number. In a column of objects a whole number stands for a
    Python [int], any other number for a [float], and the missing value
    for [nan]. *)
Definition is_whole (c : cell) : bool :=
  match c with
  | CNum q => (Zpos (Qden (Qred q)) =? 1)%Z
  | _ => false
  end.

(** The answers of [lib.infer_dtype(values, skipna=False)] that the
    check tells apart. *)
Inductive inferred : Type :=
| inferred_empty
| inferred_string
| inferred_mixed
| inferred_mixed_integer
| inferred_integer
| inferred_other.

Definition infer_dtype (d : dtype) (vals : list cell) : inferred :=
  match d with
  | int64 | int32 => inferred_integer
  | string_dtype => inferred_string
  | object =>
      match vals with
      | [] => inferred_empty
      | _ =>
          if forallb is_text vals then inferred_string
          else if existsb is_text vals then
            if existsb is_whole vals then inferred_mixed_integer
            else inferred_mixed
          else if forallb is_whole vals then inferred_integer
          else inferred_other
      end
  | _ => inferred_other
  end.

(** [string_types] and [bool_types] of [_maybe_coerce_merge_keys]. *)
Definition string_like (a : inferred) : bool :=
  match a with
  | inferred_string | inferred_mixed | inferred_empty => true
  | _ => false
  end.

Definition integer_like (a : inferred) : bool :=
  match a with
  | inferred_integer | inferred_mixed_integer | inferred_empty => true
  | _ => false
  end.

Definition object_or_string (d : dtype) : bool :=
  bool_decide (d ∈ [object; string_dtype]).

(** int64, int32 and float64: the numeric dtypes other than bool. *)
Definition is_number_dtype (d : dtype) : bool :=
  bool_decide (d ∈ [int64; int32; float64]).

Definition is_empty {A} (l : list A) : bool :=
  match l with
  | [] => true
  | _ => false
  end.

(** Whether the two key columns go through the checks at all: not when
    exactly one of them is empty, and not when they have the same dtype.
    Two integer or float dtypes are joined as they are. *)
Definition keys_compared (dl : dtype) (lk : list cell) (dr : dtype)
    (rk : list cell) : bool :=
  negb (xorb (is_empty lk) (is_empty rk))
  && negb (bool_decide (dl = dr))
  && negb (is_number_dtype dl && is_number_dtype dr).

(** [ValueError: You are trying to merge on ... columns]: a column of
    objects or strings that holds text, and no whole number beside it,
    against a column of numbers. A dtype outside the list is taken as
    date-like, which joins with its own dtype only. *)
Definition keys_refused (dl : dtype) (lk : list cell) (dr : dtype)
    (rk : list cell) : bool :=
  keys_compared dl lk dr rk &&
  if (object_or_string dl && is_number_dtype dr)
     || (is_number_dtype dl && object_or_string dr)
  then
    let a := infer_dtype dl lk in
    let b := infer_dtype dr rk in
    negb (integer_like a && integer_like b)
    && ((string_like a && negb (string_like b))
        || (string_like b && negb (string_like a)))
  else
    bool_decide (dl = other_dtype) || bool_decide (dr = other_dtype).

(** Keys of different dtypes that are joined all the same, other than
    two number dtypes or an object and a string dtype, are first
    converted to objects, and the key column of the join is one of
    objects. *)
Definition keys_coerced (dl : dtype) (lk : list cell) (dr : dtype)
    (rk : list cell) : bool :=
  keys_compared dl lk dr rk
  && negb (object_or_string dl && object_or_string dr).

(** [Index.duplicated()]: the later occurrences of a label. *)
Fixpoint duplicated_from (seen labels : list string) : list bool :=
  match labels with
  | [] => []
  | x :: rest => bool_decide (x ∈ seen) :: duplicated_from (x :: seen) rest
  end.

Definition duplicated (labels : list string) : list bool :=
  duplicated_from [] labels.

(** A label that is a duplicate after the renaming and was none before. *)
Definition new_duplicates (renamed original : list string) : bool :=
  existsb (fun p => fst p && negb (snd p))
    (zip (duplicated renamed) (duplicated original)).

Definition with_suffix (to_rename : list string) (suffix label : string)
  : string :=
  if decide (label ∈ to_rename) then label +:+ suffix else label.

(** [_items_overlap_with_suffix]: labels the two tables share and no
    suffix to tell them apart, or a suffix that produces a label which
    is already there. [right_labels] are the labels of the right table
    without its key column. *)
Definition suffix_clash (left_labels right_labels : list string)
    (suffixes : string * string) : bool :=
  let to_rename := List.filter (fun x => bool_decide (x ∈ right_labels)) left_labels in
  match to_rename with
  | [] => false
  | _ =>
      if String.eqb (fst suffixes) "" && String.eqb (snd suffixes) "" then true
      else
        let llabels := map (with_suffix to_rename (fst suffixes)) left_labels in
        let rlabels := map (with_suffix to_rename (snd suffixes)) right_labels in
        new_duplicates llabels left_labels
        || new_duplicates rlabels right_labels
        || existsb (fun x => bool_decide (x ∈ right_labels)
                             && negb (bool_decide (x ∈ to_rename))) llabels
        || existsb (fun x => bool_decide (x ∈ left_labels)
                             && negb (bool_decide (x ∈ to_rename))) rlabels
  end.

(** The three refusals of a join on the key at position [i] of [left]
    and [j] of [right]: the key label is carried by several columns of
    a table, the dtypes of the keys do not go together, or the suffixes
    leave or produce a duplicate label. *)
Definition merge_refused (left right : DataFrame) (on : string)
    (suffixes : string * string) (i j : nat) : bool :=
  (1 <? occurrences on (columns left))%nat
  || (1 <? occurrences on (columns right))%nat
  || keys_refused (nth i (map snd (schema left)) object)
       (map (cell_at i) (rows left))
       (nth j (map snd (schema right)) object)
       (map (cell_at j) (rows right))
  || suffix_clash (columns left) (map fst (delete j (schema right))) suffixes.

(** The left-outer join on one key column; a refused join raises
    [ValueError]. The key column of [right] is dropped; a label of
    [right] that also occurs in [left] takes the right suffix, and a
    label of [left] that also occurs in [right] takes the left suffix.
    Every row of [left] is kept, once per matching row of [right], or
    once padded with missing cells when there is none. The columns come
    in the order pandas gives them for a left table that has rows. *)
Definition merge (left right : DataFrame) (on : string)
    (suffixes : string * string) : result DataFrame :=
  match position on (columns left), position on (columns right) with
  | Some i, Some j =>
      if merge_refused left right on suffixes i j then Raise ValueError
      else
        let rest := delete j (schema right) in
        let padded := some_unmatched i j (rows left) (rows right) in
        let lname (cd : string * dtype) :=
          (if decide (fst cd ∈ map fst rest)
           then fst cd +:+ fst suffixes else fst cd, snd cd) in
        let rname (cd : string * dtype) :=
          (if decide (fst cd ∈ columns left)
           then fst cd +:+ snd suffixes else fst cd,
           if padded then na_dtype (snd cd) else snd cd) in
        let key_dtype (cd : string * dtype) :=
          (fst cd,
           if keys_coerced (nth i (map snd (schema left)) object)
                (map (cell_at i) (rows left))
                (nth j (map snd (schema right)) object)
                (map (cell_at j) (rows right))
           then object else snd cd) in
        Ok {| schema := alter key_dtype i (map lname (schema left))
                        ++ map rname rest;
              rows := left_join_rows i j (length rest) (rows left) (rows right) |}
  | _, _ => Raise (KeyError on)
  end.

(** The values of a key column are unique when no two rows carry equal
    keys. *)
Fixpoint distinct_keys (ks : list cell) : bool :=
  match ks with
  | [] => true
  | k :: rest => negb (existsb (cell_eqb k) rest) && distinct_keys rest
  end.

Definition unique_key (key : string) (df : DataFrame) : bool :=
  match position key (columns df) with
  | Some j => distinct_keys (map (cell_at j) (rows df))
  | None => true
  end.

(** A secondary table that is loaded and has the key column has unique
    keys. *)
Definition unique_if_present (key : string) (other : option DataFrame) : Prop :=
  match other with
  | Some o => unique_key key o = true
  | None => True
  end.

(** A secondary table that is not loaded or lacks the key column. *)
Definition skipped (key : string) (other : option DataFrame) : Prop :=
  match other with
  | Some o => key ∉ columns o
  | None => True
  end.

End Pandas.

Export Pandas.

(** * The object store

    DataFrames are Python objects: a variable holds a reference, [copy]
    and [merge] build a new object, and an item assignment changes the
    object in place for every holder of the reference. *)

Module Store.

Definition loc := nat.

Record world : Type := {
  heap : gmap loc DataFrame;
  stdout : list string
}.

Definition M (A : Type) : Type := world -> result A * world.

Definition ret {A} (a : A) : M A := fun w => (Ok a, w).

Definition bind {A B} (m : M A) (k : A -> M B) : M B :=
  fun w =>
    match m w with
    | (Ok a, w') => k a w'
    | (Raise e, w') => (Raise e, w')
    end.

Definition raise {A} (e : exn) : M A := fun w => (Raise e, w).

Definition lift {A} (r : result A) : M A := fun w => (r, w).

Definition print (line : string) : M unit :=
  fun w => (Ok tt, {| heap := heap w; stdout := stdout w ++ [line] |}).

(** Reading through a reference; a reference to no object cannot arise
    in Python and is an error here. *)
Definition deref (l : loc) : M DataFrame :=
  fun w =>
    match heap w !! l with
    | Some df => (Ok df, w)
    | None => (Raise AttributeError, w)
    end.

Definition alloc (df : DataFrame) : M loc :=
  fun w =>
    let l := fresh (dom (heap w)) in
    (Ok l, {| heap := <[l := df]> (heap w); stdout := stdout w |}).

(** In-place update of the object behind a reference. *)
Definition update (l : loc) (f : DataFrame -> DataFrame) : M unit :=
  fun w =>
    match heap w !! l with
    | Some df => (Ok tt, {| heap := <[l := f df]> (heap w); stdout := stdout w |})
    | None => (Raise AttributeError, w)
    end.

(** Every object of [w] is still there, unchanged, in [w']. *)
Definition preserved (w w' : world) : Prop :=
  forall l, is_Some (heap w !! l) -> heap w' !! l = heap w !! l.

(** An argument that is [None] or a reference to a table. *)
Definition refers (w : world) (o : option loc) (t : option DataFrame) : Prop :=
  match o, t with
  | None, None => True
  | Some l, Some df => heap w !! l = Some df
  | _, _ => False
  end.

(** The reference a computation returns is either one the caller already
    held or a new one. *)
Definition returns_new_or (held : option loc) (w : world)
    (out : result loc * world) : Prop :=
  forall r, fst out = Ok r ->
    held = Some r \/ (heap w !! r = None /\ is_Some (heap (snd out) !! r)).

(** What holds of the accumulated table along the run: the objects of
    the caller are in place, and the accumulated table is an object the
    caller did not have. *)
Definition accumulating (w0 w : world) (r : loc) : Prop :=
  preserved w0 w /\ heap w0 !! r = None /\ is_Some (heap w !! r).

End Store.

Export Store.

Declare Scope store_scope.
Delimit Scope store_scope with store.
Notation "x <- m ;; k" := (bind m (fun x => k))
  (at level 100, m at next level, right associativity) : store_scope.
Notation "m ;; k" := (bind m (fun _ => k))
  (at level 100, right associativity) : store_scope.

(** * [src/data_processing.py]: [UDISEDataProcessor.merge_datasets] *)

Module DataProcessing.

Definition possible_keys : list string :=
  ["pseudocode"; "School_Code"; "DISE_Code"; "UDISE_Code";
   "school_code"; "dise_code"; "udise_code"; "udisecode"].

Definition no_key_warning : string :=
  "Warning: No common merge key found. Using index merge.".

(** ** On table values *)

(** One of the three guarded joins:
    [if other is not None and merge_key in other.columns:
       merged_df = merged_df.merge(other, on=merge_key, how='left',
                                   suffixes=('', suffix))]. *)
Definition merge_if_present (merged_df : DataFrame) (other : option DataFrame)
    (merge_key suffix : string) : result DataFrame :=
  match other with
  | Some o =>
      if decide (merge_key ∈ columns o)
      then merge merged_df o merge_key ("", suffix)
      else Ok merged_df
  | None => Ok merged_df
  end.

(** The printed lines and the outcome. On values the copy of
    [profile_df] is the table itself. The [merge_key] parameter of the
    source is overwritten with [None] before it is read, so it is not an
    input. *)
Definition merge_datasets (profile_df : DataFrame)
    (enrolment_df facility_df teacher_df : option DataFrame)
  : list string * result DataFrame :=
  let merged_df := profile_df in
  match first_present possible_keys (columns profile_df) with
  | None => ([no_key_warning], Ok merged_df)
  | Some merge_key =>
      ([],
       (merged_df <- merge_if_present merged_df enrolment_df merge_key "_enrol" ;;
        merged_df <- merge_if_present merged_df facility_df merge_key "_facility" ;;
        merge_if_present merged_df teacher_df merge_key "_teacher")%result)
  end.

(** The labels a secondary table brings to the fused table: its own
    without the key, when it is loaded and has the key. *)
Definition brought (key : string) (other : option DataFrame) : list string :=
  match other with
  | Some o =>
      match position key (columns o) with
      | Some j => map fst (delete j (schema o))
      | None => []
      end
  | None => []
  end.

(** A secondary table that is joined has keys of the dtype [d]. *)
Definition same_key_dtype (key : string) (d : dtype) (other : option DataFrame)
  : Prop :=
  match other with
  | Some o => key ∈ columns o -> dtype_of o key = d
  | None => True
  end.

(** A run surfaces a warning when it prints at least one line. *)
Definition surfaces_warning (out : list string * result DataFrame) : Prop :=
  fst out <> [].

(** ** On objects *)

Definition df_copy (l : loc) : M loc :=
  (df <- deref l ;; alloc df)%store.

Definition df_columns (l : loc) : M (list string) :=
  (df <- deref l ;; ret (columns df))%store.

Definition df_merge (l r : loc) (on : string) (suffixes : string * string)
  : M loc :=
  (left <- deref l ;;
   right <- deref r ;;
   joined <- lift (merge left right on suffixes) ;;
   alloc joined)%store.

Definition merge_if_present_obj (merged_df : loc) (other : option loc)
    (merge_key suffix : string) : M loc :=
  match other with
  | Some o =>
      (cols <- df_columns o ;;
       if decide (merge_key ∈ cols)
       then df_merge merged_df o merge_key ("", suffix)
       else ret merged_df)%store
  | None => ret merged_df
  end.

Definition merge_datasets_obj (profile_df : loc)
    (enrolment_df facility_df teacher_df : option loc) : M loc :=
  (merged_df <- df_copy profile_df ;;
   cols <- df_columns profile_df ;;
   match first_present possible_keys cols with
   | None => print no_key_warning ;; ret merged_df
   | Some merge_key =>
       merged_df <- merge_if_present_obj merged_df enrolment_df merge_key "_enrol" ;;
       merged_df <- merge_if_present_obj merged_df facility_df merge_key "_facility" ;;
       merged_df <- merge_if_present_obj merged_df teacher_df merge_key "_teacher" ;;
       ret merged_df
   end)%store.

End DataProcessing.

Export DataProcessing.

(** * More of pandas: reductions, grouping, counting *)

Module Reductions.

(** The guard constant [1e-10]. *)
Definition eps : Q := 1 # 10000000000.

(** A cell as a summand: missing cells are skipped; a text cell makes the
    sum a text, and the arithmetic the source then applies to it raises
    [TypeError]. *)
Definition summand (c : cell) : result Q :=
  match c with
  | CNum q => Ok q
  | CMissing => Ok 0%Q
  | CText _ => Raise TypeError
  end.

Fixpoint sum_cells (cs : list cell) : result Q :=
  match cs with
  | [] => Ok 0%Q
  | c :: rest =>
      (x <- summand c ;; s <- sum_cells rest ;; Ok (x + s)%Q)%result
  end.

(** Sums of integer columns are taken in 64-bit integers and wrap
    around; the other sums are exact (float64 rounding is not modelled,
    and the integers of a column of objects are unbounded). *)
Definition two_63 : Q := inject_Z (2 ^ 63).

Definition in_int64 (q : Q) : bool :=
  Qle_bool (- two_63) q && negb (Qle_bool two_63 q).

Definition wrap_int64 (q : Q) : Q :=
  if in_int64 q then q
  else (q - inject_Z (2 ^ 64 * Qfloor ((q + two_63) / inject_Z (2 ^ 64))))%Q.

Definition is_integer_dtype (d : dtype) : bool :=
  bool_decide (d ∈ [int64; int32]).

(** The sum of a column, or of a row, of the given dtype. *)
Definition reduced (d : dtype) (q : Q) : Q :=
  if is_integer_dtype d then wrap_int64 q else q.

(** [series.sum()]. *)
Definition series_sum (s : Series) : result Q :=
  (x <- sum_cells (values s) ;; Ok (reduced (sdtype s) x))%result.

Fixpoint traverse {A B} (f : A -> result B) (l : list A) : result (list B) :=
  match l with
  | [] => Ok []
  | a :: rest =>
      (b <- f a ;; bs <- traverse f rest ;; Ok (b :: bs))%result
  end.

(** Positions of a list of labels, as [df[cols]] resolves them. *)
Definition positions (cols all : list string) : result (list nat) :=
  traverse
    (fun c =>
       match position c all with
       | Some i => Ok i
       | None => Raise (KeyError c)
       end)
    cols.

(** The dtype of [df[cols].sum(axis=1)]: int64 when every selected
    column is an integer column, and a dtype without wrap-around
    otherwise. *)
Definition axis1_dtype (df : DataFrame) (ps : list nat) : dtype :=
  if forallb (fun i => is_integer_dtype (nth i (map snd (schema df)) object)) ps
  then int64 else float64.

(** [df[cols].sum(axis=1)]: one sum per row, over the selected columns. *)
Definition sum_axis1 (df : DataFrame) (cols : list string) : result (list Q) :=
  (ps <- positions cols (columns df) ;;
   traverse
     (fun row =>
        x <- sum_cells (map (fun i => cell_at i row) ps) ;;
        Ok (reduced (axis1_dtype df ps) x))
     (rows df))%result.

(** A float or a Series of floats indexed by row, with the broadcasting
    of [+] and [/]. *)
Inductive number : Type :=
| Scalar (x : Q)
| PerRow (xs : list Q).

Definition add_const (n : number) (c : Q) : number :=
  match n with
  | Scalar x => Scalar (x + c)%Q
  | PerRow xs => PerRow (map (fun x => x + c)%Q xs)
  end.

Definition divide (a b : number) : number :=
  match a, b with
  | Scalar x, Scalar y => Scalar (x / y)%Q
  | PerRow xs, Scalar y => PerRow (map (fun x => x / y)%Q xs)
  | Scalar x, PerRow ys => PerRow (map (fun y => x / y)%Q ys)
  | PerRow xs, PerRow ys => PerRow (zip_with Qdiv xs ys)
  end.

Definition is_missing (c : cell) : bool :=
  match c with
  | CMissing => true
  | _ => false
  end.

(** Keeps the first of every class of equal elements. *)
Fixpoint dedup {A} (eqb : A -> A -> bool) (l : list A) : list A :=
  match l with
  | [] => []
  | x :: rest => x :: List.filter (fun y => negb (eqb x y)) (dedup eqb rest)
  end.

(** Group keys are lists of cells, one per grouping column. *)
Fixpoint key_eqb (a b : list cell) : bool :=
  match a, b with
  | [], [] => true
  | x :: a', y :: b' => cell_eqb x y && key_eqb a' b'
  | _, _ => false
  end.

(** The order in which groups are listed: numbers before text. *)
Definition cell_leb (a b : cell) : bool :=
  match a, b with
  | CNum x, CNum y => Qle_bool x y
  | CNum _, _ => true
  | CText _, CNum _ => false
  | CText s, CText t => String.leb s t
  | CText _, CMissing => true
  | CMissing, CMissing => true
  | CMissing, _ => false
  end.

Fixpoint key_leb (a b : list cell) : bool :=
  match a, b with
  | [], _ => true
  | _ :: _, [] => false
  | x :: a', y :: b' =>
      if cell_eqb x y then key_leb a' b' else cell_leb x y
  end.

(** [df.groupby(labels)]: the groups in key order, each with its rows; rows
    with a missing key belong to no group. Raises [KeyError] for a label
    that is not a column. *)
Definition groupby (df : DataFrame) (labels : list string)
  : result (list (list cell * list (list cell))) :=
  (ps <- positions labels (columns df) ;;
   let key row := map (fun i => cell_at i row) ps in
   let keyed := List.filter (fun row => negb (existsb is_missing (key row))) (rows df) in
   let keys := merge_sort (fun a b => Is_true (key_leb a b))
                 (dedup key_eqb (map key keyed)) in
   Ok (map (fun k => (k, List.filter (fun row => key_eqb k (key row)) keyed)) keys))%result.

(** [df.groupby(labels).size()]. *)
Definition groupby_size (df : DataFrame) (labels : list string)
  : result (list (list cell * nat)) :=
  (groups <- groupby df labels ;;
   Ok (map (fun g => (fst g, length (snd g))) groups))%result.

(** How often a value occurs in a column. *)
Definition frequency (v : cell) (cs : list cell) : nat :=
  length (List.filter (cell_eqb v) cs).

Definition more_frequent (a b : cell * nat) : Prop := (snd b <= snd a)%nat.

#[export] Instance more_frequent_dec a b : Decision (more_frequent a b).
Proof. unfold more_frequent. apply _. Defined.

(** [series.value_counts()]: the distinct values that are not missing,
    each with its number of occurrences, the most frequent first. *)
Definition value_counts (cs : list cell) : list (cell * nat) :=
  let present := List.filter (fun c => negb (is_missing c)) cs in
  merge_sort more_frequent
    (map (fun v => (v, frequency v present)) (dedup cell_eqb present)).

(** A frequency table of a column: every entry carries a value of the
    column that is not missing, with its number of occurrences, and
    every such value has exactly one entry. *)
Definition frequency_table (cs : list cell) (table : list (cell * nat)) : Prop :=
  (forall e, e ∈ table ->
             is_missing (fst e) = false /\
             snd e = frequency (fst e) cs /\ (0 < snd e)%nat) /\
  (forall v, is_missing v = false ->
             length (List.filter (fun e => cell_eqb v (fst e)) table) =
             if existsb (cell_eqb v) cs then 1%nat else 0%nat).

(** [(series > 0).sum()]. *)
Definition count_positive (cs : list cell) : nat :=
  length (List.filter
            (fun c => match c with
                      | CNum q => negb (Qle_bool q 0%Q)
                      | _ => false
                      end) cs).

(** [df[col] = values], in place: the column is replaced when the label
    exists and appended otherwise. *)
Definition setitem (df : DataFrame) (col : string) (d : dtype)
    (vals : list cell) : DataFrame :=
  match position col (columns df) with
  | Some i =>
      {| schema := <[i := (col, d)]> (schema df);
         rows := zip_with (fun row v => <[i := v]> row) (rows df) vals |}
  | None =>
      {| schema := schema df ++ [(col, d)];
         rows := zip_with (fun row v => row ++ [v]) (rows df) vals |}
  end.

End Reductions.

Export Reductions.

(** * [src/analysis.py]: [EducationPolicyAnalyzer] *)

Module Analysis.

(** ** Column selection by name *)

Definition is_girls (col : string) : bool :=
  contains "girl" (lower col) || contains "female" (lower col).

Definition is_boys (col : string) : bool :=
  contains "boy" (lower col) || contains "male" (lower col).

Definition is_gender (col : string) : bool :=
  contains "girl" (lower col) || contains "female" (lower col) ||
  contains "boy" (lower col) || contains "male" (lower col).

Definition facility_keywords : list string :=
  ["toilet"; "water"; "library"; "computer"; "internet"; "electricity"].

Definition is_facility (col : string) : bool :=
  contains_any facility_keywords (lower col).

Definition is_teacher (col : string) : bool :=
  contains "teacher" (lower col).

Definition is_student (col : string) : bool :=
  contains "student" (lower col) || contains "enrolment" (lower col) ||
  contains "enrolled" (lower col).

Definition is_rural (col : string) : bool := contains "rural" (lower col).
Definition is_urban (col : string) : bool := contains "urban" (lower col).

Definition state_aliases : list string :=
  ["State"; "state"; "STATE"; "State_Name"].

(** The list comprehensions over [self.df.columns]. *)
Definition gender_columns (df : DataFrame) : list string :=
  List.filter is_gender (columns df).

Definition facility_columns (df : DataFrame) : list string :=
  List.filter is_facility (columns df).

Definition teacher_columns (df : DataFrame) : list string :=
  List.filter is_teacher (columns df).

Definition student_columns (df : DataFrame) : list string :=
  List.filter is_student (columns df).

Definition rural_columns (df : DataFrame) : list string :=
  List.filter is_rural (columns df).

Definition urban_columns (df : DataFrame) : list string :=
  List.filter is_urban (columns df).

Definition not_text (c : cell) : Prop :=
  match c with
  | CText _ => False
  | _ => True
  end.

(** No cell of the column is a text. *)
Definition text_free (df : DataFrame) (col : string) : bool :=
  match position col (columns df) with
  | Some i =>
      forallb (fun row => match cell_at i row with
                          | CText _ => false
                          | _ => true
                          end) (rows df)
  | None => true
  end.

(** ** [calculate_enrolment_metrics] *)

Inductive metric : Type :=
| Ratio (n : number)
| Sizes (sizes : list (list cell * nat)).

(** [df[cols[0]].sum() if len(cols) == 1 else df[cols].sum(axis=1)]: one
    column gives its total, several columns give one sum per row. *)
Definition total_or_row_sums (df : DataFrame) (cols : list string)
  : result number :=
  match cols with
  | [c] => (s <- getitem df c ;; x <- series_sum s ;; Ok (Scalar x))%result
  | _ => (xs <- sum_axis1 df cols ;; Ok (PerRow xs))%result
  end.

(** The parameter [class_cols] of the source is never read. *)
Definition calculate_enrolment_metrics (self_df : option DataFrame)
    (state_col district_col : string) (gender_cols : option (list string))
  : result (option (gmap string metric)) :=
  match self_df with
  | None => Ok None
  | Some df =>
      let metrics : gmap string metric := ∅ in
      let gender_cols :=
        match gender_cols with
        | None => gender_columns df
        | Some given => given
        end in
      (metrics <-
         (if (2 <=? length gender_cols)%nat then
            let girls_col := List.filter is_girls gender_cols in
            let boys_col := List.filter is_boys gender_cols in
            match girls_col, boys_col with
            | _ :: _, _ :: _ =>
                girls_total <- total_or_row_sums df girls_col ;;
                boys_total <- total_or_row_sums df boys_col ;;
                Ok (<["gender_parity_index" :=
                        Ratio (divide girls_total (add_const boys_total eps))]>
                      metrics)
            | _, _ => Ok metrics
            end
          else Ok metrics) ;;
       metrics <-
         (if decide (state_col ∈ columns df) then
            state_enrolment <- groupby_size df [state_col] ;;
            Ok (<["state_enrolment" := Sizes state_enrolment]> metrics)
          else Ok metrics) ;;
       metrics <-
         (if decide (district_col ∈ columns df) then
            district_enrolment <- groupby_size df [state_col; district_col] ;;
            Ok (<["district_enrolment" := Sizes district_enrolment]> metrics)
          else Ok metrics) ;;
       Ok (Some metrics))%result
  end.

(** ** [calculate_teacher_student_ratio] *)

(** A row of the aggregated frame: the state, the two sums and [TSR]. *)
Record tsr_row : Type := {
  state : list cell;
  teacher_sum : Q;
  student_sum : Q;
  TSR : Q
}.

Definition column_sum (df : DataFrame) (group : list (list cell))
    (col : string) : result Q :=
  (s <- getitem {| schema := schema df; rows := group |} col ;;
   series_sum s)%result.

(** The parameters [teacher_col] and [student_col] of the source are
    never read; the columns are found by name. *)
Definition calculate_teacher_student_ratio (self_df : option DataFrame)
  : result (option (list tsr_row)) :=
  match self_df with
  | None => Ok None
  | Some df =>
      let teacher_cols := teacher_columns df in
      let student_cols := student_columns df in
      match teacher_cols, student_cols with
      | teacher0 :: _, student0 :: _ =>
          match first_present state_aliases (columns df) with
          | Some state_col =>
              (groups <- groupby df [state_col] ;;
               aggregated <-
                 traverse
                   (fun g =>
                      t <- column_sum df (snd g) teacher0 ;;
                      s <- column_sum df (snd g) student0 ;;
                      Ok {| state := fst g;
                            teacher_sum := t;
                            student_sum := s;
                            TSR := (s / (t + eps))%Q |})
                   groups ;;
               Ok (Some aggregated))%result
          | None => Ok None
          end
      | _, _ => Ok None
      end
  end.

(** ** [analyze_facility_availability] *)

Inductive facility_report : Type :=
| Counts (frequencies : list (cell * nat))
| Availability (available : nat) (percentage : Q).

Definition of_nat (n : nat) : Q := inject_Z (Z.of_nat n).

Definition facility_entry (df : DataFrame) (s : Series) : facility_report :=
  if decide (sdtype s ∈ [object; string_dtype]) then
    Counts (value_counts (values s))
  else
    let total := len df in
    let available :=
      if decide (sdtype s ∈ [int64; float64])
      then count_positive (values s) else 0%nat in
    Availability available
      (if (0 <? total)%nat then (of_nat available / of_nat total * 100)%Q
       else 0%Q).

Fixpoint facility_loop (df : DataFrame) (facility_cols : list string)
    (facility_analysis : gmap string facility_report)
  : result (gmap string facility_report) :=
  match facility_cols with
  | [] => Ok facility_analysis
  | col :: rest =>
      (s <- getitem df col ;;
       facility_loop df rest (<[col := facility_entry df s]> facility_analysis))%result
  end.

Definition analyze_facility_availability (self_df : option DataFrame)
    (facility_cols : option (list string))
  : result (option (gmap string facility_report)) :=
  match self_df with
  | None => Ok None
  | Some df =>
      let facility_cols :=
        match facility_cols with
        | None => facility_columns df
        | Some given => given
        end in
      (facility_analysis <- facility_loop df facility_cols ∅ ;;
       Ok (Some facility_analysis))%result
  end.

(** ** [calculate_equity_indicators] *)

Fixpoint Qsum (xs : list Q) : Q :=
  match xs with
  | [] => 0%Q
  | x :: rest => (x + Qsum rest)%Q
  end.

(** [df[cols[0]].sum() if len(cols) == 1 else
     df[cols].sum(axis=1).sum()]: the total over all the columns. *)
Definition grand_total (df : DataFrame) (cols : list string) : result Q :=
  match cols with
  | [c] => (s <- getitem df c ;; series_sum s)%result
  | _ =>
      (ps <- positions cols (columns df) ;;
       xs <- sum_axis1 df cols ;;
       Ok (reduced (axis1_dtype df ps) (Qsum xs)))%result
  end.

Definition calculate_equity_indicators (self_df : option DataFrame)
  : result (option (gmap string Q)) :=
  match self_df with
  | None => Ok None
  | Some df =>
      let equity_metrics : gmap string Q := ∅ in
      let rural_cols := rural_columns df in
      let urban_cols := urban_columns df in
      match rural_cols, urban_cols with
      | _ :: _, _ :: _ =>
          (rural_total <- grand_total df rural_cols ;;
           urban_total <- grand_total df urban_cols ;;
           Ok (Some (<["rural_urban_ratio" :=
                         (rural_total / (urban_total + eps))%Q]> equity_metrics)))%result
      | _, _ => Ok (Some equity_metrics)
      end
  end.

(** ** The indicator of the specification *)

(** The sum over every cell of the given columns, as a number and not
    as a 64-bit integer. *)
Definition exact_total (df : DataFrame) (cols : list string) : result Q :=
  (xs <- traverse (fun c => s <- getitem df c ;; sum_cells (values s)) cols ;;
   Ok (Qsum xs))%result.

(** The gender parity index in the words of the specification: the sum
    over all the girls columns divided by the sum over all the boys
    columns plus [eps]. *)
Definition gender_parity_spec (df : DataFrame) : result Q :=
  (girls_sum <- exact_total df (List.filter is_girls (gender_columns df)) ;;
   boys_sum <- exact_total df (List.filter is_boys (gender_columns df)) ;;
   Ok (girls_sum / (boys_sum + eps))%Q)%result.

End Analysis.

Export Analysis.

(** ** [perform_clustering_analysis] *)

Module Clustering.

Record KMeansFit : Type := {
  labels_ : list nat;
  cluster_centers_ : list (list Q);
  inertia_ : Q
}.

(** What the embedding takes from numpy and scikit-learn: random states
    and their seeding, the number numpy reads a text as, the
    standardisation of a matrix, and the k-means fit. The fit draws its
    initial centroids from a random state, and its sums of floats are
    split over threads, so the last bits of what it returns also depend
    on how the threads were scheduled. *)
Class Sklearn : Type := {
  rng : Type;
  schedule : Type;
  RandomState : Z -> rng;
  float_of_text : string -> option Q;
  scaler_fit_transform : list (list Q) -> result (list (list Q));
  kmeans_fit : nat -> rng -> schedule -> list (list Q) -> result KMeansFit
}.

(** [KMeans(n_clusters=..., random_state=...)]. *)
Record KMeans : Type := {
  n_clusters : nat;
  random_state : option Z
}.

(** [kmeans.fit_predict(X)]: an estimator built with a seed draws from a
    random state of its own; one built without draws from the random
    state of the process. *)
Definition fit_predict `{Sklearn} (kmeans : KMeans) (ambient : rng)
    (threads : schedule) (X : list (list Q)) : result KMeansFit :=
  kmeans_fit (n_clusters kmeans)
    (match random_state kmeans with
     | Some seed => RandomState seed
     | None => ambient
     end) threads X.

(** [df.select_dtypes(include=[np.number]).columns]. *)
Definition number_columns (df : DataFrame) : list string :=
  map fst (List.filter (fun cd => bool_decide (snd cd ∈ [int64; float64; int32]))
             (schema df)).

(** [fillna(0)] on a cell. *)
Definition fillna0 (c : cell) : cell :=
  match c with
  | CMissing => CNum 0
  | c => c
  end.

(** The conversion to floats at the entry of [fit_transform]: a text
    that numpy does not read as a finite number raises [ValueError], and
    so does a missing value. *)
Definition as_float `{Sklearn} (c : cell) : result Q :=
  match c with
  | CNum q => Ok q
  | CText t =>
      match float_of_text t with
      | Some q => Ok q
      | None => Raise ValueError
      end
  | CMissing => Raise ValueError
  end.

(** [X = df[features].fillna(0)], as the matrix of floats the scaler
    makes of it. *)
Definition feature_matrix `{Sklearn} (df : DataFrame) (features : list string)
  : result (list (list Q)) :=
  (ps <- positions features (columns df) ;;
   traverse (traverse as_float)
     (map (fun row => map (fun i => fillna0 (cell_at i row)) ps) (rows df)))%result.

(** The labels as the cells of the [cluster] column. *)
Definition label_cells (labels : list nat) : list cell :=
  map (fun c => CNum (of_nat c)) labels.

Record clustering : Type := {
  clusters : list nat;
  cluster_centers : list (list Q);
  inertia : Q
}.

(** [self.df] is a reference: the assignment of the [cluster] column
    changes the caller's table. [ambient] is the random state of the
    process and [threads] the scheduling of the fit. *)
Definition perform_clustering_analysis `{Sklearn} (ambient : rng)
    (threads : schedule) (self_df : option loc) (n_clusters : nat)
    (features : option (list string))
  : M (option clustering) :=
  match self_df with
  | None => ret None
  | Some l =>
      (df <- deref l ;;
       let features :=
         match features with
         | None => take 20 (number_columns df)
         | Some given => given
         end in
       X <- lift (feature_matrix df features) ;;
       X_scaled <- lift (scaler_fit_transform X) ;;
       let kmeans := {| n_clusters := n_clusters; random_state := Some 42%Z |} in
       fit <- lift (fit_predict kmeans ambient threads X_scaled) ;;
       (if decide (length (labels_ fit) = len df) then ret tt else raise ValueError) ;;
       update l (fun df => setitem df "cluster" int32 (label_cells (labels_ fit))) ;;
       ret (Some {| clusters := labels_ fit;
                    cluster_centers := cluster_centers_ fit;
                    inertia := inertia_ fit |}))%store
  end.

End Clustering.

Export Clustering.

(** * Example tables *)

Module Examples.

Definition num (z : Z) : cell := CNum (inject_Z z).

(** The scenario of the specification: three schools, and teacher
    counts for two of them. *)
Definition schools : DataFrame :=
  {| schema := [("School_Code", object)];
     rows := [[CText "A"]; [CText "B"]; [CText "C"]] |}.

Definition teachers : DataFrame :=
  {| schema := [("School_Code", object); ("Teacher_Count", int64)];
     rows := [[CText "A"; num 5]; [CText "B"; num 10]] |}.

(** An enrolment table that lists school A twice. *)
Definition one_school : DataFrame :=
  {| schema := [("School_Code", object)];
     rows := [[CText "A"]] |}.

Definition enrolment_twice : DataFrame :=
  {| schema := [("School_Code", object); ("Enrolled", int64)];
     rows := [[CText "A"; num 30]; [CText "A"; num 40]] |}.

(** A table keyed by a label that is none of the aliases. *)
Definition unkeyed : DataFrame :=
  {| schema := [("Code", object); ("Teacher_Count", int64)];
     rows := [[CText "A"; num 5]] |}.

Definition parity : DataFrame :=
  {| schema := [("Girls_Enrolled", int64); ("Boys_Enrolled", int64)];
     rows := [[num 10; num 10]; [num 20; num 20]] |}.

Definition parity_by_state : DataFrame :=
  {| schema := [("State", object); ("Girls_Enrolled", int64); ("Boys_Enrolled", int64)];
     rows := [[CText "Goa"; num 10; num 10]; [CText "Bihar"; num 20; num 20]] |}.

(** Two girls columns and one boys column. *)
Definition two_girls_columns : DataFrame :=
  {| schema := [("Girls_Primary", int64); ("Girls_Secondary", int64);
                ("Boys_Enrolled", int64)];
     rows := [[num 1; num 3; num 5]; [num 2; num 4; num 5]] |}.

(** One column, whose name contains both "female" and "male". *)
Definition female_only : DataFrame :=
  {| schema := [("Female_Enrolled", int64)];
     rows := [[num 10]; [num 20]] |}.

Definition staffing : DataFrame :=
  {| schema := [("State", object); ("Total_Teachers", int64); ("Total_Students", int64)];
     rows := [[CText "Goa"; num 10; num 100];
              [CText "Bihar"; num 20; num 20];
              [CText "Goa"; num 1; num 2]] |}.


Definition toilets : DataFrame :=
  {| schema := [("Toilet", int64); ("Water", object)];
     rows := [[num 0; CText "yes"]; [num 0; CText "no"];
              [num 5; CText "yes"]; [num 3; CMissing]] |}.

(** Flags read as 32-bit integers: every school has the toilet. *)
Definition toilets_int32 : DataFrame :=
  {| schema := [("Toilet", int32)];
     rows := [[num 1]; [num 2]] |}.

Definition district_only : DataFrame :=
  {| schema := [("District", object)];
     rows := [[CText "Patna"]] |}.

Definition girls_toilet : DataFrame :=
  {| schema := [("Girls_Toilet", int64); ("Boys_Enrolled", int64)];
     rows := [[num 1; num 7]] |}.

Definition world0 : world :=
  {| heap := <[1%nat := schools]> (<[2%nat := teachers]> ∅); stdout := [] |}.

End Examples.

(** * Shapes of tables and of joins *)

Module Shape.

(** Every row has one cell per column. *)
Definition rows_fit (df : DataFrame) : Prop :=
  Forall (fun row => length row = length (schema df)) (rows df).

Definition rows_fit_if_present (other : option DataFrame) : Prop :=
  match other with
  | Some o => rows_fit o
  | None => True
  end.

(** What a guarded join appends to a row of the accumulated table whose
    key is [k]: the first row of [other] with that key, without its key
    cell; missing cells when no row has the key; nothing when [other] is
    skipped. *)
Definition appended (key : string) (other : option DataFrame) (k : cell)
  : list cell :=
  match other with
  | Some o =>
      match position key (columns o) with
      | Some j =>
          match matching k j (rows o) with
          | r :: _ => delete j r
          | [] => replicate (length (delete j (schema o))) CMissing
          end
      | None => []
      end
  | None => []
  end.

(** The value of a cell as a summand. *)
Definition cell_value (c : cell) : Q :=
  match c with
  | CNum q => q
  | _ => 0%Q
  end.

(** The rows that have a state, as [groupby] sees them. *)
Definition rows_with (i : nat) (df : DataFrame) : list (list cell) :=
  List.filter (fun row => negb (is_missing (cell_at i row))) (rows df).

(** A sum of weights over a list, in any monoid. *)
Definition fold_sum {B M : Type} (add : M -> M -> M) (zero : M)
    (w : B -> M) (l : list B) : M :=
  foldr (fun b acc => add (w b) acc) zero l.

(** The total of a column, missing cells and text counting for nothing,
    and the total of several columns. *)
Definition column_total (df : DataFrame) (col : string) : Q :=
  match position col (columns df) with
  | Some i => Qsum (map (fun row => cell_value (cell_at i row)) (rows df))
  | None => 0%Q
  end.

Definition columns_total (df : DataFrame) (cols : list string) : Q :=
  Qsum (map (column_total df) cols).

(** The sum of the absolute values of the cells of the columns. *)
Definition column_magnitude (df : DataFrame) (col : string) : Q :=
  match position col (columns df) with
  | Some i => Qsum (map (fun row => Qabs (cell_value (cell_at i row))) (rows df))
  | None => 0%Q
  end.

Definition columns_magnitude (df : DataFrame) (cols : list string) : Q :=
  Qsum (map (column_magnitude df) cols).

(** No sum over cells of the columns leaves the 64-bit integers: the
    columns are not all integer columns, or the absolute values of
    their cells add up to less than 2^63. *)
Definition sums_fit (df : DataFrame) (cols : list string) : Prop :=
  forallb (fun c => is_integer_dtype (dtype_of df c)) cols = true ->
  (columns_magnitude df cols < two_63)%Q.

End Shape.

Export Shape.

(** * [src/data_processing.py]: [UDISEDataProcessor.clean_data] and
    [process_all_data] *)

Module Cleaning.

(** What the embedding takes from [pd.to_numeric]: the number a string
    is read as, if any, and whether the values of a column are all
    integers, which decides between int64 and float64. Integers beyond
    the range of int64 are not modelled. *)
Class ToNumeric : Type := {
  parse_number : string -> option Q;
  integral : list cell -> bool
}.

(** The positions of the columns. *)
Definition column_positions (df : DataFrame) : list nat :=
  seq 0 (length (schema df)).

Definition some_present (cs : list cell) : bool :=
  existsb (fun c => negb (is_missing c)) cs.

(** [df.dropna(how='all')]: the rows that have a value in some column. *)
Definition dropna_rows (df : DataFrame) : DataFrame :=
  {| schema := schema df;
     rows := List.filter
               (fun row => some_present (map (fun i => cell_at i row)
                                           (column_positions df)))
               (rows df) |}.

(** The columns at the positions [keep], in that order. *)
Definition select_positions (df : DataFrame) (keep : list nat) : DataFrame :=
  {| schema := map (fun i => nth i (schema df) ("", object)) keep;
     rows := map (fun row => map (fun i => cell_at i row) keep) (rows df) |}.

(** [df.dropna(axis=1, how='all')]: the columns that have a value in
    some row. A table without rows loses every column. *)
Definition dropna_columns (df : DataFrame) : DataFrame :=
  select_positions df
    (List.filter (fun i => some_present (map (cell_at i) (rows df)))
       (column_positions df)).

(** [df.select_dtypes(include=[object]).columns]. *)
Definition object_columns (df : DataFrame) : list string :=
  map fst (List.filter (fun cd => bool_decide (snd cd = object)) (schema df)).

(** [errors='coerce'] on one value: a text that is no number becomes
    missing. *)
Definition to_numeric_cell `{ToNumeric} (c : cell) : cell :=
  match c with
  | CText s =>
      match parse_number s with
      | Some q => CNum q
      | None => CMissing
      end
  | c => c
  end.

(** [pd.to_numeric(s, errors='coerce')] on a column of objects: a
    missing value makes the result float64. *)
Definition to_numeric `{ToNumeric} (s : Series) : Series :=
  let converted := map to_numeric_cell (values s) in
  {| sdtype := if existsb is_missing converted then float64
               else if integral (values s) then int64 else float64;
     values := converted |}.

(** [df[col] = pd.to_numeric(df[col], errors='coerce')]. When several
    columns carry the label, [df[col]] is a table and [to_numeric]
    raises [TypeError]. *)
Definition coerce_column `{ToNumeric} (df : DataFrame) (col : string)
  : result DataFrame :=
  if decide (1 < occurrences col (columns df))%nat then Raise TypeError
  else
    (s <- getitem df col ;;
     let converted := to_numeric s in
     Ok (setitem df col (sdtype converted) (values converted)))%result.

(** [try: ... except: pass]. *)
Definition try_coerce `{ToNumeric} (df : DataFrame) (col : string) : DataFrame :=
  match coerce_column df col with
  | Ok converted => converted
  | Raise _ => df
  end.

Definition clean_data `{ToNumeric} (df : option DataFrame) : option DataFrame :=
  match df with
  | None => None
  | Some df =>
      let df := dropna_rows df in
      let df := dropna_columns df in
      let numeric_cols := object_columns df in
      Some (foldl try_coerce df numeric_cols)
  end.

(** The four loaders read archives from the disk: each gives the lines
    it prints and the table it found, if any. *)
Class Loaders : Type := {
  load_profile_data : string -> list string * option DataFrame;
  load_enrolment_data : string -> list string * option DataFrame;
  load_facility_data : string -> list string * option DataFrame;
  load_teacher_data : string -> list string * option DataFrame
}.

(** What a run of [process_all_data] leaves: the printed lines, the
    files written under [data/processed], oldest first, and what is
    returned. *)
Record outcome : Type := {
  printed : list string;
  written : list (string * DataFrame);
  returned : result (option DataFrame)
}.

Definition processed_path (name year : string) : string :=
  "data/processed/" +:+ name +:+ "_" +:+ year +:+ ".csv".

(** [if df is not None: df.to_csv(self.processed_dir / f'{name}_{year}.csv',
    index=False)]. *)
Definition to_csv_if_present (name year : string) (df : option DataFrame)
  : list (string * DataFrame) :=
  match df with
  | Some d => [(processed_path name year, d)]
  | None => []
  end.

Definition process_all_data `{ToNumeric} `{Loaders} (year : string) : outcome :=
  let profile := load_profile_data year in
  let enrolment := load_enrolment_data year in
  let facility := load_facility_data year in
  let teacher := load_teacher_data year in
  let profile_df := clean_data (snd profile) in
  let enrolment_df := clean_data (snd enrolment) in
  let facility_df := clean_data (snd facility) in
  let teacher_df := clean_data (snd teacher) in
  let lines :=
    ["Processing UDISE data for " +:+ year +:+ "..."]
    ++ fst profile ++ fst enrolment ++ fst facility ++ fst teacher in
  let files :=
    to_csv_if_present "profile" year profile_df
    ++ to_csv_if_present "enrolment" year enrolment_df
    ++ to_csv_if_present "facility" year facility_df
    ++ to_csv_if_present "teacher" year teacher_df in
  match profile_df with
  | Some cleaned =>
      let merged := merge_datasets cleaned enrolment_df facility_df teacher_df in
      match snd merged with
      | Ok merged_df =>
          {| printed := lines ++ fst merged
                        ++ ["Processed and saved merged dataset for " +:+ year];
             written := files ++ [(processed_path "merged" year, merged_df)];
             returned := Ok (Some merged_df) |}
      | Raise e =>
          {| printed := lines ++ fst merged;
             written := files;
             returned := Raise e |}
      end
  | None =>
      {| printed := lines; written := files; returned := Ok None |}
  end.

(** A text that [to_numeric] does not read as a number. *)
Definition no_number `{ToNumeric} (c : cell) : Prop :=
  exists t, c = CText t /\ parse_number t = None.

End Cleaning.

Export Cleaning.

(** * More example tables *)

Module MoreExamples.

(** Two rural columns and one urban column. *)
Definition settlements : DataFrame :=
  {| schema := [("Rural_Primary", int64); ("Rural_Secondary", int64);
                ("Urban_Schools", int64)];
     rows := [[Examples.num 1; Examples.num 3; Examples.num 1];
              [Examples.num 2; Examples.num 3; Examples.num 2]] |}.

(** A table that has its columns and no row. *)
Definition no_schools : DataFrame :=
  {| schema := [("State", object); ("Total_Teachers", int64);
                ("Total_Students", int64); ("Rural_Schools", int64);
                ("Urban_Schools", int64); ("Toilet", int64)];
     rows := [] |}.

(** A stand-in for scikit-learn: no scaling, and every row in cluster 0. *)
Definition one_cluster : Sklearn :=
  {| rng := unit;
     schedule := unit;
     RandomState := fun _ => tt;
     float_of_text := fun _ => None;
     scaler_fit_transform := fun X => Ok X;
     kmeans_fit := fun _ _ _ X =>
       Ok {| labels_ := map (fun _ => 0%nat) X;
             cluster_centers_ := [];
             inertia_ := 0%Q |} |}.

Definition two_schools : DataFrame :=
  {| schema := [("State", object); ("Students", int64)];
     rows := [[CText "Goa"; Examples.num 10]; [CText "Bihar"; Examples.num 20]] |}.

Definition analyzer_world : world :=
  {| heap := {[ 0%nat := two_schools ]}; stdout := [] |}.

(** A stand-in for [pd.to_numeric]: the strings of decimal digits are
    numbers, and every converted column is float64. *)
Fixpoint digits (s : string) (acc : N) : option N :=
  match s with
  | EmptyString => Some acc
  | String a rest =>
      let n := Ascii.N_of_ascii a in
      if ((48 <=? n) && (n <=? 57))%N then digits rest (acc * 10 + (n - 48))%N
      else None
  end.

Definition digits_only : ToNumeric :=
  {| parse_number := fun s =>
       match s with
       | EmptyString => None
       | _ => option_map (fun n => inject_Z (Z.of_N n)) (digits s 0%N)
       end;
     integral := fun _ => false |}.

(** School codes that are no numbers, a row without any value and a
    column without any value. *)
Definition raw_profile : DataFrame :=
  {| schema := [("School_Code", object); ("State", object);
                ("Classrooms", object); ("Remarks", float64)];
     rows := [[CText "A12"; CText "Goa"; CText "7"; CMissing];
              [CMissing; CMissing; CMissing; CMissing];
              [CText "B07"; CText "Bihar"; CText "many"; CMissing]] |}.

Definition coded_profile : DataFrame :=
  {| schema := [("School_Code", object); ("Classrooms", int64)];
     rows := [[CText "A12"; Examples.num 7]; [CText "B07"; Examples.num 9]] |}.

Definition raw_enrolment : DataFrame :=
  {| schema := [("School_Code", object); ("Enrolled", int64)];
     rows := [[CText "A12"; Examples.num 30]; [CText "B07"; Examples.num 40];
              [CText "C01"; Examples.num 50]] |}.

(** A disk that holds a profile archive and an enrolment archive. *)
Definition two_archives : Loaders :=
  {| load_profile_data := fun _ => ([], Some coded_profile);
     load_enrolment_data := fun _ => ([], Some raw_enrolment);
     load_facility_data := fun _ => ([], None);
     load_teacher_data := fun _ => ([], None) |}.

End MoreExamples.

(** * Facts about the prelude *)

Section prelude_facts.

Lemma first_present_None (candidates present : list string) :
  first_present candidates present = None <->
  (forall x, x ∈ candidates -> x ∉ present).
Proof.
  induction candidates as [|c cs IH]; simpl.
  - split; [intros _ x Hx; inversion Hx | reflexivity].
  - destruct (decide (c ∈ present)) as [Hin|Hnin].
    + split; [discriminate|]. intros H. exfalso. apply (H c); [left | exact Hin].
    + rewrite IH. split.
      * intros H x Hx. apply elem_of_cons in Hx as [->|Hx]; auto.
      * intros H x Hx. apply H. now right.
Qed.

(** The loop returns the first candidate that is present. *)
Lemma first_present_Some (candidates present : list string) (k : string) :
  first_present candidates present = Some k <->
  exists before after,
    candidates = before ++ k :: after /\
    k ∈ present /\ (forall x, x ∈ before -> x ∉ present).
Proof.
  induction candidates as [|c cs IH]; simpl.
  - split; [discriminate|]. intros (b & a & Heq & _). now destruct b.
  - destruct (decide (c ∈ present)) as [Hin|Hnin].
    + split.
      * intros [= <-]. exists [], cs. repeat split; auto. intros x Hx. inversion Hx.
      * intros (b & a & Heq & Hk & Hb). destruct b as [|b0 b].
        -- simpl in Heq. now inversion Heq.
        -- simpl in Heq. inversion Heq; subst. exfalso. apply (Hb b0); [left | exact Hin].
    + rewrite IH. split.
      * intros (b & a & -> & Hk & Hb). exists (c :: b), a. repeat split; auto.
        intros x Hx. apply elem_of_cons in Hx as [->|Hx]; auto.
      * intros (b & a & Heq & Hk & Hb). destruct b as [|b0 b].
        -- simpl in Heq. inversion Heq; subst. contradiction.
        -- simpl in Heq. inversion Heq; subst. exists b, a. repeat split; auto.
           intros x Hx. apply Hb. now right.
Qed.

Lemma position_None (label : string) (cols : list string) :
  position label cols = None <-> label ∉ cols.
Proof.
  induction cols as [|c cs IH]; simpl.
  - split; [intros _ H; inversion H | reflexivity].
  - destruct (String.eqb_spec c label) as [->|Hne].
    + split; [discriminate|]. intros H. exfalso. apply H. left.
    + destruct (position label cs); simpl.
      * split; [discriminate|]. intros H. exfalso.
        assert (Hn : label ∉ cs) by (intros Hc; apply H; now right).
        apply IH in Hn. discriminate.
      * split; [|reflexivity]. intros _ H.
        apply elem_of_cons in H as [->|H]; [congruence|]. now apply IH in H.
Qed.

Lemma position_Some_elem (label : string) (cols : list string) :
  label ∈ cols -> exists i, position label cols = Some i.
Proof.
  intros H. destruct (position label cols) as [i|] eqn:E; [eauto|].
  apply position_None in E. contradiction.
Qed.

Lemma position_app_l (label : string) (cols more : list string) (i : nat) :
  position label cols = Some i -> position label (cols ++ more) = Some i.
Proof.
  revert i. induction cols as [|c cs IH]; simpl; [discriminate|].
  intros i. destruct (String.eqb c label); [auto|].
  destruct (position label cs) as [p|]; simpl; [|discriminate].
  intros [= <-]. now rewrite (IH p eq_refl).
Qed.

End prelude_facts.

(** * Facts about the join *)

Section join_facts.

Lemma cell_eqb_refl (a : cell) : cell_eqb a a = true.
Proof.
  destruct a; simpl; auto.
  - apply Qeq_bool_iff. reflexivity.
  - apply String.eqb_refl.
Qed.

Lemma cell_eqb_sym (a b : cell) : cell_eqb a b = cell_eqb b a.
Proof.
  destruct a, b; simpl; auto.
  - destruct (Qeq_bool q q0) eqn:E1, (Qeq_bool q0 q) eqn:E2; auto.
    + apply Qeq_bool_iff in E1. symmetry in E1. apply Qeq_bool_iff in E1. congruence.
    + apply Qeq_bool_iff in E2. symmetry in E2. apply Qeq_bool_iff in E2. congruence.
  - apply String.eqb_sym.
Qed.

Lemma cell_eqb_trans (a b c : cell) :
  cell_eqb a b = true -> cell_eqb b c = true -> cell_eqb a c = true.
Proof.
  destruct a, b, c; simpl; try discriminate; auto.
  - intros H1 H2. apply Qeq_bool_iff in H1, H2. apply Qeq_bool_iff.
    now rewrite H1.
  - intros H1 H2. apply String.eqb_eq in H1, H2. subst. apply String.eqb_refl.
Qed.

Lemma filter_none {A} (f : A -> bool) (l : list A) :
  existsb f l = false -> List.filter f l = [].
Proof.
  induction l as [|x l IH]; simpl; auto.
  destruct (f x); simpl; [discriminate | exact IH].
Qed.

(** In a column of distinct keys a key is found at most once. *)
Lemma distinct_keys_once (ks : list cell) (k : cell) :
  distinct_keys ks = true ->
  (length (List.filter (cell_eqb k) ks) <= 1)%nat.
Proof.
  induction ks as [|k0 rest IH]; simpl; [lia|].
  intros H. apply andb_prop in H as [Hnew Hrest].
  apply negb_true_iff in Hnew.
  destruct (cell_eqb k k0) eqn:E; simpl; [|auto].
  rewrite filter_none; [simpl; lia|].
  destruct (existsb (cell_eqb k) rest) eqn:Ex; [|reflexivity].
  apply existsb_exists in Ex as (r & Hr & Hkr).
  assert (Hc : existsb (cell_eqb k0) rest = true).
  { apply existsb_exists. exists r. split; [exact Hr|].
    apply cell_eqb_trans with k; [|exact Hkr].
    now rewrite cell_eqb_sym. }
  congruence.
Qed.

Lemma matching_length (k : cell) (j : nat) (right_rows : list (list cell)) :
  length (matching k j right_rows) =
  length (List.filter (cell_eqb k) (map (cell_at j) right_rows)).
Proof.
  unfold matching. induction right_rows as [|r rs IH]; simpl; auto.
  destruct (cell_eqb k (cell_at j r)); simpl; auto.
Qed.

Lemma left_join_rows_cons (i j width : nat) (l : list cell)
    (ls right_rows : list (list cell)) :
  left_join_rows i j width (l :: ls) right_rows =
  match matching (cell_at i l) j right_rows with
  | [] => [l ++ replicate width CMissing]
  | ms => map (fun r => l ++ delete j r) ms
  end ++ left_join_rows i j width ls right_rows.
Proof. reflexivity. Qed.

(** The join emits every left row once per matching right row, and once
    when there is none. *)
Lemma left_join_rows_length (i j width : nat)
    (left_rows right_rows : list (list cell)) :
  length (left_join_rows i j width left_rows right_rows) =
  list_sum (map (emitted i j right_rows) left_rows).
Proof.
  induction left_rows as [|l ls IH]; [reflexivity|].
  rewrite left_join_rows_cons, length_app, IH.
  cbn [map list_sum]. f_equal. unfold emitted.
  destruct (matching (cell_at i l) j right_rows) as [|m ms]; [reflexivity|].
  simpl. rewrite ?length_map. lia.
Qed.

Lemma list_sum_ge_length (f : list cell -> nat) (l : list (list cell)) :
  (forall x, 1 <= f x)%nat -> (length l <= list_sum (map f l))%nat.
Proof.
  intros H. induction l as [|x l IH]; simpl; auto.
  specialize (H x). lia.
Qed.

Lemma list_sum_all_one (f : list cell -> nat) (l : list (list cell)) :
  (forall x, f x = 1%nat) -> list_sum (map f l) = length l.
Proof.
  intros H. induction l as [|x l IH]; simpl; auto.
  rewrite H, IH. reflexivity.
Qed.

Lemma append_empty (s : string) : s +:+ "" = s.
Proof.
  induction s as [|c s IH]; [reflexivity|].
  change (String c (s +:+ "") = String c s). now rewrite IH.
Qed.

(** With an empty left suffix the labels of the left table are kept. *)
Lemma left_labels_kept (rest : list string) (sch : list (string * dtype)) :
  map fst
    (map (fun cd : string * dtype =>
            (if decide (fst cd ∈ rest) then fst cd +:+ "" else fst cd, snd cd))
       sch) = map fst sch.
Proof.
  induction sch as [|[c d] sch IH]; simpl; auto.
  rewrite IH. f_equal. destruct (decide (c ∈ rest)); auto using append_empty.
Qed.

(** A join that returns: neither refusal applied, its columns extend
    those of the left table, and its rows are the joined rows. *)
Lemma merge_Ok (left right joined : DataFrame) (on suffix : string) (i j : nat) :
  position on (columns left) = Some i ->
  position on (columns right) = Some j ->
  merge left right on ("", suffix) = Ok joined ->
  merge_refused left right on ("", suffix) i j = false /\
  (exists extra, columns joined = columns left ++ extra) /\
  rows joined =
    left_join_rows i j (length (delete j (schema right))) (rows left) (rows right).
Proof.
  intros Hi Hj. unfold merge. rewrite Hi, Hj.
  destruct (merge_refused left right on ("", suffix) i j); [discriminate|].
  intros [= <-]. split; [reflexivity|]. split; [|reflexivity].
  eexists. unfold columns at 1. simpl. rewrite map_app. f_equal.
  rewrite (list_fmap_alter fst _ id) by (apply Forall_forall; now intros [c d] _).
  rewrite list_alter_id by reflexivity.
  apply (left_labels_kept (map fst (delete j (schema right)))).
Qed.

(** A join that is not refused returns. *)
Lemma merge_accepted (left right : DataFrame) (on suffix : string) (i j : nat) :
  position on (columns left) = Some i ->
  position on (columns right) = Some j ->
  merge_refused left right on ("", suffix) i j = false ->
  exists joined, merge left right on ("", suffix) = Ok joined.
Proof.
  intros Hi Hj Hr. unfold merge. rewrite Hi, Hj, Hr. eauto.
Qed.

(** The one error of a join on a key that both tables have. *)
Lemma merge_Raise (left right : DataFrame) (on : string)
    (suffixes : string * string) (e : exn) :
  on ∈ columns left ->
  on ∈ columns right ->
  merge left right on suffixes = Raise e ->
  e = ValueError.
Proof.
  intros Hl Hr. destruct (position_Some_elem _ _ Hl) as [i Hi].
  destruct (position_Some_elem _ _ Hr) as [j Hj].
  unfold merge. rewrite Hi, Hj.
  destruct (merge_refused left right on suffixes i j); [|discriminate].
  now intros [= <-].
Qed.

Lemma merge_len (left right : DataFrame) (on suffix : string) (i j : nat)
    (joined : DataFrame) :
  position on (columns left) = Some i ->
  position on (columns right) = Some j ->
  merge left right on ("", suffix) = Ok joined ->
  len joined = list_sum (map (emitted i j (rows right)) (rows left)).
Proof.
  intros Hi Hj Hm.
  destruct (merge_Ok left right joined on suffix i j Hi Hj Hm) as (_ & _ & Hrows).
  unfold len. rewrite Hrows. apply left_join_rows_length.
Qed.

Lemma emitted_unique (on : string) (right : DataFrame) (i j : nat) (l : list cell) :
  position on (columns right) = Some j ->
  unique_key on right = true ->
  emitted i j (rows right) l = 1%nat.
Proof.
  intros Hj Hu. unfold unique_key in Hu. rewrite Hj in Hu.
  unfold emitted. rewrite matching_length.
  pose proof (distinct_keys_once _ (cell_at i l) Hu). lia.
Qed.

End join_facts.

(** * [merge_datasets] on table values *)

Section merge_datasets_facts.

(** One guarded join. When it returns, the key column is kept, no row
    is lost, and the row count is kept when the keys of the other table
    are unique; it is the identity on a skipped table; and it raises
    nothing but the [ValueError] of a refused join. *)
Lemma merge_if_present_spec (merged_df : DataFrame) (other : option DataFrame)
    (merge_key suffix : string) :
  merge_key ∈ columns merged_df ->
  (forall joined,
      merge_if_present merged_df other merge_key suffix = Ok joined ->
      merge_key ∈ columns joined /\
      (len merged_df <= len joined)%nat /\
      (unique_if_present merge_key other -> len joined = len merged_df)) /\
  (skipped merge_key other ->
   merge_if_present merged_df other merge_key suffix = Ok merged_df) /\
  (forall e,
      merge_if_present merged_df other merge_key suffix = Raise e ->
      e = ValueError).
Proof.
  intros Hkey. unfold merge_if_present.
  destruct other as [o|].
  2:{ split; [|split; [reflexivity|discriminate]].
      intros joined [= <-]. auto. }
  destruct (decide (merge_key ∈ columns o)) as [Hin|Hnin].
  2:{ split; [|split; [reflexivity|discriminate]].
      intros joined [= <-]. auto. }
  destruct (position_Some_elem _ _ Hkey) as [i Hi].
  destruct (position_Some_elem _ _ Hin) as [j Hj].
  split; [|split].
  - intros joined Hm.
    destruct (merge_Ok merged_df o joined merge_key suffix i j Hi Hj Hm)
      as (_ & [extra Hcols] & _).
    pose proof (merge_len _ _ _ _ _ _ _ Hi Hj Hm) as Hlen.
    split; [|split].
    + rewrite Hcols. apply elem_of_app. now left.
    + rewrite Hlen. apply list_sum_ge_length. intros x. unfold emitted. lia.
    + simpl. intros Hu. rewrite Hlen. apply list_sum_all_one.
      intros x. now apply emitted_unique with merge_key.
  - simpl. intros Hs. contradiction.
  - intros e. now apply merge_Raise.
Qed.

(** The three guarded joins in a row. *)
Lemma three_joins_spec (profile_df : DataFrame)
    (enrolment_df facility_df teacher_df : option DataFrame) (k : string) :
  k ∈ columns profile_df ->
  (forall fused,
      (m <- merge_if_present profile_df enrolment_df k "_enrol" ;;
       m <- merge_if_present m facility_df k "_facility" ;;
       merge_if_present m teacher_df k "_teacher")%result = Ok fused ->
      (len profile_df <= len fused)%nat /\
      (unique_if_present k enrolment_df ->
       unique_if_present k facility_df ->
       unique_if_present k teacher_df ->
       len fused = len profile_df)) /\
  (forall e,
      (m <- merge_if_present profile_df enrolment_df k "_enrol" ;;
       m <- merge_if_present m facility_df k "_facility" ;;
       merge_if_present m teacher_df k "_teacher")%result = Raise e ->
      e = ValueError).
Proof.
  intros Hin.
  destruct (merge_if_present_spec profile_df enrolment_df k "_enrol" Hin)
    as (Hok1 & _ & Herr1).
  destruct (merge_if_present profile_df enrolment_df k "_enrol") as [m1|e1];
    cbn [rbind].
  2:{ split; [discriminate|]. intros e [= <-]. now apply Herr1. }
  destruct (Hok1 m1 eq_refl) as (Hin1 & Hle1 & Hu1).
  destruct (merge_if_present_spec m1 facility_df k "_facility" Hin1)
    as (Hok2 & _ & Herr2).
  destruct (merge_if_present m1 facility_df k "_facility") as [m2|e2];
    cbn [rbind].
  2:{ split; [discriminate|]. intros e [= <-]. now apply Herr2. }
  destruct (Hok2 m2 eq_refl) as (Hin2 & Hle2 & Hu2).
  destruct (merge_if_present_spec m2 teacher_df k "_teacher" Hin2)
    as (Hok3 & _ & Herr3).
  split; [|exact Herr3].
  intros fused Hm. destruct (Hok3 fused Hm) as (_ & Hle3 & Hu3).
  split; [lia|]. intros He Hf Ht.
  rewrite (Hu3 Ht), (Hu2 Hf), (Hu1 He). reflexivity.
Qed.

Lemma occurrences_NoDup (col : string) (cols : list string) :
  NoDup cols -> (occurrences col cols <= 1)%nat.
Proof.
  unfold occurrences. induction 1 as [|c cs Hc _ IH]; simpl; [lia|].
  destruct (String.eqb_spec col c) as [->|Hne]; [|exact IH].
  simpl. rewrite (filter_none (String.eqb c) cs); [simpl; lia|].
  apply not_true_is_false. intros Hex.
  apply existsb_exists in Hex as (x & Hx & Heq).
  apply String.eqb_eq in Heq as <-. apply Hc. now apply list_elem_of_In.
Qed.

Lemma position_lookup (label : string) (cols : list string) (i : nat) :
  position label cols = Some i -> cols !! i = Some label.
Proof.
  revert i. induction cols as [|c cs IH]; simpl; [discriminate|].
  intros i. destruct (String.eqb_spec c label) as [->|Hne].
  - intros [= <-]. reflexivity.
  - destruct (position label cs) as [p|]; simpl; [|discriminate].
    intros [= <-]. simpl. now apply IH.
Qed.

(** Labels that share nothing need no suffix. *)
Lemma suffix_clash_apart (left_labels right_labels : list string)
    (suffixes : string * string) :
  (forall x, x ∈ left_labels -> x ∉ right_labels) ->
  suffix_clash left_labels right_labels suffixes = false.
Proof.
  intros Hapart. unfold suffix_clash.
  rewrite filter_none; [reflexivity|].
  apply not_true_is_false. intros Hex.
  apply existsb_exists in Hex as (x & Hx & Hin).
  apply bool_decide_eq_true in Hin.
  apply (Hapart x); [now apply list_elem_of_In|exact Hin].
Qed.

(** A join of two tables with keys of one dtype whose labels, the key
    of the right table apart, are all different: it is not refused, it
    appends the labels of the right table as they are, and it keeps the
    dtype of the key. *)
Lemma merge_apart (left right : DataFrame) (on suffix : string) (i j : nat) :
  position on (columns left) = Some i ->
  position on (columns right) = Some j ->
  dtype_of right on = dtype_of left on ->
  NoDup (columns left ++ map fst (delete j (schema right))) ->
  exists joined,
    merge left right on ("", suffix) = Ok joined /\
    columns joined = columns left ++ map fst (delete j (schema right)) /\
    dtype_of joined on = dtype_of left on.
Proof.
  intros Hi Hj Hd Hnd. unfold dtype_of in Hd. rewrite Hi, Hj in Hd.
  apply NoDup_app in Hnd as (Hndl & Hapart & Hndr).
  assert (Hon : on ∉ map fst (delete j (schema right))).
  { apply Hapart. eapply list_elem_of_lookup_2, position_lookup, Hi. }
  assert (Hocc : occurrences on (columns right) = 1%nat).
  { unfold columns in *. apply position_lookup in Hj as Hlook.
    rewrite <- (take_drop_middle _ _ _ Hlook).
    rewrite <- (take_drop_middle _ _ _ Hlook) in Hj.
    rewrite list_fmap_delete, delete_take_drop in Hon.
    unfold occurrences. rewrite List.filter_app. simpl.
    rewrite String.eqb_refl.
    rewrite !filter_none; [reflexivity| |].
    - apply not_true_is_false. intros Hex.
      apply existsb_exists in Hex as (x & Hx & Heq).
      apply String.eqb_eq in Heq as <-. apply Hon, elem_of_app. right.
      now apply list_elem_of_In.
    - apply not_true_is_false. intros Hex.
      apply existsb_exists in Hex as (x & Hx & Heq).
      apply String.eqb_eq in Heq as <-. apply Hon, elem_of_app. left.
      now apply list_elem_of_In. }
  assert (Hkeys : keys_compared (nth i (map snd (schema left)) object)
                    (map (cell_at i) (rows left))
                    (nth j (map snd (schema right)) object)
                    (map (cell_at j) (rows right)) = false).
  { unfold keys_compared. rewrite Hd.
    rewrite (bool_decide_eq_true_2 _ eq_refl). simpl.
    now rewrite andb_false_r. }
  assert (Hr : merge_refused left right on ("", suffix) i j = false).
  { unfold merge_refused. pose proof (occurrences_NoDup on _ Hndl) as Hl.
    apply Nat.ltb_ge in Hl. rewrite Hl, Hocc. simpl.
    unfold keys_refused. rewrite Hkeys. simpl.
    now apply suffix_clash_apart. }
  unfold merge. rewrite Hi, Hj, Hr. unfold keys_coerced. rewrite Hkeys.
  cbn [andb]. eexists. split; [reflexivity|].
  match goal with |- columns ?J = _ /\ _ => set (joined := J) end.
  assert (Hcols : columns joined
                  = columns left ++ map fst (delete j (schema right))).
  { unfold columns at 1. subst joined. cbn [schema]. rewrite map_app. f_equal.
    - rewrite (list_fmap_alter fst _ id)
        by (apply Forall_forall; now intros [c d] _).
      rewrite list_alter_id by reflexivity.
      apply (left_labels_kept (map fst (delete j (schema right)))).
    - rewrite map_map. apply map_ext_in. intros [c d] Hin. cbn [fst].
      rewrite decide_False; [reflexivity|].
      intros Hc. apply (Hapart c Hc). apply list_elem_of_fmap.
      exists (c, d). split; [reflexivity|]. now apply list_elem_of_In. }
  split; [exact Hcols|].
  unfold dtype_of. rewrite Hcols, (position_app_l _ _ _ _ Hi), Hi.
  subst joined. cbn [schema].
  pose proof (position_lookup _ _ _ Hi) as Hlook.
  apply lookup_lt_Some in Hlook. unfold columns in Hlook.
  rewrite length_map in Hlook.
  rewrite map_app, !nth_lookup, lookup_app_l
    by (rewrite length_map, length_alter, length_map; exact Hlook).
  rewrite list_alter_id by (now intros [c d]).
  rewrite map_map. reflexivity.
Qed.

Lemma dtype_of_position (df : DataFrame) (key : string) (i : nat) :
  position key (columns df) = Some i ->
  dtype_of df key = nth i (map snd (schema df)) object.
Proof. intros Hi. unfold dtype_of. now rewrite Hi. Qed.

(** One guarded join of tables whose labels are all different. *)
Lemma merge_if_present_apart (merged_df : DataFrame) (other : option DataFrame)
    (key suffix : string) :
  key ∈ columns merged_df ->
  same_key_dtype key (dtype_of merged_df key) other ->
  NoDup (columns merged_df ++ brought key other) ->
  exists joined,
    merge_if_present merged_df other key suffix = Ok joined /\
    columns joined = columns merged_df ++ brought key other /\
    dtype_of joined key = dtype_of merged_df key.
Proof.
  intros Hkey Hd Hnd. unfold merge_if_present, brought in *.
  destruct other as [o|];
    [|exists merged_df; now rewrite app_nil_r].
  destruct (decide (key ∈ columns o)) as [Hin|Hnin].
  - destruct (position_Some_elem _ _ Hkey) as [i Hi].
    destruct (position_Some_elem _ _ Hin) as [j Hj].
    rewrite Hj in *. apply (merge_apart _ _ _ _ i j Hi Hj (Hd Hin) Hnd).
  - rewrite (proj2 (position_None _ _) Hnin).
    exists merged_df. now rewrite app_nil_r.
Qed.

(** [merge_datasets] returns when the labels of the four tables, the
    keys of the secondary tables apart, are all different and the keys
    of the joined tables have the dtype of the primary key. *)
Lemma merge_datasets_accepted (profile_df : DataFrame)
    (enrolment_df facility_df teacher_df : option DataFrame) (k : string) :
  first_present possible_keys (columns profile_df) = Some k ->
  same_key_dtype k (dtype_of profile_df k) enrolment_df ->
  same_key_dtype k (dtype_of profile_df k) facility_df ->
  same_key_dtype k (dtype_of profile_df k) teacher_df ->
  NoDup (columns profile_df ++ brought k enrolment_df
         ++ brought k facility_df ++ brought k teacher_df) ->
  exists fused,
    snd (merge_datasets profile_df enrolment_df facility_df teacher_df) = Ok fused.
Proof.
  intros Hk He Hf Ht Hnd. unfold merge_datasets. rewrite Hk. cbn [snd].
  assert (Hin : k ∈ columns profile_df).
  { apply first_present_Some in Hk as (? & ? & _ & H & _). exact H. }
  rewrite !app_assoc in Hnd.
  pose proof (proj1 (proj1 (NoDup_app _ _) Hnd)) as Hnd2.
  pose proof (proj1 (proj1 (NoDup_app _ _) Hnd2)) as Hnd1.
  destruct (merge_if_present_apart profile_df enrolment_df k "_enrol" Hin He Hnd1)
    as (m1 & E1 & Hc1 & Hd1).
  rewrite E1. cbn [rbind].
  assert (Hin1 : k ∈ columns m1) by (rewrite Hc1; apply elem_of_app; now left).
  destruct (merge_if_present_apart m1 facility_df k "_facility" Hin1)
    as (m2 & E2 & Hc2 & Hd2); [now rewrite Hd1|now rewrite Hc1|].
  rewrite E2. cbn [rbind].
  assert (Hin2 : k ∈ columns m2) by (rewrite Hc2; apply elem_of_app; now left).
  destruct (merge_if_present_apart m2 teacher_df k "_teacher" Hin2)
    as (m3 & E3 & _); [now rewrite Hd2, Hd1|now rewrite Hc2, Hc1|].
  eauto.
Qed.

(** C1. Fusion row-count invariant: when every secondary table that is
    loaded has unique values in the resolved key column, the table
    [merge_datasets] returns has exactly as many rows as the primary
    table. The call raises only when pandas refuses a join
    ([ValueError]); it returns, for one, when the labels of the tables
    are all different, the keys apart, and the keys have one dtype. A
    secondary table that is [None] or lacks the key column is skipped,
    the outcome being the one obtained without it, and with all three
    skipped the outcome is the primary table itself. *)
Theorem merge_datasets_row_count (profile_df : DataFrame)
    (enrolment_df facility_df teacher_df : option DataFrame) :
  (forall k, first_present possible_keys (columns profile_df) = Some k ->
             unique_if_present k enrolment_df /\
             unique_if_present k facility_df /\
             unique_if_present k teacher_df) ->
  (forall fused,
      snd (merge_datasets profile_df enrolment_df facility_df teacher_df) = Ok fused ->
      len fused = len profile_df) /\
  (forall e,
      snd (merge_datasets profile_df enrolment_df facility_df teacher_df) = Raise e ->
      e = ValueError) /\
  (forall k, first_present possible_keys (columns profile_df) = Some k ->
     same_key_dtype k (dtype_of profile_df k) enrolment_df ->
     same_key_dtype k (dtype_of profile_df k) facility_df ->
     same_key_dtype k (dtype_of profile_df k) teacher_df ->
     NoDup (columns profile_df ++ brought k enrolment_df
            ++ brought k facility_df ++ brought k teacher_df) ->
     exists fused,
       snd (merge_datasets profile_df enrolment_df facility_df teacher_df) = Ok fused /\
       len fused = len profile_df) /\
  (forall k, first_present possible_keys (columns profile_df) = Some k ->
     (skipped k enrolment_df ->
        merge_datasets profile_df enrolment_df facility_df teacher_df =
        merge_datasets profile_df None facility_df teacher_df) /\
     (skipped k facility_df ->
        merge_datasets profile_df enrolment_df facility_df teacher_df =
        merge_datasets profile_df enrolment_df None teacher_df) /\
     (skipped k teacher_df ->
        merge_datasets profile_df enrolment_df facility_df teacher_df =
        merge_datasets profile_df enrolment_df facility_df None)) /\
  snd (merge_datasets profile_df None None None) = Ok profile_df.
Proof.
  intros Huniq.
  assert (Hlen : forall fused,
             snd (merge_datasets profile_df enrolment_df facility_df teacher_df)
             = Ok fused -> len fused = len profile_df).
  { unfold merge_datasets.
    destruct (first_present possible_keys (columns profile_df)) as [k|] eqn:Hk;
      [|now intros fused [= <-]].
    assert (Hin : k ∈ columns profile_df).
    { apply first_present_Some in Hk as (? & ? & _ & H & _). exact H. }
    destruct (Huniq k eq_refl) as (Hue & Huf & Hut).
    destruct (three_joins_spec profile_df enrolment_df facility_df teacher_df k Hin)
      as [Hok _].
    intros fused Hm. destruct (Hok fused Hm) as [_ Hu]. auto. }
  split; [exact Hlen|]. split; [|split; [|split]].
  - unfold merge_datasets.
    destruct (first_present possible_keys (columns profile_df)) as [k|] eqn:Hk;
      [|discriminate].
    assert (Hin : k ∈ columns profile_df).
    { apply first_present_Some in Hk as (? & ? & _ & H & _). exact H. }
    apply (three_joins_spec profile_df enrolment_df facility_df teacher_df k Hin).
  - intros k Hk He Hf Ht Hnd.
    destruct (merge_datasets_accepted _ _ _ _ k Hk He Hf Ht Hnd) as [fused Hm].
    exists fused. split; [exact Hm|now apply Hlen].
  - unfold merge_datasets. intros k Hk. rewrite Hk.
    assert (Hin : k ∈ columns profile_df).
    { apply first_present_Some in Hk as (? & ? & _ & H & _). exact H. }
    split; [|split]; intros Hs; f_equal.
    + destruct (merge_if_present_spec profile_df enrolment_df k "_enrol" Hin)
        as (_ & Hskip & _).
      now rewrite (Hskip Hs).
    + destruct (merge_if_present profile_df enrolment_df k "_enrol") as [m1|]
        eqn:E1; [|reflexivity].
      destruct (merge_if_present_spec profile_df enrolment_df k "_enrol" Hin)
        as (Hok & _).
      destruct (Hok m1 E1) as (Hin1 & _). cbn [rbind].
      destruct (merge_if_present_spec m1 facility_df k "_facility" Hin1)
        as (_ & Hskip & _).
      now rewrite (Hskip Hs).
    + destruct (merge_if_present profile_df enrolment_df k "_enrol") as [m1|]
        eqn:E1; [|reflexivity].
      destruct (merge_if_present_spec profile_df enrolment_df k "_enrol" Hin)
        as (Hok & _).
      destruct (Hok m1 E1) as (Hin1 & _). cbn [rbind].
      destruct (merge_if_present m1 facility_df k "_facility") as [m2|]
        eqn:E2; [|reflexivity].
      destruct (merge_if_present_spec m1 facility_df k "_facility" Hin1)
        as (Hok2 & _).
      destruct (Hok2 m2 E2) as (Hin2 & _). cbn [rbind].
      destruct (merge_if_present_spec m2 teacher_df k "_teacher" Hin2)
        as (_ & Hskip & _).
      now rewrite (Hskip Hs).
  - unfold merge_datasets.
    destruct (first_present possible_keys (columns profile_df)); reflexivity.
Qed.

Lemma merge_datasets_row_count_witness :
  exists fused,
    snd (merge_datasets Examples.schools (Some Examples.unkeyed) None
           (Some Examples.teachers)) = Ok fused /\
    len fused = len Examples.schools.
Proof.
  destruct (merge_datasets_row_count Examples.schools (Some Examples.unkeyed) None
              (Some Examples.teachers)) as (_ & _ & Hreturns & _).
  - intros k Hk. vm_compute in Hk. injection Hk as <-.
    vm_compute. auto.
  - apply (Hreturns "School_Code").
    + reflexivity.
    + intros Hin. exfalso. revert Hin. apply (bool_decide_unpack _).
      vm_compute. exact I.
    + exact I.
    + intros _. reflexivity.
    + apply (bool_decide_unpack _). vm_compute. exact I.
Defined.

(** C2. Join key resolution: the key is the first alias, in the fixed
    order, that is a column of the primary table, and the three guarded
    joins are made on it; when no alias is a column, [merge_datasets]
    prints its warning and returns the primary table unmodified, without
    raising. *)
Theorem merge_key_resolution (profile_df : DataFrame)
    (enrolment_df facility_df teacher_df : option DataFrame) :
  possible_keys =
    ["pseudocode"; "School_Code"; "DISE_Code"; "UDISE_Code";
     "school_code"; "dise_code"; "udise_code"; "udisecode"] /\
  (forall k before after,
      possible_keys = before ++ k :: after ->
      k ∈ columns profile_df ->
      Forall (fun x => x ∉ columns profile_df) before ->
      merge_datasets profile_df enrolment_df facility_df teacher_df =
      ([],
       (m <- merge_if_present profile_df enrolment_df k "_enrol" ;;
        m <- merge_if_present m facility_df k "_facility" ;;
        merge_if_present m teacher_df k "_teacher")%result)) /\
  (Forall (fun x => x ∉ columns profile_df) possible_keys ->
   merge_datasets profile_df enrolment_df facility_df teacher_df =
   ([no_key_warning], Ok profile_df)).
Proof.
  split; [reflexivity|]. split.
  - intros k before after Heq Hin Hbefore.
    assert (Hk : first_present possible_keys (columns profile_df) = Some k).
    { apply first_present_Some. exists before, after.
      rewrite Forall_forall in Hbefore. auto. }
    unfold merge_datasets. rewrite Hk. reflexivity.
  - intros Hnone. rewrite Forall_forall in Hnone.
    apply first_present_None in Hnone.
    unfold merge_datasets. rewrite Hnone. reflexivity.
Qed.

Lemma merge_key_resolution_witness :
  merge_datasets Examples.schools None None (Some Examples.teachers) =
  ([],
   (m <- merge_if_present Examples.schools None "School_Code" "_enrol" ;;
    m <- merge_if_present m None "School_Code" "_facility" ;;
    merge_if_present m (Some Examples.teachers) "School_Code" "_teacher")%result) /\
  merge_datasets Examples.unkeyed None None (Some Examples.teachers) =
  ([no_key_warning], Ok Examples.unkeyed).
Proof.
  destruct (merge_key_resolution Examples.schools None None (Some Examples.teachers))
    as (_ & Hfirst & _).
  destruct (merge_key_resolution Examples.unkeyed None None (Some Examples.teachers))
    as (_ & _ & Hnone).
  split.
  - apply (Hfirst "School_Code" ["pseudocode"]
             ["DISE_Code"; "UDISE_Code"; "school_code"; "dise_code";
              "udise_code"; "udisecode"]).
    + reflexivity.
    + apply (bool_decide_unpack _). vm_compute. exact I.
    + apply (bool_decide_unpack _). vm_compute. exact I.
  - apply Hnone. apply (bool_decide_unpack _). vm_compute. exact I.
Defined.

End merge_datasets_facts.

Section cardinality.

(** C3, as the code has it. [merge_datasets] makes no cardinality check:
    with the key resolved it prints nothing, whatever the keys of the
    secondary tables; it returns the joined table unless pandas refuses
    a join, which is a [ValueError] and no warning about rows, and it
    does return when the labels of the tables are all different, the
    keys apart, and the keys have one dtype. Each join emits every
    accumulated row once per matching row of the secondary table (once,
    padded, when there is none), so the fused table never has fewer rows
    than the primary table and has more when duplicate keys match. *)
Theorem merge_datasets_no_cardinality_check (profile_df : DataFrame)
    (enrolment_df facility_df teacher_df : option DataFrame) (k : string) :
  first_present possible_keys (columns profile_df) = Some k ->
  fst (merge_datasets profile_df enrolment_df facility_df teacher_df) = [] /\
  (forall fused,
      snd (merge_datasets profile_df enrolment_df facility_df teacher_df) = Ok fused ->
      (len profile_df <= len fused)%nat) /\
  (forall e,
      snd (merge_datasets profile_df enrolment_df facility_df teacher_df) = Raise e ->
      e = ValueError) /\
  (same_key_dtype k (dtype_of profile_df k) enrolment_df ->
   same_key_dtype k (dtype_of profile_df k) facility_df ->
   same_key_dtype k (dtype_of profile_df k) teacher_df ->
   NoDup (columns profile_df ++ brought k enrolment_df
          ++ brought k facility_df ++ brought k teacher_df) ->
   exists fused,
     snd (merge_datasets profile_df enrolment_df facility_df teacher_df) = Ok fused) /\
  (forall merged_df other suffix i j joined,
      position k (columns merged_df) = Some i ->
      position k (columns other) = Some j ->
      merge_if_present merged_df (Some other) k suffix = Ok joined ->
      len joined = list_sum (map (emitted i j (rows other)) (rows merged_df))).
Proof.
  intros Hk.
  assert (Hin : k ∈ columns profile_df).
  { apply first_present_Some in Hk as (? & ? & _ & H & _). exact H. }
  destruct (three_joins_spec profile_df enrolment_df facility_df teacher_df k Hin)
    as [Hok Herr].
  split; [unfold merge_datasets; now rewrite Hk|].
  split; [|split; [|split]].
  - unfold merge_datasets. rewrite Hk. cbn [snd].
    intros fused Hm. now apply (Hok fused).
  - unfold merge_datasets. rewrite Hk. exact Herr.
  - now apply merge_datasets_accepted.
  - intros merged_df other suffix i j joined Hi Hj Hm.
    unfold merge_if_present in Hm.
    destruct (decide (k ∈ columns other)) as [_|Hn].
    + now apply merge_len with k suffix.
    + apply position_None in Hn. congruence.
Qed.

Lemma merge_datasets_no_cardinality_check_witness :
  fst (merge_datasets Examples.one_school (Some Examples.enrolment_twice) None None)
  = [] /\
  exists fused,
    snd (merge_datasets Examples.one_school (Some Examples.enrolment_twice)
           None None) = Ok fused.
Proof.
  destruct (merge_datasets_no_cardinality_check Examples.one_school
              (Some Examples.enrolment_twice) None None "School_Code")
    as (Hprint & _ & _ & Hreturns & _).
  - vm_compute. reflexivity.
  - split; [exact Hprint|]. apply Hreturns.
    + intros _. reflexivity.
    + exact I.
    + exact I.
    + apply (bool_decide_unpack _). vm_compute. exact I.
Defined.

(** C3, as stated, fails: an enrolment table that lists a school twice
    doubles its row in the fused table, and nothing is printed. *)
Lemma duplicate_keys_pass_silently :
  unique_key "School_Code" Examples.enrolment_twice = false /\
  ~ surfaces_warning
      (merge_datasets Examples.one_school (Some Examples.enrolment_twice) None None) /\
  exists fused,
    snd (merge_datasets Examples.one_school (Some Examples.enrolment_twice)
           None None) = Ok fused /\
    len Examples.one_school = 1%nat /\ len fused = 2%nat.
Proof.
  split; [reflexivity|]. split.
  - unfold surfaces_warning. vm_compute. auto.
  - eexists. split; [vm_compute; reflexivity|]. split; reflexivity.
Qed.

End cardinality.

(** * [merge_datasets] on objects *)

Section merge_datasets_objects.

Lemma preserved_refl (w : world) : preserved w w.
Proof. intros l _. reflexivity. Qed.

Lemma preserved_trans (w1 w2 w3 : world) :
  preserved w1 w2 -> preserved w2 w3 -> preserved w1 w3.
Proof.
  intros H12 H23 l Hl. rewrite <- (H12 l Hl). apply H23.
  rewrite (H12 l Hl). exact Hl.
Qed.

Lemma fresh_unused (w : world) : heap w !! fresh (dom (heap w)) = None.
Proof. apply not_elem_of_dom. apply is_fresh. Qed.

(** Allocation leaves every object in place. *)
Lemma preserved_alloc (w : world) (df : DataFrame) (out : list string) :
  preserved w
    {| heap := <[fresh (dom (heap w)) := df]> (heap w); stdout := out |}.
Proof.
  intros l Hl. simpl. apply lookup_insert_ne. intros <-.
  rewrite fresh_unused in Hl. now destruct Hl.
Qed.

Lemma df_merge_frame (l r : loc) (on : string) (suffixes : string * string)
    (w : world) :
  preserved w (snd (df_merge l r on suffixes w)) /\
  returns_new_or None w (df_merge l r on suffixes w).
Proof.
  unfold df_merge, bind, deref, lift, returns_new_or.
  destruct (heap w !! l) as [dl|]; simpl;
    [|split; [apply preserved_refl | discriminate]].
  destruct (heap w !! r) as [dr|]; simpl;
    [|split; [apply preserved_refl | discriminate]].
  destruct (merge dl dr on suffixes) as [joined|e]; simpl;
    [|split; [apply preserved_refl | discriminate]].
  split; [apply preserved_alloc|].
  intros r0 [= <-]. right. split; [apply fresh_unused|].
  rewrite lookup_insert_eq. eauto.
Qed.

Lemma merge_if_present_obj_Some (merged_df o : loc) (merge_key suffix : string)
    (w : world) :
  merge_if_present_obj merged_df (Some o) merge_key suffix w =
  match heap w !! o with
  | Some d =>
      if decide (merge_key ∈ columns d)
      then df_merge merged_df o merge_key ("", suffix) w
      else (Ok merged_df, w)
  | None => (Raise AttributeError, w)
  end.
Proof.
  unfold merge_if_present_obj, df_columns, bind, deref, ret.
  destruct (heap w !! o) as [d|]; simpl;
    [destruct (decide (merge_key ∈ columns d))|]; reflexivity.
Qed.

Lemma merge_if_present_obj_frame (merged_df : loc) (other : option loc)
    (merge_key suffix : string) (w : world) :
  preserved w (snd (merge_if_present_obj merged_df other merge_key suffix w)) /\
  returns_new_or (Some merged_df) w
    (merge_if_present_obj merged_df other merge_key suffix w).
Proof.
  destruct other as [o|];
    [|split; [apply preserved_refl | intros r [= <-]; now left]].
  rewrite merge_if_present_obj_Some.
  destruct (heap w !! o) as [d|];
    [|split; [apply preserved_refl | intros r [=]]].
  destruct (decide (merge_key ∈ columns d)).
  - destruct (df_merge_frame merged_df o merge_key ("", suffix) w) as [Hp Hn].
    split; [exact Hp|]. intros r Hr. right.
    destruct (Hn r Hr) as [[=]|H]. exact H.
  - split; [apply preserved_refl | intros r [= <-]; now left].
Qed.

Lemma preserved_None (w w' : world) (r : loc) :
  preserved w w' -> heap w' !! r = None -> heap w !! r = None.
Proof.
  intros Hp Hr. destruct (heap w !! r) as [d|] eqn:E; [|reflexivity].
  assert (H : heap w' !! r = heap w !! r) by (apply Hp; rewrite E; eauto).
  congruence.
Qed.

Lemma merge_if_present_obj_accumulating (w0 w : world) (merged_df : loc)
    (other : option loc) (merge_key suffix : string) :
  accumulating w0 w merged_df ->
  preserved w0 (snd (merge_if_present_obj merged_df other merge_key suffix w)) /\
  forall r, fst (merge_if_present_obj merged_df other merge_key suffix w) = Ok r ->
            accumulating w0 (snd (merge_if_present_obj merged_df other merge_key suffix w)) r.
Proof.
  intros (Hp & Hnew & Hat).
  destruct (merge_if_present_obj_frame merged_df other merge_key suffix w)
    as [Hstep Hret].
  assert (Hp' : preserved w0
                  (snd (merge_if_present_obj merged_df other merge_key suffix w)))
    by (eapply preserved_trans; eauto).
  split; [exact Hp'|]. intros r Hr. split; [exact Hp'|].
  destruct (Hret r Hr) as [[= <-]|[Hnone Hsome]].
  - split; [exact Hnew|]. rewrite (Hstep _ Hat). exact Hat.
  - split; [|exact Hsome]. exact (preserved_None w0 w r Hp Hnone).
Qed.

(** C10. Frame of [merge_datasets]: every table the caller holds, the
    profile, enrolment, facility and teacher tables among them, has the
    same columns and rows after the call; the table returned is a new
    object, a copy of the profile table or the result of a join, never
    one of the arguments. *)
Theorem merge_datasets_inputs_unchanged (w : world) (profile_df : loc)
    (enrolment_df facility_df teacher_df : option loc) :
  (forall l df,
      heap w !! l = Some df ->
      heap (snd (merge_datasets_obj profile_df enrolment_df facility_df teacher_df w)) !! l
      = Some df) /\
  (forall r,
      fst (merge_datasets_obj profile_df enrolment_df facility_df teacher_df w) = Ok r ->
      heap w !! r = None /\
      is_Some (heap (snd (merge_datasets_obj profile_df enrolment_df facility_df
                            teacher_df w)) !! r)).
Proof.
  cut (preserved w (snd (merge_datasets_obj profile_df enrolment_df facility_df
                           teacher_df w)) /\
       forall r,
         fst (merge_datasets_obj profile_df enrolment_df facility_df teacher_df w)
         = Ok r ->
         accumulating w
           (snd (merge_datasets_obj profile_df enrolment_df facility_df teacher_df w)) r).
  { intros [Hp Hr]. split.
    - intros l df Hl. rewrite (Hp l) by (rewrite Hl; eauto). exact Hl.
    - intros r Hok. destruct (Hr r Hok) as (_ & H1 & H2). auto. }
  remember (merge_datasets_obj profile_df enrolment_df facility_df teacher_df w)
    as out eqn:Hout.
  unfold merge_datasets_obj, df_copy, df_columns in Hout.
  unfold bind at 1 in Hout. unfold bind at 1 in Hout. unfold deref at 1 in Hout.
  destruct (heap w !! profile_df) as [P|] eqn:EP;
    [|subst out; split; [apply preserved_refl | intros r [=]]].
  unfold alloc at 1 in Hout.
  set (r0 := fresh (dom (heap w))) in Hout.
  set (w1 := {| heap := <[r0 := P]> (heap w); stdout := stdout w |}) in Hout.
  assert (Hacc : accumulating w w1 r0).
  { split; [apply preserved_alloc|]. split; [apply fresh_unused|].
    simpl. rewrite lookup_insert_eq. eauto. }
  unfold bind at 1 in Hout. unfold bind at 1 in Hout. unfold deref at 1 in Hout.
  assert (EP1 : heap w1 !! profile_df = Some P).
  { destruct Hacc as (Hp & _). rewrite (Hp profile_df) by (rewrite EP; eauto).
    exact EP. }
  rewrite EP1 in Hout. unfold ret at 1 in Hout.
  destruct (first_present possible_keys (columns P)) as [k|].
  - unfold bind at 1 in Hout.
    destruct (merge_if_present_obj_accumulating w w1 r0 enrolment_df k "_enrol" Hacc)
      as [Hp1 Hr1].
    destruct (merge_if_present_obj r0 enrolment_df k "_enrol" w1) as [[r1|e1] w2];
      [|subst out; split; [exact Hp1 | intros r [=]]].
    specialize (Hr1 r1 eq_refl). simpl in Hr1.
    unfold bind at 1 in Hout.
    destruct (merge_if_present_obj_accumulating w w2 r1 facility_df k "_facility" Hr1)
      as [Hp2 Hr2].
    destruct (merge_if_present_obj r1 facility_df k "_facility" w2) as [[r2|e2] w3];
      [|subst out; split; [exact Hp2 | intros r [=]]].
    specialize (Hr2 r2 eq_refl). simpl in Hr2.
    unfold bind at 1 in Hout.
    destruct (merge_if_present_obj_accumulating w w3 r2 teacher_df k "_teacher" Hr2)
      as [Hp3 Hr3].
    destruct (merge_if_present_obj r2 teacher_df k "_teacher" w3) as [[r3|e3] w4];
      [|subst out; split; [exact Hp3 | intros r [=]]].
    specialize (Hr3 r3 eq_refl). simpl in Hr3.
    unfold ret in Hout. subst out. simpl.
    split; [exact Hp3|]. intros r [= <-]. exact Hr3.
  - unfold bind, print, ret in Hout. subst out. simpl.
    destruct Hacc as (Hp & Hnew & Hat).
    split; [exact Hp|]. intros r [= Hr]. subst r.
    split; [exact Hp|]. split; assumption.
Qed.

Lemma merge_datasets_inputs_unchanged_witness :
  heap (snd (merge_datasets_obj 1%nat None None (Some 2%nat) Examples.world0)) !! 1%nat
  = Some Examples.schools /\
  heap (snd (merge_datasets_obj 1%nat None None (Some 2%nat) Examples.world0)) !! 2%nat
  = Some Examples.teachers.
Proof.
  split.
  - apply (proj1 (merge_datasets_inputs_unchanged Examples.world0 1%nat None None
                    (Some 2%nat))).
    vm_compute. reflexivity.
  - apply (proj1 (merge_datasets_inputs_unchanged Examples.world0 1%nat None None
                    (Some 2%nat))).
    vm_compute. reflexivity.
Defined.

Lemma refers_preserved (w w' : world) (o : option loc) (t : option DataFrame) :
  preserved w w' -> refers w o t -> refers w' o t.
Proof.
  intros Hp. destruct o as [l|], t as [d|]; simpl; auto.
  intros Hl. rewrite (Hp l) by (rewrite Hl; eauto). exact Hl.
Qed.

Lemma merge_if_present_obj_refines (w : world) (merged_df : loc)
    (other : option loc) (merge_key suffix : string)
    (merged : DataFrame) (other_table : option DataFrame) :
  heap w !! merged_df = Some merged ->
  refers w other other_table ->
  match merge_if_present merged other_table merge_key suffix with
  | Ok joined =>
      exists r w',
        merge_if_present_obj merged_df other merge_key suffix w = (Ok r, w') /\
        heap w' !! r = Some joined /\
        preserved w w' /\ stdout w' = stdout w
  | Raise e =>
      merge_if_present_obj merged_df other merge_key suffix w = (Raise e, w)
  end.
Proof.
  intros Hm Ho.
  destruct other as [o|], other_table as [d|]; simpl in Ho; try contradiction.
  - rewrite merge_if_present_obj_Some, Ho.
    unfold merge_if_present.
    destruct (decide (merge_key ∈ columns d)) as [Hin|Hnin].
    + unfold df_merge, bind, deref, lift. rewrite Hm, Ho.
      destruct (merge merged d merge_key ("", suffix)) as [joined|err];
        [|reflexivity].
      eexists _, _. split; [reflexivity|].
      simpl. rewrite lookup_insert_eq.
      repeat split; auto using preserved_alloc.
    + exists merged_df, w. repeat split; auto using preserved_refl.
  - simpl. exists merged_df, w. repeat split; auto using preserved_refl.
Qed.

(** The run on objects computes the run on values: it returns a
    reference to the fused table of [merge_datasets] and prints its
    lines, or raises what the run on values raises. *)
Lemma merge_datasets_obj_refines (w : world) (profile_df : loc)
    (enrolment_df facility_df teacher_df : option loc)
    (P : DataFrame) (E F T : option DataFrame) :
  heap w !! profile_df = Some P ->
  refers w enrolment_df E -> refers w facility_df F -> refers w teacher_df T ->
  match snd (merge_datasets P E F T) with
  | Ok fused =>
      exists r w',
        merge_datasets_obj profile_df enrolment_df facility_df teacher_df w
        = (Ok r, w') /\
        heap w' !! r = Some fused /\
        stdout w' = stdout w ++ fst (merge_datasets P E F T)
  | Raise e =>
      exists w',
        merge_datasets_obj profile_df enrolment_df facility_df teacher_df w
        = (Raise e, w') /\
        stdout w' = stdout w
  end.
Proof.
  intros HP HE HF HT.
  remember (merge_datasets_obj profile_df enrolment_df facility_df teacher_df w)
    as out eqn:Hout.
  unfold merge_datasets_obj, df_copy, df_columns in Hout.
  unfold bind at 1 in Hout. unfold bind at 1 in Hout. unfold deref at 1 in Hout.
  rewrite HP in Hout. unfold alloc at 1 in Hout.
  set (r0 := fresh (dom (heap w))) in Hout.
  set (w1 := {| heap := <[r0 := P]> (heap w); stdout := stdout w |}) in Hout.
  assert (Hp1 : preserved w w1) by apply preserved_alloc.
  assert (Hr0 : heap w1 !! r0 = Some P) by (simpl; apply lookup_insert_eq).
  unfold bind at 1 in Hout. unfold bind at 1 in Hout. unfold deref at 1 in Hout.
  rewrite (Hp1 profile_df) in Hout by (rewrite HP; eauto).
  rewrite HP in Hout. unfold ret at 1 in Hout.
  unfold merge_datasets.
  destruct (first_present possible_keys (columns P)) as [k|] eqn:Hk.
  - cbn [snd fst]. unfold bind at 1 in Hout.
    pose proof (merge_if_present_obj_refines w1 r0 enrolment_df k "_enrol" P E Hr0
                  (refers_preserved _ _ _ _ Hp1 HE)) as R1.
    destruct (merge_if_present P E k "_enrol") as [m1|e1]; cbn [rbind].
    2:{ rewrite R1 in Hout. exists w1. subst out. split; reflexivity. }
    destruct R1 as (r1 & w2 & R1 & H1 & Hp2 & Hs2).
    rewrite R1 in Hout. unfold bind at 1 in Hout.
    pose proof (preserved_trans _ _ _ Hp1 Hp2) as Hp12.
    pose proof (merge_if_present_obj_refines w2 r1 facility_df k "_facility" m1 F H1
                  (refers_preserved _ _ _ _ Hp12 HF)) as R2.
    destruct (merge_if_present m1 F k "_facility") as [m2|e2]; cbn [rbind].
    2:{ rewrite R2 in Hout. exists w2. subst out. split; [reflexivity|exact Hs2]. }
    destruct R2 as (r2 & w3 & R2 & H2 & Hp3 & Hs3).
    rewrite R2 in Hout. unfold bind at 1 in Hout.
    pose proof (preserved_trans _ _ _ Hp12 Hp3) as Hp13.
    pose proof (merge_if_present_obj_refines w3 r2 teacher_df k "_teacher" m2 T H2
                  (refers_preserved _ _ _ _ Hp13 HT)) as R3.
    destruct (merge_if_present m2 T k "_teacher") as [m3|e3].
    2:{ rewrite R3 in Hout. exists w3. subst out.
        split; [reflexivity|]. now rewrite Hs3, Hs2. }
    destruct R3 as (r3 & w4 & R3 & H3 & Hp4 & Hs4).
    rewrite R3 in Hout. unfold ret in Hout.
    exists r3, w4. subst out. split; [reflexivity|]. split; [exact H3|].
    rewrite Hs4, Hs3, Hs2. simpl. now rewrite app_nil_r.
  - unfold bind, print, ret in Hout. simpl in Hout. subst out.
    eexists r0, _. split; [reflexivity|].
    split; [exact Hr0 | reflexivity].
Qed.

End merge_datasets_objects.

(** * Facts about counting *)

Section dedup_facts.

Context {A : Type} (eqb : A -> A -> bool).
Hypothesis eqb_refl : forall a, eqb a a = true.
Hypothesis eqb_sym : forall a b, eqb a b = eqb b a.
Hypothesis eqb_trans : forall a b c, eqb a b = true -> eqb b c = true -> eqb a c = true.

Lemma filter_filter_implied (f g : A -> bool) (l : list A) :
  (forall y, f y = true -> g y = true) ->
  List.filter f (List.filter g l) = List.filter f l.
Proof.
  intros H. induction l as [|x l IH]; simpl; auto.
  destruct (g x) eqn:G; simpl.
  - destruct (f x); now rewrite IH.
  - destruct (f x) eqn:F; [|exact IH]. apply H in F. congruence.
Qed.

Lemma dedup_In (x : A) (l : list A) : In x (dedup eqb l) -> In x l.
Proof.
  induction l as [|y l IH]; simpl; auto.
  intros [->|H]; auto. apply filter_In in H as [H _]. auto.
Qed.

Lemma dedup_once (v : A) (l : list A) :
  length (List.filter (eqb v) (dedup eqb l)) =
  if existsb (eqb v) l then 1%nat else 0%nat.
Proof.
  induction l as [|x l IH]; simpl; auto.
  destruct (eqb v x) eqn:E; simpl.
  - rewrite filter_none; [reflexivity|].
    apply not_true_iff_false. intros Ex.
    apply existsb_exists in Ex as (y & Hy & Hvy).
    apply filter_In in Hy as [_ Hxy]. apply negb_true_iff in Hxy.
    assert (eqb x y = true).
    { apply eqb_trans with v; [|exact Hvy]. now rewrite eqb_sym. }
    congruence.
  - rewrite filter_filter_implied; [exact IH|].
    intros y Hvy. apply negb_true_iff.
    destruct (eqb x y) eqn:Exy; [|reflexivity].
    assert (eqb v x = true).
    { apply eqb_trans with y; [exact Hvy|]. now rewrite eqb_sym. }
    congruence.
Qed.

Lemma filter_In_pos (v : A) (l : list A) :
  In v l -> (0 < length (List.filter (eqb v) l))%nat.
Proof.
  induction l as [|x l IH]; simpl; [tauto|].
  intros [->|H].
  - rewrite eqb_refl. simpl. lia.
  - destruct (eqb v x); simpl; auto with arith.
Qed.

End dedup_facts.

Lemma filter_length_Permutation {A} (f : A -> bool) (l l' : list A) :
  Permutation l l' ->
  length (List.filter f l) = length (List.filter f l').
Proof.
  induction 1; simpl; auto.
  - destruct (f x); simpl; auto.
  - destruct (f x), (f y); simpl; auto.
  - congruence.
Qed.

Lemma filter_map_fst (v : cell) (g : cell -> nat) (l : list cell) :
  List.filter (fun e : cell * nat => cell_eqb v (fst e)) (map (fun x => (x, g x)) l) =
  map (fun x => (x, g x)) (List.filter (cell_eqb v) l).
Proof.
  induction l as [|x l IH]; simpl; auto.
  destruct (cell_eqb v x); simpl; now rewrite IH.
Qed.

Lemma eqb_present (v y : cell) :
  is_missing v = false -> cell_eqb v y = true -> negb (is_missing y) = true.
Proof. destruct v, y; simpl; congruence. Qed.

Lemma frequency_present (v : cell) (cs : list cell) :
  is_missing v = false ->
  frequency v (List.filter (fun c => negb (is_missing c)) cs) = frequency v cs.
Proof.
  intros Hv. unfold frequency. f_equal.
  apply filter_filter_implied. intros y. now apply eqb_present.
Qed.

Lemma existsb_present (v : cell) (cs : list cell) :
  is_missing v = false ->
  existsb (cell_eqb v) (List.filter (fun c => negb (is_missing c)) cs) =
  existsb (cell_eqb v) cs.
Proof.
  intros Hv. induction cs as [|c cs IH]; simpl; auto.
  destruct (is_missing c) eqn:Hc; simpl.
  - rewrite IH. destruct v, c; simpl in *; try discriminate; reflexivity.
  - now rewrite IH.
Qed.

(** [value_counts] computes the frequency table of the column. *)
Lemma value_counts_frequency_table (cs : list cell) :
  frequency_table cs (value_counts cs).
Proof.
  unfold value_counts.
  set (present := List.filter (fun c => negb (is_missing c)) cs).
  set (entries := map (fun v => (v, frequency v present)) (dedup cell_eqb present)).
  pose proof (merge_sort_Permutation more_frequent entries) as Hperm.
  split.
  - intros e He. rewrite Hperm in He.
    apply list_elem_of_In, in_map_iff in He as (v & <- & Hv). simpl.
    apply dedup_In in Hv.
    assert (Hpres : is_missing v = false).
    { apply filter_In in Hv as [_ H]. now apply negb_true_iff in H. }
    split; [exact Hpres|]. split.
    + now apply frequency_present.
    + apply filter_In_pos; [apply cell_eqb_refl | exact Hv].
  - intros v Hv.
    rewrite (filter_length_Permutation _ _ _ Hperm).
    unfold entries. rewrite filter_map_fst, length_map.
    rewrite (dedup_once cell_eqb cell_eqb_sym cell_eqb_trans).
    unfold present. now rewrite existsb_present.
Qed.

(** * [analyze_facility_availability] *)

Section facility_facts.

Lemma of_nat_pos (t : nat) : (0 < t)%nat -> (0 < of_nat t)%Q.
Proof.
  intros H. unfold of_nat. change 0%Q with (inject_Z 0). rewrite <- Zlt_Qlt. lia.
Qed.

Lemma of_nat_le (a t : nat) : (a <= t)%nat -> (of_nat a <= of_nat t)%Q.
Proof. intros H. unfold of_nat. rewrite <- Zle_Qle. lia. Qed.

Lemma percentage_range (a t : nat) :
  (a <= t)%nat -> (0 < t)%nat ->
  (0 <= of_nat a / of_nat t * 100)%Q /\ (of_nat a / of_nat t * 100 <= 100)%Q.
Proof.
  intros Hle Hpos. pose proof (of_nat_pos t Hpos) as Ht.
  assert (H0 : (0 <= of_nat a / of_nat t)%Q).
  { apply Qle_shift_div_l; [exact Ht|]. rewrite Qmult_0_l.
    change 0%Q with (of_nat 0). apply of_nat_le. lia. }
  assert (H1 : (of_nat a / of_nat t <= 1)%Q).
  { apply Qle_shift_div_r; [exact Ht|]. rewrite Qmult_1_l. now apply of_nat_le. }
  split.
  - apply Qmult_le_0_compat; [exact H0 | discriminate].
  - change (100 : Q)%Q with (1 * 100)%Q at 2.
    apply Qmult_le_compat_r; [exact H1 | discriminate].
Qed.

Lemma getitem_Ok (df : DataFrame) (col : string) :
  col ∈ columns df ->
  exists s, getitem df col = Ok s /\ length (values s) = len df.
Proof.
  intros H. destruct (position_Some_elem _ _ H) as [i Hi].
  unfold getitem. rewrite Hi. eexists. split; [reflexivity|].
  simpl. apply length_map.
Qed.

Lemma count_positive_le (cs : list cell) : (count_positive cs <= length cs)%nat.
Proof.
  unfold count_positive. induction cs as [|c cs IH]; simpl; [lia|].
  destruct c as [q| |]; simpl; try lia.
  destruct (negb (Qle_bool q 0)); simpl; lia.
Qed.

(** The percentage of every availability entry lies in [0,100] and is 0
    for a table without rows. *)
Lemma facility_entry_range (df : DataFrame) (s : Series) (available : nat) (pct : Q) :
  length (values s) = len df ->
  facility_entry df s = Availability available pct ->
  (0 <= pct)%Q /\ (pct <= 100)%Q /\ (len df = 0%nat -> pct = 0%Q).
Proof.
  intros Hlen. unfold facility_entry.
  destruct (decide (sdtype s ∈ [object; string_dtype])) as [|_]; [discriminate|].
  intros [= <- <-].
  destruct (len df) as [|m] eqn:En; simpl.
  - repeat split; discriminate.
  - assert (Hle : ((if decide (sdtype s ∈ [int64; float64])
                    then count_positive (values s) else 0) <= S m)%nat).
    { destruct (decide (sdtype s ∈ [int64; float64])); [|lia].
      rewrite <- Hlen. apply count_positive_le. }
    destruct (percentage_range _ (S m) Hle ltac:(lia)) as [H0 H100].
    repeat split; [exact H0 | exact H100 | discriminate].
Qed.

Lemma facility_loop_spec (df : DataFrame) (facility_cols : list string)
    (facility_analysis : gmap string facility_report) :
  Forall (fun c => c ∈ columns df) facility_cols ->
  exists report,
    facility_loop df facility_cols facility_analysis = Ok report /\
    forall c s, getitem df c = Ok s ->
      report !! c =
      if decide (c ∈ facility_cols) then Some (facility_entry df s)
      else facility_analysis !! c.
Proof.
  revert facility_analysis.
  induction facility_cols as [|col rest IH]; intros acc Hall.
  - exists acc. split; [reflexivity|]. intros c s _.
    destruct (decide (c ∈ [])) as [H|_]; [inversion H | reflexivity].
  - apply Forall_cons in Hall as [Hcol Hrest].
    destruct (getitem_Ok df col Hcol) as (s0 & Hs0 & _).
    destruct (IH (<[col := facility_entry df s0]> acc) Hrest) as (report & Hrun & Hget).
    exists report. split; [simpl; rewrite Hs0; exact Hrun|].
    intros c s Hs. rewrite (Hget c s Hs).
    destruct (decide (c ∈ rest)) as [Hin|Hnin].
    + rewrite decide_True by (now right). reflexivity.
    + destruct (decide (c = col)) as [->|Hne].
      * rewrite decide_True by left. rewrite lookup_insert_eq. congruence.
      * rewrite decide_False by (intros H; apply elem_of_cons in H as [?|?]; auto).
        now apply lookup_insert_ne.
Qed.

Lemma facility_columns_are_columns (df : DataFrame) :
  Forall (fun c => c ∈ columns df) (facility_columns df).
Proof.
  apply Forall_forall. intros c Hc. unfold facility_columns in Hc.
  apply list_elem_of_In, filter_In in Hc as [Hc _]. now apply list_elem_of_In.
Qed.

(** C6, as the code has it. Facility coverage: for every facility
    column of the table the report holds, when the dtype of the column
    is object or string, the frequency table of its values; when it is
    int64 or float64, the number of rows with a value above 0 and that
    number as a percentage of the rows; and for a column of any other
    dtype, numeric or not, available = 0 and percentage 0. A percentage
    is always between 0 and 100 and is 0 for a table without rows. The
    int64 column [0,0,5,3] gives available = 2 and percentage = 50. *)
Theorem facility_report_by_dtype (df : DataFrame) (col : string) :
  col ∈ facility_columns df ->
  exists report s,
    analyze_facility_availability (Some df) None = Ok (Some report) /\
    getitem df col = Ok s /\
    (sdtype s ∈ [object; string_dtype] ->
       report !! col = Some (Counts (value_counts (values s))) /\
       frequency_table (values s) (value_counts (values s))) /\
    (sdtype s ∈ [int64; float64] ->
       exists pct,
         report !! col = Some (Availability (count_positive (values s)) pct) /\
         ((0 < len df)%nat ->
            pct = (of_nat (count_positive (values s)) / of_nat (len df) * 100)%Q)) /\
    (sdtype s ∉ [object; string_dtype] -> sdtype s ∉ [int64; float64] ->
       exists pct,
         report !! col = Some (Availability 0 pct) /\ (pct == 0)%Q) /\
    (forall available pct,
       report !! col = Some (Availability available pct) ->
       (0 <= pct)%Q /\ (pct <= 100)%Q /\ (len df = 0%nat -> pct = 0%Q)) /\
    (exists example pct,
       analyze_facility_availability (Some Examples.toilets) None = Ok (Some example) /\
       example !! "Toilet" = Some (Availability 2 pct) /\ (pct == 50)%Q).
Proof.
  intros Hcol.
  destruct (facility_loop_spec df (facility_columns df) ∅
              (facility_columns_are_columns df)) as (report & Hrun & Hget).
  assert (Hin : col ∈ columns df).
  { pose proof (facility_columns_are_columns df) as H.
    rewrite Forall_forall in H. auto. }
  destruct (getitem_Ok df col Hin) as (s & Hs & Hlen).
  exists report, s. split; [simpl; rewrite Hrun; reflexivity|].
  split; [exact Hs|].
  assert (Hentry : report !! col = Some (facility_entry df s)).
  { rewrite (Hget col s Hs). now rewrite decide_True. }
  split; [|split; [|split; [|split]]].
  - intros Hcat. split; [|apply value_counts_frequency_table].
    rewrite Hentry. unfold facility_entry. now rewrite decide_True.
  - intros Hnum. rewrite Hentry. unfold facility_entry.
    assert (Hnot : sdtype s ∉ [object; string_dtype]).
    { intros Hc. destruct (sdtype s); compute in Hnum, Hc;
        repeat (apply elem_of_cons in Hnum as [Hnum|Hnum]; try discriminate);
        repeat (apply elem_of_cons in Hc as [Hc|Hc]; try discriminate);
        try inversion Hnum; try inversion Hc. }
    rewrite decide_False by exact Hnot. rewrite decide_True by exact Hnum.
    eexists. split; [reflexivity|]. intros Hpos.
    apply Nat.ltb_lt in Hpos. now rewrite Hpos.
  - intros Hnot Hother. rewrite Hentry. unfold facility_entry.
    rewrite decide_False by exact Hnot. rewrite decide_False by exact Hother.
    eexists. split; [reflexivity|].
    destruct (0 <? len df)%nat; [|reflexivity].
    change (of_nat 0) with 0%Q. unfold Qdiv. now rewrite !Qmult_0_l.
  - intros available pct Hav. rewrite Hentry in Hav. injection Hav as Hav.
    now apply facility_entry_range with s available.
  - eexists _, _. split; [vm_compute; reflexivity|].
    split; [vm_compute; reflexivity | reflexivity].
Qed.

(** C6, as stated, fails: a facility column of 32-bit integers is
    numeric and holds a value above 0 in both rows, and the report
    gives available = 0 and percentage 0. *)
Lemma int32_flags_are_not_counted :
  "Toilet" ∈ facility_columns Examples.toilets_int32 /\
  getitem Examples.toilets_int32 "Toilet"
  = Ok {| sdtype := int32; values := [Examples.num 1; Examples.num 2] |} /\
  count_positive [Examples.num 1; Examples.num 2] = 2%nat /\
  exists report pct,
    analyze_facility_availability (Some Examples.toilets_int32) None
    = Ok (Some report) /\
    report !! "Toilet" = Some (Availability 0 pct) /\ (pct == 0)%Q.
Proof.
  split; [apply (bool_decide_unpack _); vm_compute; exact I|].
  split; [reflexivity|]. split; [reflexivity|].
  eexists _, _. split; [vm_compute; reflexivity|].
  split; [vm_compute; reflexivity|reflexivity].
Qed.

(** Every facility column has an entry in the report. *)
Lemma facility_report_columns (df : DataFrame) (col : string) :
  col ∈ facility_columns df ->
  exists report,
    analyze_facility_availability (Some df) None = Ok (Some report) /\
    is_Some (report !! col).
Proof.
  intros Hcol.
  destruct (facility_loop_spec df (facility_columns df) ∅
              (facility_columns_are_columns df)) as (report & Hrun & Hget).
  assert (Hin : col ∈ columns df).
  { pose proof (facility_columns_are_columns df) as H.
    rewrite Forall_forall in H. auto. }
  destruct (getitem_Ok df col Hin) as (s & Hs & _).
  exists report. split; [simpl; rewrite Hrun; reflexivity|].
  rewrite (Hget col s Hs). rewrite decide_True by exact Hcol. eauto.
Qed.

Lemma facility_report_by_dtype_witness :
  exists report s,
    analyze_facility_availability (Some Examples.toilets) None = Ok (Some report) /\
    getitem Examples.toilets "Toilet" = Ok s.
Proof.
  destruct (facility_report_by_dtype Examples.toilets "Toilet")
    as (report & s & Hrun & Hs & _).
  - apply (bool_decide_unpack _). vm_compute. exact I.
  - exists report, s. split; assumption.
Defined.

End facility_facts.

(** * Sums *)

Section sum_facts.

Lemma sum_cells_value (cs : list cell) (q : Q) :
  sum_cells cs = Ok q -> q = Qsum (map cell_value cs).
Proof.
  revert q. induction cs as [|c cs IH]; simpl; intros q.
  - now intros [= <-].
  - destruct c as [x|s|]; simpl; try discriminate;
      destruct (sum_cells cs) as [s'|]; simpl; try discriminate;
      intros [= <-]; now rewrite (IH s' eq_refl).
Qed.

Lemma Qsum_nonneg {C} (f : C -> Q) (l : list C) :
  (forall c, 0 <= f c)%Q -> (0 <= Qsum (map f l))%Q.
Proof.
  intros Hf. induction l as [|c l IH]; simpl; [apply Qle_refl|].
  rewrite <- (Qplus_0_l 0). apply Qplus_le_compat; [apply Hf|exact IH].
Qed.

Lemma Qabs_Qsum {C} (f : C -> Q) (l : list C) :
  (Qabs (Qsum (map f l)) <= Qsum (map (fun c => Qabs (f c)) l))%Q.
Proof.
  induction l as [|c l IH]; simpl; [apply Qle_refl|].
  eapply Qle_trans; [apply Qabs_triangle|].
  apply Qplus_le_compat; [apply Qle_refl|exact IH].
Qed.

Lemma Qsum_filter_le {C} (f : C -> Q) (p : C -> bool) (l : list C) :
  (forall c, 0 <= f c)%Q ->
  (Qsum (map f (List.filter p l)) <= Qsum (map f l))%Q.
Proof.
  intros Hf. induction l as [|c l IH]; simpl; [apply Qle_refl|].
  destruct (p c); simpl.
  - apply Qplus_le_compat; [apply Qle_refl|exact IH].
  - rewrite <- (Qplus_0_l (Qsum (map f (List.filter p l)))).
    apply Qplus_le_compat; [apply Hf|exact IH].
Qed.

(** A sum whose absolute value stays below 2^63 does not wrap. *)
Lemma wrap_int64_bounded (q m : Q) :
  (Qabs q <= m)%Q -> (m < two_63)%Q -> wrap_int64 q = q.
Proof.
  intros Hq Hm. apply Qabs_Qle_condition in Hq as [Hlow Hhigh].
  unfold wrap_int64, in_int64.
  assert (H1 : Qle_bool (- two_63) q = true).
  { apply Qle_bool_iff. eapply Qle_trans; [|exact Hlow].
    apply Qopp_le_compat. now apply Qlt_le_weak. }
  assert (H2 : Qle_bool two_63 q = false).
  { apply not_true_is_false. intros H. apply Qle_bool_iff in H.
    apply (Qlt_irrefl two_63). eapply Qle_lt_trans; [exact H|].
    eapply Qle_lt_trans; [exact Hhigh|exact Hm]. }
  now rewrite H1, H2.
Qed.

Lemma reduced_bounded (d : dtype) (q m : Q) :
  (Qabs q <= m)%Q ->
  (is_integer_dtype d = true -> (m < two_63)%Q) ->
  reduced d q = q.
Proof.
  intros Hq Hm. unfold reduced.
  destruct (is_integer_dtype d); [|reflexivity].
  apply (wrap_int64_bounded q m Hq). now apply Hm.
Qed.

(** The sum of the cells of a column over some of the rows. *)
Lemma column_sum_cells (df : DataFrame) (group : list (list cell))
    (col : string) (p : nat) :
  position col (columns df) = Some p ->
  column_sum df group col
  = (x <- sum_cells (map (cell_at p) group) ;;
     Ok (reduced (dtype_of df col) x))%result.
Proof.
  intros Hp. unfold column_sum, series_sum, getitem, dtype_of, columns in *.
  simpl. rewrite Hp. reflexivity.
Qed.

Lemma sums_fit_one (df : DataFrame) (col : string) (i : nat) :
  sums_fit df [col] ->
  position col (columns df) = Some i ->
  is_integer_dtype (dtype_of df col) = true ->
  (Qsum (map (fun row => Qabs (cell_value (cell_at i row))) (rows df)) < two_63)%Q.
Proof.
  intros Hfit Hi Hint. unfold sums_fit in Hfit. simpl in Hfit.
  rewrite Hint in Hfit. specialize (Hfit eq_refl).
  unfold columns_magnitude, column_magnitude in Hfit. simpl in Hfit.
  rewrite Hi in Hfit. now rewrite Qplus_0_r in Hfit.
Qed.

(** The sum of a column that fits, over some of the rows, is exact. *)
Lemma column_sum_exact (df : DataFrame) (group : list (list cell))
    (col : string) (i : nat) (p : list cell -> bool) (q : Q) :
  position col (columns df) = Some i ->
  sums_fit df [col] ->
  group = List.filter p (rows df) ->
  column_sum df group col = Ok q ->
  q = Qsum (map (fun row => cell_value (cell_at i row)) group).
Proof.
  intros Hi Hfit -> Hsum. rewrite (column_sum_cells _ _ _ _ Hi) in Hsum.
  destruct (sum_cells (map (cell_at i) (List.filter p (rows df)))) as [x|] eqn:Hx;
    simpl in Hsum; [|discriminate].
  injection Hsum as <-. apply sum_cells_value in Hx. rewrite map_map in Hx.
  subst x. apply reduced_bounded with
    (m := Qsum (map (fun row => Qabs (cell_value (cell_at i row))) (rows df))).
  - eapply Qle_trans; [apply Qabs_Qsum|].
    apply (Qsum_filter_le (fun row => Qabs (cell_value (cell_at i row)))).
    intros row. apply Qabs_nonneg.
  - intros Hint. now apply sums_fit_one with col.
Qed.

End sum_facts.

(** * [calculate_teacher_student_ratio] *)

Section ratio_facts.

Lemma sum_cells_Ok (cs : list cell) :
  Forall not_text cs -> exists q, sum_cells cs = Ok q.
Proof.
  induction 1 as [|c cs Hc _ [q IH]]; simpl; [eauto|].
  rewrite IH. destruct c; simpl in *; [eauto | contradiction | eauto].
Qed.

Lemma traverse_Ok {A B} (f : A -> result B) (l : list A) :
  Forall (fun a => exists b, f a = Ok b) l ->
  exists bs, traverse f l = Ok bs /\ Forall2 (fun a b => f a = Ok b) l bs.
Proof.
  induction 1 as [|a l [b Hb] _ (bs & Hbs & Hall)]; simpl.
  - exists []. split; [reflexivity | constructor].
  - exists (b :: bs). rewrite Hb, Hbs. split; [reflexivity|].
    constructor; assumption.
Qed.

Lemma text_free_rows (df : DataFrame) (col : string) (i : nat) :
  position col (columns df) = Some i ->
  text_free df col = true ->
  Forall (fun row => not_text (cell_at i row)) (rows df).
Proof.
  intros Hi Ht. unfold text_free in Ht. rewrite Hi in Ht.
  apply Forall_forall. intros row Hrow.
  rewrite forallb_forall in Ht. apply list_elem_of_In in Hrow.
  specialize (Ht row Hrow). destruct (cell_at i row); simpl; auto. discriminate.
Qed.



Lemma filter_elem {A} (f : A -> bool) (x : A) (l : list A) :
  x ∈ List.filter f l -> x ∈ l.
Proof. intros H. apply list_elem_of_In, filter_In in H as [H _]. now apply list_elem_of_In. Qed.


Lemma traverse_Forall2 {A B} (f : A -> result B) (l : list A) (bs : list B) :
  traverse f l = Ok bs -> Forall2 (fun a b => f a = Ok b) l bs.
Proof.
  revert bs. induction l as [|a l IH]; simpl; intros bs.
  - intros [= <-]. constructor.
  - destruct (f a) as [b|] eqn:Hb; simpl; [|discriminate].
    destruct (traverse f l) as [bs'|]; simpl; [|discriminate].
    intros [= <-]. constructor; auto.
Qed.

End ratio_facts.

(** * [calculate_enrolment_metrics] *)

Section enrolment_facts.

Lemma series_sum_Ok (df : DataFrame) (col : string) :
  col ∈ columns df ->
  text_free df col = true ->
  exists s q,
    getitem df col = Ok s /\ series_sum s = Ok q /\
    sum_cells (values s) = Ok (Qsum (map cell_value (values s))) /\
    q = reduced (sdtype s) (Qsum (map cell_value (values s))).
Proof.
  intros Hcol Ht. destruct (position_Some_elem _ _ Hcol) as [i Hi].
  unfold getitem. rewrite Hi. eexists.
  destruct (sum_cells_Ok (map (cell_at i) (rows df))) as [q Hq].
  - apply Forall_map. exact (text_free_rows df col i Hi Ht).
  - pose proof (sum_cells_value _ _ Hq) as Hv.
    eexists. split; [reflexivity|]. unfold series_sum. cbn [values sdtype].
    rewrite Hq. cbn [rbind]. split; [reflexivity|]. split; [now rewrite <- Hv|].
    now rewrite <- Hv.
Qed.

Lemma positions_Ok (cols all : list string) :
  Forall (fun c => c ∈ all) cols -> exists ps, positions cols all = Ok ps.
Proof.
  intros H. unfold positions.
  destruct (traverse_Ok
              (fun c => match position c all with
                        | Some i => Ok i
                        | None => Raise (KeyError c)
                        end) cols) as (ps & Hps & _); [|eauto].
  eapply Forall_impl; [exact H|]. intros c Hc. simpl.
  destruct (position_Some_elem _ _ Hc) as [i Hi]. rewrite Hi. eauto.
Qed.

(** Counting the rows of the groups raises only for a label that is not
    a column. *)
Lemma groupby_size_Ok (df : DataFrame) (labels : list string) :
  Forall (fun c => c ∈ columns df) labels ->
  exists sizes, groupby_size df labels = Ok sizes.
Proof.
  intros H. destruct (positions_Ok _ _ H) as [ps Hps].
  unfold groupby_size, groupby. rewrite Hps. simpl. eauto.
Qed.

(** The index of the specification over one girls and one boys column. *)
Lemma gender_parity_spec_single (df : DataFrame) (girls boys : string)
    (girls_series boys_series : Series) :
  List.filter is_girls (gender_columns df) = [girls] ->
  List.filter is_boys (gender_columns df) = [boys] ->
  getitem df girls = Ok girls_series ->
  getitem df boys = Ok boys_series ->
  sum_cells (values girls_series)
  = Ok (Qsum (map cell_value (values girls_series))) ->
  sum_cells (values boys_series)
  = Ok (Qsum (map cell_value (values boys_series))) ->
  exists index,
    gender_parity_spec df = Ok index /\
    (index == Qsum (map cell_value (values girls_series))
              / (Qsum (map cell_value (values boys_series)) + eps))%Q.
Proof.
  intros Hgirls Hboys Hg Hb Hsg Hsb.
  unfold gender_parity_spec, exact_total. rewrite Hgirls, Hboys.
  cbn [traverse]. rewrite Hg, Hb. cbn [rbind]. rewrite Hsg, Hsb. cbn [rbind].
  eexists. split; [reflexivity|]. cbn [Qsum]. now rewrite !Qplus_0_r.
Qed.

(** C4, as the code has it. With at least two gender columns, of which
    exactly one is a girls column and exactly one a boys column, both
    free of text, [calculate_enrolment_metrics] returns one global
    number, gender_parity_index = sum(girls) / (sum(boys) + 1e-10), where
    the sum of an integer column is taken in 64-bit integers and wraps
    around; when the two sums fit, this is the index of the
    specification. Every other entry of the result is a table of row
    counts, so no index per state is computed. For Girls_Enrolled =
    [10,20] and Boys_Enrolled = [10,20] the index is within 1e-10 of 1. *)
Theorem gender_parity_index_single_columns (df : DataFrame)
    (girls boys state_col district_col : string) :
  (2 <= length (gender_columns df))%nat ->
  List.filter is_girls (gender_columns df) = [girls] ->
  List.filter is_boys (gender_columns df) = [boys] ->
  text_free df girls = true ->
  text_free df boys = true ->
  (district_col ∈ columns df -> state_col ∈ columns df) ->
  (exists metrics girls_series boys_series girls_sum boys_sum,
      calculate_enrolment_metrics (Some df) state_col district_col None
      = Ok (Some metrics) /\
      getitem df girls = Ok girls_series /\
      getitem df boys = Ok boys_series /\
      girls_sum = reduced (sdtype girls_series)
                    (Qsum (map cell_value (values girls_series))) /\
      boys_sum = reduced (sdtype boys_series)
                   (Qsum (map cell_value (values boys_series))) /\
      metrics !! "gender_parity_index"
      = Some (Ratio (Scalar (girls_sum / (boys_sum + eps))%Q)) /\
      (sums_fit df [girls] -> sums_fit df [boys] ->
       exists index,
         gender_parity_spec df = Ok index /\
         (index == girls_sum / (boys_sum + eps))%Q) /\
      (forall key v, metrics !! key = Some v -> key <> "gender_parity_index" ->
                     exists sizes, v = Sizes sizes)) /\
  (exists example index,
      calculate_enrolment_metrics (Some Examples.parity) "State" "District" None
      = Ok (Some example) /\
      example !! "gender_parity_index" = Some (Ratio (Scalar index)) /\
      (Qabs (index - 1) <= eps)%Q).
Proof.
  intros Hlen Hgirls Hboys Htg Htb Hdistrict. split.
  - assert (Hg : girls ∈ columns df).
    { apply (filter_elem is_gender), (filter_elem is_girls).
      fold (gender_columns df). rewrite Hgirls. left. }
    assert (Hb : boys ∈ columns df).
    { apply (filter_elem is_gender), (filter_elem is_boys).
      fold (gender_columns df). rewrite Hboys. left. }
    destruct (series_sum_Ok df girls Hg Htg) as (gs & sg & Hgs & Hsg & Hxg & Hvg).
    destruct (series_sum_Ok df boys Hb Htb) as (bs & sb & Hbs & Hsb & Hxb & Hvb).
    unfold calculate_enrolment_metrics.
    apply Nat.leb_le in Hlen. rewrite Hlen, Hgirls, Hboys.
    unfold total_or_row_sums. rewrite Hgs, Hbs. simpl. rewrite Hsg, Hsb. simpl.
    set (m0 := <["gender_parity_index" :=
                   Ratio (Scalar (sg / (sb + eps))%Q)]> (∅ : gmap string metric)).
    assert (Hspec : sums_fit df [girls] -> sums_fit df [boys] ->
                    exists index,
                      gender_parity_spec df = Ok index /\
                      (index == sg / (sb + eps))%Q).
    { intros Hfg Hfb.
      destruct (gender_parity_spec_single df girls boys gs bs Hgirls Hboys
                  Hgs Hbs Hxg Hxb) as (index & Hrun & Hindex).
      exists index. split; [exact Hrun|]. rewrite Hindex.
      destruct (position_Some_elem _ _ Hg) as [gi Hgi].
      destruct (position_Some_elem _ _ Hb) as [bi Hbi].
      assert (Eg : sg = Qsum (map cell_value (values gs))).
      { rewrite Hvg. unfold getitem in Hgs. rewrite Hgi in Hgs.
        injection Hgs as <-. cbn [values sdtype]. rewrite map_map.
        apply reduced_bounded with
          (m := Qsum (map (fun row => Qabs (cell_value (cell_at gi row))) (rows df))).
        - apply Qabs_Qsum.
        - intros Hint. apply (sums_fit_one df girls gi Hfg Hgi).
          unfold dtype_of. now rewrite Hgi. }
      assert (Eb : sb = Qsum (map cell_value (values bs))).
      { rewrite Hvb. unfold getitem in Hbs. rewrite Hbi in Hbs.
        injection Hbs as <-. cbn [values sdtype]. rewrite map_map.
        apply reduced_bounded with
          (m := Qsum (map (fun row => Qabs (cell_value (cell_at bi row))) (rows df))).
        - apply Qabs_Qsum.
        - intros Hint. apply (sums_fit_one df boys bi Hfb Hbi).
          unfold dtype_of. now rewrite Hbi. }
      rewrite <- Eg, <- Eb. reflexivity. }
    assert (H0 : forall key v, m0 !! key = Some v -> key <> "gender_parity_index" ->
                               exists sizes, v = Sizes sizes).
    { intros key v Hk Hne. unfold m0 in Hk.
      apply lookup_insert_Some in Hk as [[Heq _]|[_ Hk]]; [congruence|].
      rewrite lookup_empty in Hk. discriminate. }
    destruct (decide (state_col ∈ columns df)) as [Hs|Hs].
    + destruct (groupby_size_Ok df [state_col]) as [ssz Hssz].
      { constructor; [exact Hs | constructor]. }
      rewrite Hssz. simpl.
      set (m1 := <["state_enrolment" := Sizes ssz]> m0).
      assert (H1 : forall key v, m1 !! key = Some v -> key <> "gender_parity_index" ->
                                 exists sizes, v = Sizes sizes).
      { intros key v Hk Hne. unfold m1 in Hk.
        apply lookup_insert_Some in Hk as [[_ <-]|[_ Hk]]; eauto. }
      destruct (decide (district_col ∈ columns df)) as [Hd|Hd].
      * destruct (groupby_size_Ok df [state_col; district_col]) as [dsz Hdsz].
        { constructor; [exact Hs|]. constructor; [exact Hd | constructor]. }
        rewrite Hdsz. simpl.
        exists (<["district_enrolment" := Sizes dsz]> m1), gs, bs, sg, sb.
        split; [reflexivity|]. do 4 (split; [first [assumption | reflexivity]|]).
        split; [|split; [exact Hspec|]].
        -- rewrite lookup_insert_ne by discriminate. unfold m1.
           rewrite lookup_insert_ne by discriminate. apply lookup_insert_eq.
        -- intros key v Hk Hne.
           apply lookup_insert_Some in Hk as [[_ <-]|[_ Hk]]; eauto.
      * exists m1, gs, bs, sg, sb.
        split; [reflexivity|]. do 4 (split; [first [assumption | reflexivity]|]).
        split; [|split; [exact Hspec | exact H1]].
        unfold m1. rewrite lookup_insert_ne by discriminate. apply lookup_insert_eq.
    + destruct (decide (district_col ∈ columns df)) as [Hd|Hd];
        [exfalso; auto|].
      exists m0, gs, bs, sg, sb.
      split; [reflexivity|]. do 4 (split; [first [assumption | reflexivity]|]).
      split; [apply lookup_insert_eq | split; [exact Hspec | exact H0]].
  - eexists _, _. split; [vm_compute; reflexivity|].
    split; [vm_compute; reflexivity|].
    apply Qle_bool_iff. vm_compute. reflexivity.
Qed.

Lemma gender_parity_index_single_columns_witness :
  exists metrics girls_sum boys_sum index,
    calculate_enrolment_metrics (Some Examples.parity_by_state) "State" "District" None
    = Ok (Some metrics) /\
    metrics !! "gender_parity_index"
    = Some (Ratio (Scalar (girls_sum / (boys_sum + eps))%Q)) /\
    gender_parity_spec Examples.parity_by_state = Ok index /\
    (index == girls_sum / (boys_sum + eps))%Q.
Proof.
  destruct (gender_parity_index_single_columns Examples.parity_by_state
              "Girls_Enrolled" "Boys_Enrolled" "State" "District")
    as [(metrics & gs & bs & sg & sb & Hrun & _ & _ & _ & _ & Hidx & Hspec & _) _].
  - vm_compute. lia.
  - reflexivity.
  - reflexivity.
  - reflexivity.
  - reflexivity.
  - intros _. apply (bool_decide_unpack _). vm_compute. exact I.
  - destruct Hspec as (index & Hindex & Heq).
    + intros _. vm_compute. reflexivity.
    + intros _. vm_compute. reflexivity.
    + exists metrics, sg, sb, index. repeat split; assumption.
Defined.

(** C4, as stated, fails. With a state column the result holds the one
    global index and the row counts per state, and no index per state;
    with two girls columns the index is one ratio per row and not the
    ratio of the totals, which the specification's index is; and a
    single column whose name contains "female", hence also "male", is a
    girls column and a boys column and yields no index. *)
Lemma gender_parity_per_state_absent :
  calculate_enrolment_metrics (Some Examples.parity_by_state) "State" "District" None
  = Ok (Some (<["gender_parity_index" := Ratio (Scalar (300000000000 # 300000000001))]>
                (<["state_enrolment" :=
                     Sizes [([CText "Bihar"], 1%nat); ([CText "Goa"], 1%nat)]]> ∅))) /\
  (calculate_enrolment_metrics (Some Examples.two_girls_columns) "State" "District" None
   = Ok (Some (<["gender_parity_index" :=
                   Ratio (PerRow [40000000000 # 100000000001;
                                  60000000000 # 100000000001])]> ∅)) /\
   gender_parity_spec Examples.two_girls_columns
   = Ok (Qmake 100000000000 100000000001)) /\
  (is_girls "Female_Enrolled" = true /\ is_boys "Female_Enrolled" = true /\
   calculate_enrolment_metrics (Some Examples.female_only) "State" "District" None
   = Ok (Some ∅)).
Proof.
  split; [vm_compute; reflexivity|]. split.
  - split; vm_compute; reflexivity.
  - repeat split; vm_compute; reflexivity.
Qed.

End enrolment_facts.

(** * Absent roles *)

Section absent_roles.

Lemma groupby_size_missing_label (df : DataFrame) (label : string)
    (more : list string) :
  label ∉ columns df ->
  groupby_size df (label :: more) = Raise (KeyError label).
Proof.
  intros H. apply position_None in H.
  unfold groupby_size, groupby, positions. simpl. now rewrite H.
Qed.

(** C7 fails on the code. [calculate_enrolment_metrics] tests that the
    district column exists and then groups by the state column and the
    district column: on a table with the district column and without the
    state column it raises [KeyError] instead of leaving the entry
    out. *)
Theorem district_without_state_raises (df : DataFrame)
    (state_col district_col : string) (gender_cols : option (list string)) :
  district_col ∈ columns df ->
  state_col ∉ columns df ->
  raises (calculate_enrolment_metrics (Some df) state_col district_col gender_cols).
Proof.
  intros Hd Hs. unfold calculate_enrolment_metrics.
  match goal with
  | |- raises (rbind ?parity _) => destruct parity as [m|e]
  end; simpl; [|exact I].
  rewrite decide_False by exact Hs. simpl.
  rewrite decide_True by exact Hd.
  rewrite (groupby_size_missing_label df state_col [district_col] Hs).
  exact I.
Qed.

Lemma district_without_state_raises_witness :
  raises (calculate_enrolment_metrics (Some Examples.district_only)
            "State" "District" None) /\
  calculate_enrolment_metrics (Some Examples.district_only) "State" "District" None
  = Raise (KeyError "State").
Proof.
  split.
  - apply district_without_state_raises.
    + apply (bool_decide_unpack _). vm_compute. exact I.
    + apply (bool_decide_unpack _). vm_compute. exact I.
  - vm_compute. reflexivity.
Defined.

(** The other absences are tolerated: an operation whose columns are
    not found returns [None] or leaves the entry out. *)
Lemma absent_roles_tolerated (df : DataFrame) :
  (teacher_columns df = [] \/ student_columns df = [] \/
   first_present state_aliases (columns df) = None ->
   calculate_teacher_student_ratio (Some df) = Ok None) /\
  (facility_columns df = [] ->
   analyze_facility_availability (Some df) None = Ok (Some ∅)) /\
  (rural_columns df = [] \/ urban_columns df = [] ->
   calculate_equity_indicators (Some df) = Ok (Some ∅)) /\
  (forall state_col district_col,
      gender_columns df = [] ->
      state_col ∉ columns df -> district_col ∉ columns df ->
      calculate_enrolment_metrics (Some df) state_col district_col None
      = Ok (Some ∅)).
Proof.
  repeat split.
  - unfold calculate_teacher_student_ratio. intros [H|[H|H]].
    + now rewrite H.
    + rewrite H. now destruct (teacher_columns df).
    + rewrite H. destruct (teacher_columns df); [reflexivity|].
      now destruct (student_columns df).
  - intros H. unfold analyze_facility_availability. now rewrite H.
  - unfold calculate_equity_indicators. intros [H|H].
    + now rewrite H.
    + rewrite H. now destruct (rural_columns df).
  - intros state_col district_col Hg Hs Hd.
    unfold calculate_enrolment_metrics. rewrite Hg. simpl.
    rewrite decide_False by exact Hs. simpl.
    now rewrite decide_False by exact Hd.
Qed.

Lemma no_table_no_result (state_col district_col : string)
    (gender_cols facility_cols : option (list string)) :
  calculate_enrolment_metrics None state_col district_col gender_cols = Ok None /\
  calculate_teacher_student_ratio None = Ok None /\
  analyze_facility_availability None facility_cols = Ok None /\
  calculate_equity_indicators None = Ok None.
Proof. repeat split. Qed.

End absent_roles.

(** * Column selection *)

Section selection_facts.

Lemma elem_of_filter_iff {A} (f : A -> bool) (x : A) (l : list A) :
  x ∈ List.filter f l <-> x ∈ l /\ f x = true.
Proof. rewrite !list_elem_of_In. apply filter_In. Qed.

(** C9, as the code has it. There is no precedence between roles and
    the roles are not exclusive: each operation selects the columns whose
    name contains one of its own keywords, whatever the other operations
    select, so a column whose name matches two keyword sets is used under
    both roles. *)
Theorem column_selection_without_precedence (df : DataFrame) (col : string) :
  col ∈ columns df ->
  (col ∈ gender_columns df <-> is_gender col = true) /\
  (col ∈ facility_columns df <-> is_facility col = true) /\
  (forall gender_cols, col ∈ gender_cols ->
     (col ∈ List.filter is_girls gender_cols <-> is_girls col = true) /\
     (col ∈ List.filter is_boys gender_cols <-> is_boys col = true)) /\
  (is_gender col = true -> is_facility col = true ->
   col ∈ gender_columns df /\
   exists report,
     analyze_facility_availability (Some df) None = Ok (Some report) /\
     is_Some (report !! col)).
Proof.
  intros Hcol.
  assert (Hg : col ∈ gender_columns df <-> is_gender col = true).
  { unfold gender_columns. rewrite elem_of_filter_iff. tauto. }
  assert (Hf : col ∈ facility_columns df <-> is_facility col = true).
  { unfold facility_columns. rewrite elem_of_filter_iff. tauto. }
  split; [exact Hg|]. split; [exact Hf|]. split.
  - intros gender_cols Hin. rewrite !elem_of_filter_iff. tauto.
  - intros Hgen Hfac. split; [now apply Hg|].
    destruct (facility_report_columns df col) as (report & Hrun & Hsome).
    + now apply Hf.
    + eauto.
Qed.

Lemma column_selection_without_precedence_witness :
  "Girls_Toilet" ∈ gender_columns Examples.girls_toilet /\
  exists report,
    analyze_facility_availability (Some Examples.girls_toilet) None = Ok (Some report) /\
    is_Some (report !! "Girls_Toilet").
Proof.
  destruct (column_selection_without_precedence Examples.girls_toilet "Girls_Toilet")
    as (_ & _ & _ & Hboth).
  - apply (bool_decide_unpack _). vm_compute. exact I.
  - apply Hboth; reflexivity.
Defined.

(** C9, as stated, fails: the column Girls_Toilet is the girls column of
    the parity index and a facility column of the facility report in the
    same table; and a name that contains "female" is a girls column and
    a boys column at once. *)
Lemma girls_toilet_has_two_roles :
  "Girls_Toilet" ∈ List.filter is_girls (gender_columns Examples.girls_toilet) /\
  "Girls_Toilet" ∈ facility_columns Examples.girls_toilet /\
  (exists metrics report,
      calculate_enrolment_metrics (Some Examples.girls_toilet) "State" "District" None
      = Ok (Some metrics) /\
      metrics !! "gender_parity_index"
      = Some (Ratio (Scalar (1 / (7 + eps))%Q)) /\
      analyze_facility_availability (Some Examples.girls_toilet) None
      = Ok (Some report) /\
      report !! "Girls_Toilet" = Some (Availability 1 (of_nat 1 / of_nat 1 * 100)%Q)) /\
  is_girls "Female_Enrolled" = true /\ is_boys "Female_Enrolled" = true.
Proof.
  split; [apply (bool_decide_unpack _); vm_compute; exact I|].
  split; [apply (bool_decide_unpack _); vm_compute; exact I|].
  split; [|split; reflexivity].
  eexists _, _. repeat split; vm_compute; reflexivity.
Qed.

End selection_facts.

(** * [perform_clustering_analysis] *)

Section clustering_facts.

Context `{Sklearn}.

(** The estimator is built with the seed 42: the random state of the
    process has no part in a run. What a run returns still depends on
    the scheduling of the fit. *)
Lemma clustering_ignores_ambient_state (ambient1 ambient2 : rng)
    (threads : schedule) (self_df : option loc) (n_clusters : nat)
    (features : option (list string)) (w : world) :
  perform_clustering_analysis ambient1 threads self_df n_clusters features w =
  perform_clustering_analysis ambient2 threads self_df n_clusters features w.
Proof. reflexivity. Qed.

Lemma traverse_ext {A B} (f g : A -> result B) (l : list A) :
  Forall (fun a => f a = g a) l -> traverse f l = traverse g l.
Proof.
  induction 1 as [|a l Ha _ IH]; simpl; [reflexivity|].
  now rewrite Ha, IH.
Qed.

(** The matrix of features other than [cluster] is the same after the
    assignment of the [cluster] column. *)
Lemma feature_matrix_setitem (df : DataFrame) (features : list string)
    (d : dtype) (vals : list cell) (X : list (list Q)) :
  well_formed df ->
  "cluster" ∉ features ->
  length vals = len df ->
  feature_matrix df features = Ok X ->
  feature_matrix (setitem df "cluster" d vals) features = Ok X.
Proof.
  intros [_ Hrows] Hnot Hlen HX. unfold feature_matrix in *.
  destruct (positions features (columns df)) as [ps|] eqn:Hps; simpl in HX;
    [|discriminate].
  assert (Hfound : Forall2 (fun c p => position c (columns df) = Some p) features ps).
  { unfold positions in Hps. apply traverse_Forall2 in Hps.
    eapply Forall2_impl; [exact Hps|]. intros c p. simpl.
    destruct (position c (columns df)); congruence. }
  assert (Hlt : Forall (fun p => p < length (schema df))%nat ps).
  { clear -Hfound. induction Hfound as [|c p cs ps Hc _ IH]; constructor; auto.
    apply position_lookup in Hc. apply lookup_lt_Some in Hc.
    unfold columns in Hc. now rewrite length_map in Hc. }
  unfold setitem.
  destruct (position "cluster" (columns df)) as [i|] eqn:Hi.
  - (* the column exists and is overwritten *)
    assert (Hcols : columns {| schema := <[i := ("cluster", d)]> (schema df);
                               rows := zip_with (fun row v => <[i := v]> row)
                                         (rows df) vals |} = columns df).
    { unfold columns. simpl. rewrite list_fmap_insert. simpl.
      apply list_insert_id. apply position_lookup in Hi. exact Hi. }
    rewrite Hcols, Hps. simpl. rewrite <- HX. f_equal.
    assert (Hne : Forall (fun p => p <> i) ps).
    { clear -Hfound Hi Hnot. induction Hfound as [|c p cs ps Hc _ IH];
        constructor.
      - intros ->. apply position_lookup in Hc, Hi.
        assert (c = "cluster") by congruence. subst c. apply Hnot. left.
      - apply IH. intros Hin. apply Hnot. now right. }
    clear -Hlen Hne. unfold len in Hlen. revert vals Hlen.
    induction (rows df) as [|row rs IH]; intros [|v vs] Hlen; simpl in *;
      try discriminate; [reflexivity|].
    f_equal; [|apply IH; lia].
    apply map_ext_Forall. eapply Forall_impl; [exact Hne|].
    intros p Hp. simpl in *. unfold cell_at. f_equal.
    rewrite !nth_lookup. now rewrite list_lookup_insert_ne.
  - (* the column is appended *)
    assert (Hcols : columns {| schema := schema df ++ [("cluster", d)];
                               rows := zip_with (fun row v => row ++ [v])
                                         (rows df) vals |}
                    = columns df ++ ["cluster"]).
    { unfold columns. simpl. now rewrite map_app. }
    rewrite Hcols.
    assert (Hps' : positions features (columns df ++ ["cluster"]) = Ok ps).
    { rewrite <- Hps. unfold positions. apply traverse_ext.
      clear -Hfound. induction Hfound as [|c p cs ps Hc _ IH]; constructor; auto.
      simpl. rewrite Hc. now rewrite (position_app_l _ _ _ _ Hc). }
    rewrite Hps'. simpl. rewrite <- HX. f_equal.
    clear -Hlen Hlt Hrows. unfold len in Hlen. revert vals Hlen.
    induction Hrows as [|row rs Hrow _ IH]; intros [|v vs] Hlen; simpl in *;
      try discriminate; [reflexivity|].
    f_equal; [|apply IH; lia].
    apply map_ext_Forall. eapply Forall_impl; [exact Hlt|].
    intros p Hp. simpl in *. unfold cell_at. f_equal.
    rewrite !nth_lookup. rewrite lookup_app_l by lia. reflexivity.
Qed.

Lemma setitem_len (df : DataFrame) (col : string) (d : dtype) (vals : list cell) :
  length vals = len df -> len (setitem df col d vals) = len df.
Proof.
  intros Hlen. unfold setitem, len in *.
  destruct (position col (columns df)); simpl;
    rewrite length_zip_with; lia.
Qed.

(** One run on the table behind [self.df]: the features are read, the
    estimator seeded with 42 is fitted, and the labels are written into
    the [cluster] column of that same table. *)
Lemma clustering_run (ambient : rng) (threads : schedule) (l : loc) (df : DataFrame)
    (n_clusters : nat) (features : list string) (w : world) :
  heap w !! l = Some df ->
  perform_clustering_analysis ambient threads (Some l) n_clusters (Some features) w =
  match (X <- feature_matrix df features ;;
         X_scaled <- scaler_fit_transform X ;;
         kmeans_fit n_clusters (RandomState 42) threads X_scaled)%result with
  | Ok fit =>
      if decide (length (labels_ fit) = len df) then
        (Ok (Some {| clusters := labels_ fit;
                     cluster_centers := cluster_centers_ fit;
                     inertia := inertia_ fit |}),
         {| heap := <[l := setitem df "cluster" int32 (label_cells (labels_ fit))]>
                      (heap w);
            stdout := stdout w |})
      else (Raise ValueError, w)
  | Raise e => (Raise e, w)
  end.
Proof.
  intros Hl. unfold perform_clustering_analysis, bind, deref, lift, update,
    fit_predict, ret, raise.
  rewrite Hl. simpl.
  destruct (feature_matrix df features) as [X|e]; simpl; [|reflexivity].
  destruct (scaler_fit_transform X) as [Xs|e]; simpl; [|reflexivity].
  destruct (kmeans_fit n_clusters (RandomState 42) threads Xs) as [fit|e]; simpl;
    [|reflexivity].
  destruct (decide (length (labels_ fit) = len df)); simpl; [|reflexivity].
  now rewrite Hl.
Qed.

(** Running again on the same analyzer, with the same features, none of
    them the [cluster] column the first run wrote, reads the same
    matrix: under the same scheduling of the fit it gives the same
    clustering. *)
Lemma clustering_rerun (ambient1 ambient2 : rng) (threads : schedule) (l : loc) (df : DataFrame)
    (n_clusters : nat) (features : list string) (w w1 : world) (c : clustering) :
  well_formed df ->
  heap w !! l = Some df ->
  "cluster" ∉ features ->
  perform_clustering_analysis ambient1 threads (Some l) n_clusters (Some features) w
  = (Ok (Some c), w1) ->
  exists w2,
    perform_clustering_analysis ambient2 threads (Some l) n_clusters (Some features) w1
    = (Ok (Some c), w2).
Proof.
  intros Hwf Hl Hnot Hrun. rewrite (clustering_run _ _ _ _ _ _ _ Hl) in Hrun.
  destruct (feature_matrix df features) as [X|e] eqn:HX; simpl in Hrun;
    [|discriminate].
  destruct (scaler_fit_transform X) as [Xs|e] eqn:HXs; simpl in Hrun;
    [|discriminate].
  destruct (kmeans_fit n_clusters (RandomState 42) threads Xs) as [fit|e] eqn:Hfit;
    simpl in Hrun; [|discriminate].
  destruct (decide (length (labels_ fit) = len df)) as [Hlen|]; [|discriminate].
  injection Hrun as <- <-.
  set (df' := setitem df "cluster" int32 (label_cells (labels_ fit))).
  assert (Hcells : length (label_cells (labels_ fit)) = len df)
    by (unfold label_cells; now rewrite length_map).
  rewrite (clustering_run ambient2 threads l df'); [|simpl; apply lookup_insert_eq].
  unfold df'. rewrite (feature_matrix_setitem df features int32 _ X Hwf Hnot Hcells HX).
  simpl. rewrite HXs. simpl. rewrite Hfit.
  rewrite decide_True by (rewrite setitem_len; assumption).
  eauto.
Qed.

End clustering_facts.

(** * Further properties of the join *)

Section join_shape.

Lemma position_lt (label : string) (cols : list string) (i : nat) :
  position label cols = Some i -> (i < length cols)%nat.
Proof.
  revert i. induction cols as [|c cs IH]; simpl; [discriminate|].
  intros i. destruct (String.eqb c label); [intros [= <-]; lia|].
  destruct (position label cs) as [p|]; simpl; [|discriminate].
  intros [= <-]. specialize (IH p eq_refl). lia.
Qed.

Lemma position_schema_lt (label : string) (df : DataFrame) (i : nat) :
  position label (columns df) = Some i -> (i < length (schema df))%nat.
Proof.
  intros H. apply position_lt in H. unfold columns in H.
  now rewrite length_map in H.
Qed.

Lemma matching_subset (k : cell) (j : nat) (right_rows : list (list cell))
    (r : list cell) :
  In r (matching k j right_rows) -> In r right_rows.
Proof. unfold matching. intros H. now apply filter_In in H as [H _]. Qed.

(** The rows of a join fit its columns. *)
Lemma merge_rows_fit (left right joined : DataFrame) (on : string)
    (suffixes : string * string) :
  rows_fit left -> rows_fit right ->
  merge left right on suffixes = Ok joined ->
  rows_fit joined.
Proof.
  intros Hl Hr. unfold merge.
  destruct (position on (columns left)) as [i|]; [|discriminate].
  destruct (position on (columns right)) as [j|] eqn:Hj; [|discriminate].
  destruct (merge_refused left right on suffixes i j); [discriminate|].
  intros [= <-]. unfold rows_fit. simpl.
  rewrite length_app, length_alter, !length_map.
  assert (Hjlt : (j < length (schema right))%nat) by now apply position_schema_lt with on.
  assert (Hrest : length (delete j (schema right)) = (length (schema right) - 1)%nat).
  { apply length_delete. now apply lookup_lt_is_Some. }
  unfold left_join_rows. apply Forall_forall. intros row Hrow.
  apply list_elem_of_In, in_flat_map in Hrow as (l & Hlin & Hrow).
  unfold rows_fit in Hl, Hr. rewrite Forall_forall in Hl, Hr.
  specialize (Hl l (proj2 (list_elem_of_In _ _) Hlin)).
  destruct (matching (cell_at i l) j (rows right)) as [|m ms] eqn:Hm.
  - destruct Hrow as [<-|[]]. rewrite length_app, length_replicate. lia.
  - apply in_map_iff in Hrow as (r & <- & Hrin).
    rewrite <- Hm in Hrin. apply matching_subset in Hrin.
    specialize (Hr r (proj2 (list_elem_of_In _ _) Hrin)).
    rewrite length_app, length_delete by (apply lookup_lt_is_Some; lia). lia.
Qed.

Lemma merge_if_present_rows_fit (merged_df joined : DataFrame)
    (other : option DataFrame) (merge_key suffix : string) :
  rows_fit merged_df -> rows_fit_if_present other ->
  merge_if_present merged_df other merge_key suffix = Ok joined ->
  rows_fit joined.
Proof.
  intros Hm Ho. unfold merge_if_present.
  destruct other as [o|]; [|now intros [= <-]].
  destruct (decide (merge_key ∈ columns o)); [|now intros [= <-]].
  now apply merge_rows_fit.
Qed.

(** X1. The fused table is rectangular: when every row of the four
    tables has one cell per column, so has every row of the table
    [merge_datasets] returns, whatever the keys. *)
Theorem merge_datasets_rows_fit (profile_df fused : DataFrame)
    (enrolment_df facility_df teacher_df : option DataFrame) :
  rows_fit profile_df ->
  rows_fit_if_present enrolment_df ->
  rows_fit_if_present facility_df ->
  rows_fit_if_present teacher_df ->
  snd (merge_datasets profile_df enrolment_df facility_df teacher_df) = Ok fused ->
  rows_fit fused.
Proof.
  intros HP HE HF HT. unfold merge_datasets.
  destruct (first_present possible_keys (columns profile_df)) as [k|];
    [|now intros [= <-]].
  simpl.
  destruct (merge_if_present profile_df enrolment_df k "_enrol") as [m1|] eqn:E1;
    [|discriminate]. simpl.
  destruct (merge_if_present m1 facility_df k "_facility") as [m2|] eqn:E2;
    [|discriminate]. simpl.
  intros E3.
  eapply merge_if_present_rows_fit; [| exact HT | exact E3].
  eapply merge_if_present_rows_fit; [| exact HF | exact E2].
  eapply merge_if_present_rows_fit; [exact HP | exact HE | exact E1].
Qed.

Lemma merge_datasets_rows_fit_witness :
  exists fused,
    snd (merge_datasets Examples.schools None None (Some Examples.teachers)) = Ok fused /\
    rows_fit fused.
Proof.
  eexists. split; [vm_compute; reflexivity|].
  apply (merge_datasets_rows_fit Examples.schools _ None None (Some Examples.teachers)).
  - repeat constructor.
  - exact I.
  - exact I.
  - repeat constructor.
  - vm_compute. reflexivity.
Defined.

Lemma left_join_rows_unique (i j width : nat)
    (left_rows right_rows : list (list cell)) :
  (forall k, (length (matching k j right_rows) <= 1)%nat) ->
  left_join_rows i j width left_rows right_rows =
  map (fun l =>
         l ++ match matching (cell_at i l) j right_rows with
              | r :: _ => delete j r
              | [] => replicate width CMissing
              end) left_rows.
Proof.
  intros Hone. induction left_rows as [|l ls IH]; [reflexivity|].
  rewrite left_join_rows_cons, IH. cbn [map].
  specialize (Hone (cell_at i l)).
  destruct (matching (cell_at i l) j right_rows) as [|r [|r' rs]];
    [reflexivity | reflexivity | simpl in Hone; lia].
Qed.

(** One guarded join on unique keys, row by row. *)
Lemma merge_if_present_rows (merged_df joined : DataFrame)
    (other : option DataFrame) (merge_key suffix : string) (i : nat) :
  position merge_key (columns merged_df) = Some i ->
  unique_if_present merge_key other ->
  merge_if_present merged_df other merge_key suffix = Ok joined ->
  rows joined =
    map (fun l => l ++ appended merge_key other (cell_at i l)) (rows merged_df) /\
  position merge_key (columns joined) = Some i /\
  exists extra, columns joined = columns merged_df ++ extra.
Proof.
  intros Hi Hu. unfold merge_if_present, appended.
  assert (Hid : forall (d : DataFrame),
             rows d = map (fun l : list cell => l ++ []) (rows d)).
  { intros d. rewrite <- (map_id (rows d)) at 1. apply map_ext.
    intros l. now rewrite app_nil_r. }
  destruct other as [o|].
  2:{ intros [= <-]. split; [apply Hid|]. split; [exact Hi|].
      exists []. now rewrite app_nil_r. }
  destruct (decide (merge_key ∈ columns o)) as [Hin|Hnin].
  2:{ intros [= <-]. apply position_None in Hnin. rewrite Hnin.
      split; [apply Hid|]. split; [exact Hi|]. exists []. now rewrite app_nil_r. }
  destruct (position_Some_elem _ _ Hin) as [j Hj]. rewrite Hj.
  intros Hm.
  destruct (merge_Ok merged_df o joined merge_key suffix i j Hi Hj Hm)
    as (_ & [extra Hcols] & Hrows).
  split; [|split].
  - rewrite Hrows. apply left_join_rows_unique.
    intros k. rewrite matching_length. apply distinct_keys_once.
    simpl in Hu. unfold unique_key in Hu. now rewrite Hj in Hu.
  - rewrite Hcols. now apply position_app_l.
  - eauto.
Qed.

(** X2. Fusion on unique keys, row by row: the table [merge_datasets]
    returns has the columns of the profile table first, under their own
    names, and its n-th row is the n-th profile row followed by what the
    enrolment, the facility and the teacher table hold for its key
    (their matching row without the key cell, or missing cells); cut
    back to the profile columns, the fused rows are the profile rows.
    The table is returned, for one, when the labels of the tables are
    all different, the keys apart, and the keys have one dtype. *)
Theorem merge_datasets_rows (profile_df : DataFrame)
    (enrolment_df facility_df teacher_df : option DataFrame) (key : string) :
  rows_fit profile_df ->
  first_present possible_keys (columns profile_df) = Some key ->
  unique_if_present key enrolment_df ->
  unique_if_present key facility_df ->
  unique_if_present key teacher_df ->
  (forall fused,
      snd (merge_datasets profile_df enrolment_df facility_df teacher_df) = Ok fused ->
      exists i extra,
        position key (columns profile_df) = Some i /\
        columns fused = columns profile_df ++ extra /\
        rows fused =
          map (fun l =>
                 l ++ appended key enrolment_df (cell_at i l)
                   ++ appended key facility_df (cell_at i l)
                   ++ appended key teacher_df (cell_at i l))
              (rows profile_df) /\
        map (take (length (schema profile_df))) (rows fused) = rows profile_df) /\
  (same_key_dtype key (dtype_of profile_df key) enrolment_df ->
   same_key_dtype key (dtype_of profile_df key) facility_df ->
   same_key_dtype key (dtype_of profile_df key) teacher_df ->
   NoDup (columns profile_df ++ brought key enrolment_df
          ++ brought key facility_df ++ brought key teacher_df) ->
   exists fused,
     snd (merge_datasets profile_df enrolment_df facility_df teacher_df) = Ok fused).
Proof.
  intros Hfit Hk Hue Huf Hut. split; [|now apply merge_datasets_accepted].
  assert (Hin : key ∈ columns profile_df).
  { apply first_present_Some in Hk as (? & ? & _ & H & _). exact H. }
  destruct (position_Some_elem _ _ Hin) as [i Hi].
  pose proof (position_schema_lt _ _ _ Hi) as Hlt.
  unfold merge_datasets. rewrite Hk. cbn [snd].
  destruct (merge_if_present profile_df enrolment_df key "_enrol") as [m1|]
    eqn:E1; cbn [rbind]; [|discriminate].
  destruct (merge_if_present_rows _ _ _ _ _ i Hi Hue E1) as (R1 & Hi1 & x1 & C1).
  destruct (merge_if_present m1 facility_df key "_facility") as [m2|]
    eqn:E2; cbn [rbind]; [|discriminate].
  destruct (merge_if_present_rows _ _ _ _ _ i Hi1 Huf E2) as (R2 & Hi2 & x2 & C2).
  intros m3 E3.
  destruct (merge_if_present_rows _ _ _ _ _ i Hi2 Hut E3) as (R3 & _ & x3 & C3).
  exists i, (x1 ++ x2 ++ x3).
  split; [exact Hi|]. split.
  { rewrite C3, C2, C1. now rewrite <- !app_assoc. }
  assert (Hrows : rows m3 =
            map (fun l =>
                   l ++ appended key enrolment_df (cell_at i l)
                     ++ appended key facility_df (cell_at i l)
                     ++ appended key teacher_df (cell_at i l))
                (rows profile_df)).
  { rewrite R3, R2, R1, !map_map. apply map_ext_Forall.
    eapply Forall_impl; [exact Hfit|]. intros l Hl. simpl in Hl.
    assert (H1 : cell_at i (l ++ appended key enrolment_df (cell_at i l))
                 = cell_at i l).
    { unfold cell_at. apply app_nth1. lia. }
    assert (H2 : cell_at i
                   ((l ++ appended key enrolment_df (cell_at i l))
                      ++ appended key facility_df (cell_at i l))
                 = cell_at i l).
    { unfold cell_at. rewrite app_nth1; [apply app_nth1; lia|].
      rewrite length_app. lia. }
    rewrite H1, H2. now rewrite <- !app_assoc. }
  split; [exact Hrows|].
  rewrite Hrows, map_map. rewrite <- (map_id (rows profile_df)) at 2.
  apply map_ext_Forall. eapply Forall_impl; [exact Hfit|].
  intros l Hl. simpl in Hl. simpl. rewrite <- Hl. apply take_app_length.
Qed.

Lemma merge_datasets_rows_witness :
  exists fused,
    snd (merge_datasets Examples.schools None None (Some Examples.teachers)) = Ok fused /\
    rows fused =
      [[CText "A"; Examples.num 5]; [CText "B"; Examples.num 10];
       [CText "C"; CMissing]].
Proof.
  destruct (merge_datasets_rows Examples.schools None None (Some Examples.teachers)
              "School_Code") as (Hrows & Hreturns).
  - repeat constructor.
  - reflexivity.
  - exact I.
  - exact I.
  - reflexivity.
  - destruct Hreturns as [fused Hrun].
    + exact I.
    + exact I.
    + intros _. reflexivity.
    + apply (bool_decide_unpack _). vm_compute. exact I.
    + exists fused. split; [exact Hrun|].
      destruct (Hrows fused Hrun) as (i & extra & Hi & _ & Hr & _).
      rewrite Hr. vm_compute in Hi. injection Hi as <-. vm_compute. reflexivity.
Defined.

End join_shape.
(** * Groups and totals *)

Lemma existsb_through_map {A B} (f : A -> bool) (g : B -> A) (l : list B) :
  existsb f (map g l) = existsb (fun b => f (g b)) l.
Proof. induction l as [|b l IH]; simpl; [reflexivity | now rewrite IH]. Qed.

Section partition.

Context {A B M : Type} (eqb : A -> A -> bool) (key : B -> A).
Context (req : relation M) `{!Equivalence req}.
Context (add : M -> M -> M) (zero : M) `{!Proper (req ==> req ==> req) add}.

Hypothesis add_assoc : forall x y z, req (add x (add y z)) (add (add x y) z).
Hypothesis add_comm : forall x y, req (add x y) (add y x).
Hypothesis add_zero : forall x, req (add zero x) x.
Hypothesis eqb_refl : forall a, eqb a a = true.
Hypothesis eqb_sym : forall a b, eqb a b = eqb b a.
Hypothesis eqb_trans :
  forall a b c, eqb a b = true -> eqb b c = true -> eqb a c = true.

Local Abbreviation sum := (fold_sum add zero).

Lemma fold_sum_ext {C} (f g : C -> M) (l : list C) :
  (forall c, In c l -> req (f c) (g c)) -> req (sum f l) (sum g l).
Proof.
  induction l as [|c l IH]; intros H; simpl; [reflexivity|].
  rewrite (H c (or_introl eq_refl)), IH; [reflexivity|].
  intros c' Hc'. apply H. now right.
Qed.

Lemma fold_sum_split {C} (f : C -> M) (p : C -> bool) (l : list C) :
  req (sum f l)
      (add (sum f (List.filter p l))
           (sum f (List.filter (fun c => negb (p c)) l))).
Proof.
  induction l as [|c l IH]; simpl; [now rewrite add_zero|].
  rewrite IH. destruct (p c); simpl.
  - now rewrite add_assoc.
  - rewrite !add_assoc.
    rewrite (add_comm (f c) (sum f (List.filter p l))). reflexivity.
Qed.

Lemma fold_sum_Permutation {C} (f : C -> M) (l l' : list C) :
  Permutation l l' -> req (sum f l) (sum f l').
Proof.
  induction 1 as [|x l l' _ IH|x y l|l l' l'' _ IH1 _ IH2]; simpl.
  - reflexivity.
  - now rewrite IH.
  - rewrite !add_assoc, (add_comm (f y) (f x)). reflexivity.
  - now rewrite IH1.
Qed.

(** The weight of the rows whose key is [k]. *)
Local Abbreviation group_sum w l :=
  (fun k => sum w (List.filter (fun b => eqb k (key b)) l)).

Lemma group_sum_equal_keys (w : B -> M) (l : list B) (k k' : A) :
  eqb k k' = true ->
  List.filter (fun b => eqb k' (key b)) l = List.filter (fun b => eqb k (key b)) l.
Proof.
  intros Hk. apply filter_ext. intros b.
  destruct (eqb k (key b)) eqn:E1, (eqb k' (key b)) eqn:E2; auto.
  - assert (eqb k' (key b) = true).
    { apply eqb_trans with k; [now rewrite eqb_sym | exact E1]. }
    congruence.
  - assert (eqb k (key b) = true) by (now apply eqb_trans with k').
    congruence.
Qed.

Lemma group_sum_over_equals (w : B -> M) (l : list B) (x : A) :
  req (sum (group_sum w l) (List.filter (eqb x) (dedup eqb (map key l))))
      (group_sum w l x).
Proof.
  pose proof (dedup_once eqb eqb_sym eqb_trans x (map key l)) as Hone.
  assert (Hall : forall k, In k (List.filter (eqb x) (dedup eqb (map key l))) ->
                           req (group_sum w l k) (group_sum w l x)).
  { intros k Hk. apply filter_In in Hk as [_ Hk]. simpl.
    now rewrite (group_sum_equal_keys w l x k Hk). }
  destruct (List.filter (eqb x) (dedup eqb (map key l))) as [|k0 [|k1 ks]] eqn:Hf.
  - simpl. destruct (existsb (eqb x) (map key l)) eqn:Hex; [discriminate|].
    assert (Hnil : List.filter (fun b => eqb x (key b)) l = []).
    { apply filter_none. rewrite existsb_through_map in Hex. exact Hex. }
    rewrite Hnil. reflexivity.
  - simpl. rewrite (Hall k0 (or_introl eq_refl)). simpl.
    rewrite add_comm. apply add_zero.
  - simpl in Hone. destruct (existsb (eqb x) (map key l)); discriminate.
Qed.

(** The groups partition the rows: the weights of the groups add up to
    the weight of all the rows. *)
Lemma group_sums_total (w : B -> M) (l : list B) :
  req (sum (group_sum w l) (dedup eqb (map key l))) (sum w l).
Proof.
  induction l as [|b l IH]; [reflexivity|].
  cbn [map dedup fold_sum foldr].
  change (foldr (fun b0 acc => add (w b0) acc) zero l) with (sum w l).
  cbn [List.filter]. rewrite eqb_refl. cbn [fold_sum foldr].
  set (x := key b). set (D := dedup eqb (map key l)).
  change (foldr (fun b0 acc => add (w b0) acc) zero
            (List.filter (fun b0 => eqb x (key b0)) l))
    with (group_sum w l x).
  assert (Hrest :
            req (foldr (fun k acc =>
                          add (sum w (if eqb k x
                                      then b :: List.filter (fun b0 => eqb k (key b0)) l
                                      else List.filter (fun b0 => eqb k (key b0)) l))
                              acc) zero
                   (List.filter (fun y => negb (eqb x y)) D))
                (sum (group_sum w l) (List.filter (fun y => negb (eqb x y)) D))).
  { apply (fold_sum_ext
             (fun k => sum w (if eqb k x
                              then b :: List.filter (fun b0 => eqb k (key b0)) l
                              else List.filter (fun b0 => eqb k (key b0)) l))
             (group_sum w l)).
    intros k Hk. apply filter_In in Hk as [_ Hk]. apply negb_true_iff in Hk.
    rewrite eqb_sym in Hk. rewrite Hk. reflexivity. }
  rewrite Hrest. rewrite <- IH. subst D.
  rewrite (fold_sum_split (group_sum w l) (eqb x) (dedup eqb (map key l))).
  rewrite (group_sum_over_equals w l x). simpl.
  now rewrite <- add_assoc.
Qed.

Lemma group_nonempty (b : B) (l : list B) :
  In b l ->
  (0 < length (List.filter (fun b' => eqb (key b) (key b')) l))%nat.
Proof.
  induction l as [|r rs IH]; [intros []|].
  intros [->|Hb]; cbn [List.filter].
  - rewrite eqb_refl. simpl. lia.
  - destruct (eqb (key b) (key r)); simpl; auto with arith.
Qed.

End partition.

Section grouping_facts.

Lemma key_eqb_refl (a : list cell) : key_eqb a a = true.
Proof. induction a as [|x a IH]; simpl; [reflexivity|]. now rewrite cell_eqb_refl. Qed.

Lemma key_eqb_sym (a b : list cell) : key_eqb a b = key_eqb b a.
Proof.
  revert b. induction a as [|x a IH]; intros [|y b]; simpl; auto.
  now rewrite cell_eqb_sym, IH.
Qed.

Lemma key_eqb_trans (a b c : list cell) :
  key_eqb a b = true -> key_eqb b c = true -> key_eqb a c = true.
Proof.
  revert b c. induction a as [|x a IH]; intros [|y b] [|z c]; simpl;
    try discriminate; auto.
  intros H1 H2. apply andb_prop in H1 as [H1 H1'], H2 as [H2 H2'].
  rewrite (cell_eqb_trans x y z H1 H2). simpl. now apply IH with b.
Qed.

Lemma cell_leb_total (a b : cell) : cell_leb a b = true \/ cell_leb b a = true.
Proof.
  destruct a as [x|s|], b as [y|t|]; simpl; auto.
  - destruct (Qlt_le_dec x y) as [H|H].
    + left. apply Qle_bool_iff. now apply Qlt_le_weak.
    + right. now apply Qle_bool_iff.
  - apply String.leb_total.
Qed.

Lemma key_leb_total (a b : list cell) : key_leb a b = true \/ key_leb b a = true.
Proof.
  revert b. induction a as [|x a IH]; intros [|y b]; simpl; auto.
  rewrite (cell_eqb_sym y x). destruct (cell_eqb x y); [apply IH|].
  apply cell_leb_total.
Qed.

Lemma key_leb_Total : Total (fun a b : list cell => Is_true (key_leb a b)).
Proof.
  intros a b. destruct (key_leb_total a b) as [H|H]; rewrite H; simpl; auto.
Qed.

Lemma list_sum_fold_sum {C} (f : C -> nat) (l : list C) :
  list_sum (map f l) = fold_sum Nat.add 0%nat f l.
Proof. induction l as [|c l IH]; simpl; [reflexivity | now rewrite IH]. Qed.

Lemma length_fold_sum {C} (l : list C) :
  length l = fold_sum Nat.add 0%nat (fun _ => 1%nat) l.
Proof. induction l as [|c l IH]; simpl; [reflexivity | now rewrite IH]. Qed.

(** Grouping by one column, spelled out: the keys are the distinct
    values of the column that are not missing, in order, and the group
    of a key holds the rows that carry it. *)
Lemma groupby_one_eq (df : DataFrame) (col : string) (i : nat) :
  position col (columns df) = Some i ->
  groupby df [col] =
  Ok (map (fun k => (k, List.filter (fun row => key_eqb k [cell_at i row])
                          (rows_with i df)))
        (merge_sort (fun a b => Is_true (key_leb a b))
           (dedup key_eqb (map (fun row => [cell_at i row]) (rows_with i df))))).
Proof.
  intros Hi. unfold groupby, positions. simpl. rewrite Hi. simpl.
  replace (List.filter
             (fun row => negb (is_missing (cell_at i row) || false)) (rows df))
    with (rows_with i df); [reflexivity|].
  unfold rows_with. apply filter_ext. intros row. now rewrite orb_false_r.
Qed.

(** The sizes of the groups of one column: they add up to the number of
    rows that have a value in the column, none is 0, and every value is
    listed once, in ascending order. *)
Lemma groupby_size_one (df : DataFrame) (col : string) (i : nat)
    (sizes : list (list cell * nat)) :
  position col (columns df) = Some i ->
  groupby_size df [col] = Ok sizes ->
  list_sum (map snd sizes) = length (rows_with i df) /\
  Forall (fun s => (0 < snd s)%nat) sizes /\
  Sorted (fun a b => Is_true (key_leb a b)) (map fst sizes) /\
  Forall (fun k => length (List.filter (key_eqb k) (map fst sizes)) = 1%nat)
         (map fst sizes).
Proof.
  intros Hi. unfold groupby_size. rewrite (groupby_one_eq df col i Hi). simpl.
  intros [= <-].
  set (keyed := rows_with i df).
  set (key := fun row : list cell => [cell_at i row]).
  set (D := dedup key_eqb (map key keyed)).
  set (R := fun a b : list cell => Is_true (key_leb a b)).
  pose proof (merge_sort_Permutation R D) as Hperm.
  rewrite !map_map. simpl.
  assert (Hfst : map (fun x : list cell => x) (merge_sort R D) = merge_sort R D)
    by apply map_id.
  rewrite Hfst.
  split; [|split; [|split]].
  - rewrite list_sum_fold_sum.
    rewrite (fold_sum_Permutation eq Nat.add 0%nat
               ltac:(intros; lia) ltac:(intros; lia) _ _ _ Hperm).
    rewrite (length_fold_sum keyed).
    transitivity (fold_sum Nat.add 0%nat
                    (fun k => fold_sum Nat.add 0%nat (fun _ : list cell => 1%nat)
                                (List.filter (fun b => key_eqb k (key b)) keyed)) D).
    { apply (fold_sum_ext eq Nat.add 0%nat). intros k _.
      apply length_fold_sum. }
    apply (group_sums_total key_eqb key eq Nat.add 0%nat
             ltac:(intros; lia) ltac:(intros; lia) ltac:(intros; lia)
             key_eqb_refl key_eqb_sym key_eqb_trans).
  - apply Forall_map. apply Forall_forall. intros k Hk. simpl.
    rewrite Hperm in Hk. apply list_elem_of_In, dedup_In in Hk.
    apply in_map_iff in Hk as (row & <- & Hrow).
    exact (group_nonempty key_eqb key key_eqb_refl row keyed Hrow).
  - apply (@Sorted_merge_sort _ _ _ key_leb_Total).
  - apply Forall_forall. intros k Hk.
    rewrite (filter_length_Permutation _ _ _ Hperm). subst D.
    rewrite (dedup_once key_eqb key_eqb_sym key_eqb_trans).
    rewrite Hperm in Hk. apply list_elem_of_In, dedup_In in Hk.
    replace (existsb (key_eqb k) (map key keyed)) with true; [reflexivity|].
    symmetry. apply existsb_exists. exists k. split; [exact Hk | apply key_eqb_refl].
Qed.

Lemma filter_length_le {C} (f : C -> bool) (l : list C) :
  (length (List.filter f l) <= length l)%nat.
Proof.
  induction l as [|c l IH]; simpl; [lia|]. destruct (f c); simpl; lia.
Qed.

(** The entry [state_enrolment] of the metrics is the table of group
    sizes of the state column. *)
Lemma enrolment_state_entry (df : DataFrame) (state_col district_col : string)
    (gender_cols : option (list string)) (metrics : gmap string metric)
    (v : metric) :
  calculate_enrolment_metrics (Some df) state_col district_col gender_cols
  = Ok (Some metrics) ->
  metrics !! "state_enrolment" = Some v ->
  exists sizes, v = Sizes sizes /\ groupby_size df [state_col] = Ok sizes.
Proof.
  unfold calculate_enrolment_metrics. intros Hrun Hv.
  match type of Hrun with
  | rbind ?b _ = _ => remember b as parity eqn:Hparity
  end.
  destruct parity as [m0|e]; simpl in Hrun; [|discriminate].
  assert (H0 : m0 !! "state_enrolment" = None).
  { symmetry in Hparity. revert Hparity.
    destruct (2 <=? _)%nat; [|now intros [= <-]].
    destruct (List.filter is_girls _) as [|g gs]; [now intros [= <-]|].
    destruct (List.filter is_boys _) as [|b bs]; [now intros [= <-]|].
    destruct (total_or_row_sums df (g :: gs)); cbn [rbind]; [|intros [=]].
    destruct (total_or_row_sums df (b :: bs)); cbn [rbind]; [|intros [=]].
    intros [= <-]. rewrite lookup_insert_ne by discriminate. apply lookup_empty. }
  clear Hparity.
  destruct (decide (state_col ∈ columns df)) as [Hs|Hs].
  - destruct (groupby_size df [state_col]) as [ssz|] eqn:Hssz; simpl in Hrun;
      [|discriminate].
    exists ssz. split; [|reflexivity].
    destruct (decide (district_col ∈ columns df)).
    + destruct (groupby_size df [state_col; district_col]); simpl in Hrun;
        [|discriminate].
      injection Hrun as <-.
      rewrite lookup_insert_ne in Hv by discriminate.
      rewrite lookup_insert_eq in Hv. congruence.
    + simpl in Hrun. injection Hrun as <-.
      rewrite lookup_insert_eq in Hv. congruence.
  - simpl in Hrun.
    destruct (decide (district_col ∈ columns df)).
    + destruct (groupby_size df [state_col; district_col]); simpl in Hrun;
        [|discriminate].
      injection Hrun as <-.
      rewrite lookup_insert_ne in Hv by discriminate. congruence.
    + simpl in Hrun. injection Hrun as <-. congruence.
Qed.

(** X3. State enrolment: the counts [calculate_enrolment_metrics]
    reports per state add up to the number of rows that have a state, so
    rows without one are counted nowhere; no state is listed with count
    0, and every state is listed once, in ascending order. *)
Theorem state_enrolment_counts (df : DataFrame) (state_col district_col : string)
    (gender_cols : option (list string)) (metrics : gmap string metric)
    (sizes : list (list cell * nat)) (i : nat) :
  calculate_enrolment_metrics (Some df) state_col district_col gender_cols
  = Ok (Some metrics) ->
  metrics !! "state_enrolment" = Some (Sizes sizes) ->
  position state_col (columns df) = Some i ->
  list_sum (map snd sizes) = length (rows_with i df) /\
  (list_sum (map snd sizes) <= len df)%nat /\
  Forall (fun s => (0 < snd s)%nat) sizes /\
  Sorted (fun a b => Is_true (key_leb a b)) (map fst sizes) /\
  Forall (fun k => length (List.filter (key_eqb k) (map fst sizes)) = 1%nat)
         (map fst sizes).
Proof.
  intros Hrun Hv Hi.
  destruct (enrolment_state_entry _ _ _ _ _ _ Hrun Hv) as (sizes' & [= <-] & Hg).
  destruct (groupby_size_one df state_col i sizes Hi Hg) as (Hsum & Hpos & Hsort & Hone).
  split; [exact Hsum|]. split; [|auto].
  rewrite Hsum. unfold rows_with, len. apply filter_length_le.
Qed.

Lemma state_enrolment_counts_witness :
  exists metrics sizes,
    calculate_enrolment_metrics (Some Examples.parity_by_state) "State" "District" None
    = Ok (Some metrics) /\
    metrics !! "state_enrolment" = Some (Sizes sizes) /\
    list_sum (map snd sizes) = 2%nat.
Proof.
  exists (<["gender_parity_index" := Ratio (Scalar (300000000000 # 300000000001))]>
            (<["state_enrolment" :=
                 Sizes [([CText "Bihar"], 1%nat); ([CText "Goa"], 1%nat)]]> ∅)),
         [([CText "Bihar"], 1%nat); ([CText "Goa"], 1%nat)].
  split; [vm_compute; reflexivity|].
  split; [vm_compute; reflexivity|].
  destruct (state_enrolment_counts Examples.parity_by_state "State" "District" None
              (<["gender_parity_index" :=
                   Ratio (Scalar (300000000000 # 300000000001))]>
                 (<["state_enrolment" :=
                      Sizes [([CText "Bihar"], 1%nat); ([CText "Goa"], 1%nat)]]> ∅))
              [([CText "Bihar"], 1%nat); ([CText "Goa"], 1%nat)] 0%nat)
    as (Hsum & _).
  - vm_compute. reflexivity.
  - vm_compute. reflexivity.
  - reflexivity.
  - rewrite Hsum. reflexivity.
Defined.

End grouping_facts.

Lemma dedup_length_le {C} (eqb : C -> C -> bool) (l : list C) :
  (length (dedup eqb l) <= length l)%nat.
Proof.
  induction l as [|c l IH]; [reflexivity|]. cbn [dedup length].
  pose proof (filter_length_le (fun y => negb (eqb c y)) (dedup eqb l)). lia.
Qed.

Section ratio_totals.

Lemma Qsum_fold_sum {C} (f : C -> Q) (l : list C) :
  Qsum (map f l) = fold_sum Qplus 0%Q f l.
Proof. induction l as [|c l IH]; simpl; [reflexivity | now rewrite IH]. Qed.

(** The sums of a column over the groups of a key column add up to the
    sum over the rows that have a key. *)
Lemma grouped_totals (i p : nat) (keyed : list (list cell)) :
  (Qsum (map (fun k =>
                Qsum (map (fun row => cell_value (cell_at p row))
                        (List.filter (fun row => key_eqb k [cell_at i row]) keyed)))
           (merge_sort (fun a b => Is_true (key_leb a b))
              (dedup key_eqb (map (fun row => [cell_at i row]) keyed))))
   == Qsum (map (fun row => cell_value (cell_at p row)) keyed))%Q.
Proof.
  set (key := fun row : list cell => [cell_at i row]).
  set (w := fun row : list cell => cell_value (cell_at p row)).
  rewrite !Qsum_fold_sum.
  rewrite (fold_sum_Permutation Qeq Qplus 0%Q Qplus_assoc Qplus_comm _ _ _
             (merge_sort_Permutation _ _)).
  rewrite <- (group_sums_total key_eqb key Qeq Qplus 0%Q
                Qplus_assoc Qplus_comm Qplus_0_l
                key_eqb_refl key_eqb_sym key_eqb_trans w keyed).
  apply (fold_sum_ext Qeq Qplus 0%Q). intros k _.
  rewrite Qsum_fold_sum. reflexivity.
Qed.

(** The table [calculate_teacher_student_ratio] returns, row by row:
    one row per state, in the order of the states, with the sums over
    the rows of that state. *)
Lemma tsr_rows (df : DataFrame) (teacher0 student0 state_col : string)
    (teacher_rest student_rest : list string) (i ti si : nat)
    (aggregated : list tsr_row) :
  teacher_columns df = teacher0 :: teacher_rest ->
  student_columns df = student0 :: student_rest ->
  first_present state_aliases (columns df) = Some state_col ->
  position state_col (columns df) = Some i ->
  position teacher0 (columns df) = Some ti ->
  position student0 (columns df) = Some si ->
  calculate_teacher_student_ratio (Some df) = Ok (Some aggregated) ->
  Forall2
    (fun k row =>
       state row = k /\
       teacher_sum row
       = reduced (dtype_of df teacher0)
           (Qsum (map (fun r => cell_value (cell_at ti r))
                    (List.filter (fun r => key_eqb k [cell_at i r])
                       (rows_with i df)))) /\
       student_sum row
       = reduced (dtype_of df student0)
           (Qsum (map (fun r => cell_value (cell_at si r))
                    (List.filter (fun r => key_eqb k [cell_at i r])
                       (rows_with i df)))) /\
       TSR row = (student_sum row / (teacher_sum row + eps))%Q)
    (merge_sort (fun a b => Is_true (key_leb a b))
       (dedup key_eqb (map (fun r => [cell_at i r]) (rows_with i df))))
    aggregated.
Proof.
  intros Ht Hs Hfp Hi Hti Hsi. unfold calculate_teacher_student_ratio.
  rewrite Ht, Hs, Hfp, (groupby_one_eq df state_col i Hi). simpl.
  set (keyed := rows_with i df).
  set (keys := merge_sort (fun a b => Is_true (key_leb a b))
                 (dedup key_eqb (map (fun row => [cell_at i row]) keyed))).
  match goal with
  | |- rbind (traverse ?f ?gs) _ = _ -> _ =>
      destruct (traverse f gs) as [rows_|] eqn:Htr; simpl; [|discriminate]
  end.
  intros [= <-]. apply traverse_Forall2 in Htr.
  clear -Htr Hti Hsi. revert rows_ Htr.
  induction keys as [|k ks IH]; intros rows_ Htr; simpl in Htr.
  - inversion Htr. constructor.
  - inversion Htr as [|g row gs rs Hrow Hrest]; subst.
    constructor; [|now apply IH]. simpl in Hrow.
    rewrite (column_sum_cells _ _ _ _ Hti) in Hrow.
    rewrite (column_sum_cells _ _ _ _ Hsi) in Hrow.
    destruct (sum_cells (map (cell_at ti) _)) as [t|] eqn:Et; simpl in Hrow;
      [|discriminate].
    destruct (sum_cells (map (cell_at si) _)) as [s|] eqn:Es; simpl in Hrow;
      [|discriminate].
    injection Hrow as <-. simpl.
    apply sum_cells_value in Et, Es. rewrite map_map in Et, Es.
    rewrite Et, Es. repeat split; reflexivity.
Qed.




(** X4. Teacher-student ratio, totals: when no sum over the first
    teacher column or over the first student column leaves the 64-bit
    integers, the teacher sums of the states add up to the teacher total
    of the rows that have a state, and so do the student sums; a row
    without a state enters no ratio. There are at most as many states as
    rows. *)
Theorem teacher_student_sums_add_up (df : DataFrame)
    (teacher0 student0 state_col : string)
    (teacher_rest student_rest : list string) (i ti si : nat)
    (aggregated : list tsr_row) :
  teacher_columns df = teacher0 :: teacher_rest ->
  student_columns df = student0 :: student_rest ->
  first_present state_aliases (columns df) = Some state_col ->
  position state_col (columns df) = Some i ->
  position teacher0 (columns df) = Some ti ->
  position student0 (columns df) = Some si ->
  sums_fit df [teacher0] ->
  sums_fit df [student0] ->
  calculate_teacher_student_ratio (Some df) = Ok (Some aggregated) ->
  (Qsum (map teacher_sum aggregated)
   == Qsum (map (fun row => cell_value (cell_at ti row)) (rows_with i df)))%Q /\
  (Qsum (map student_sum aggregated)
   == Qsum (map (fun row => cell_value (cell_at si row)) (rows_with i df)))%Q /\
  (length aggregated <= len df)%nat.
Proof.
  intros Ht Hs Hfp Hi Hti Hsi Hft Hfs Hrun.
  pose proof (tsr_rows df teacher0 student0 state_col teacher_rest
                student_rest i ti si aggregated Ht Hs Hfp Hi Hti Hsi Hrun)
    as Hrows.
  set (keyed := rows_with i df) in *.
  set (keys := merge_sort (fun a b => Is_true (key_leb a b))
                 (dedup key_eqb (map (fun row => [cell_at i row]) keyed))) in *.
  assert (Hexact : forall (col : string) (p : nat) (k : list cell),
             position col (columns df) = Some p ->
             sums_fit df [col] ->
             reduced (dtype_of df col)
               (Qsum (map (fun r => cell_value (cell_at p r))
                        (List.filter (fun r => key_eqb k [cell_at i r]) keyed)))
             = Qsum (map (fun r => cell_value (cell_at p r))
                       (List.filter (fun r => key_eqb k [cell_at i r]) keyed))).
  { intros col p k Hp Hfit.
    apply reduced_bounded with
      (m := Qsum (map (fun row => Qabs (cell_value (cell_at p row))) (rows df))).
    - eapply Qle_trans; [apply Qabs_Qsum|].
      eapply Qle_trans;
        [apply (Qsum_filter_le (fun row => Qabs (cell_value (cell_at p row))));
         intros row; apply Qabs_nonneg|].
      apply (Qsum_filter_le (fun row => Qabs (cell_value (cell_at p row)))).
      intros row. apply Qabs_nonneg.
    - intros Hint. now apply sums_fit_one with col. }
  assert (Hsums :
            map teacher_sum aggregated =
              map (fun k => Qsum (map (fun row => cell_value (cell_at ti row))
                                    (List.filter (fun row => key_eqb k [cell_at i row])
                                       keyed))) keys /\
            map student_sum aggregated =
              map (fun k => Qsum (map (fun row => cell_value (cell_at si row))
                                    (List.filter (fun row => key_eqb k [cell_at i row])
                                       keyed))) keys /\
            length aggregated = length keys).
  { clear -Hrows Hexact Hti Hsi Hft Hfs.
    induction Hrows as [|k row ks rs (_ & Hts & Hss & _) _ (IHt & IHs & IHl)];
      [repeat split; reflexivity|].
    cbn [map length].
    rewrite IHt, IHs, IHl, Hts, Hss.
    rewrite (Hexact teacher0 ti k Hti Hft), (Hexact student0 si k Hsi Hfs).
    repeat split; reflexivity. }
  destruct Hsums as (Hts & Hss & Hlen).
  rewrite Hts, Hss. split; [apply grouped_totals|]. split; [apply grouped_totals|].
  rewrite Hlen. unfold keys.
  rewrite (Permutation_length (merge_sort_Permutation _ _)).
  transitivity (length keyed).
  - rewrite <- (length_map (fun row : list cell => [cell_at i row]) keyed).
    apply dedup_length_le.
  - unfold keyed, rows_with, len. apply filter_length_le.
Qed.

Lemma teacher_student_sums_add_up_witness :
  exists aggregated,
    calculate_teacher_student_ratio (Some Examples.staffing) = Ok (Some aggregated) /\
    (Qsum (map teacher_sum aggregated) == 31)%Q /\
    (Qsum (map student_sum aggregated) == 122)%Q.
Proof.
  assert (Hrun : exists aggregated,
             calculate_teacher_student_ratio (Some Examples.staffing)
             = Ok (Some aggregated))
    by (eexists; vm_compute; reflexivity).
  destruct Hrun as [aggregated Hrun]. exists aggregated.
  split; [exact Hrun|].
  destruct (teacher_student_sums_add_up Examples.staffing
              "Total_Teachers" "Total_Students" "State" [] [] 0%nat 1%nat 2%nat
              aggregated eq_refl eq_refl eq_refl eq_refl eq_refl eq_refl)
    as (Ht & Hs & _).
  - intros _. vm_compute. reflexivity.
  - intros _. vm_compute. reflexivity.
  - exact Hrun.
  - split; [rewrite Ht | rewrite Hs]; reflexivity.
Defined.

End ratio_totals.

Section facility_more.

Lemma fold_sum_map {C D M} (add : M -> M -> M) (zero : M) (g : C -> D)
    (f : D -> M) (l : list C) :
  fold_sum add zero f (map g l) = fold_sum add zero (fun c => f (g c)) l.
Proof. induction l as [|c l IH]; simpl; [reflexivity | now rewrite IH]. Qed.

Lemma more_frequent_Total : Total more_frequent.
Proof. intros a b. unfold more_frequent. lia. Qed.

(** The counts of [value_counts] add up to the number of cells that are
    not missing, and come in decreasing order. *)
Lemma value_counts_total (cs : list cell) :
  list_sum (map snd (value_counts cs)) =
    length (List.filter (fun c => negb (is_missing c)) cs) /\
  Sorted more_frequent (value_counts cs).
Proof.
  unfold value_counts.
  set (present := List.filter (fun c => negb (is_missing c)) cs).
  split; [|apply (@Sorted_merge_sort _ _ _ more_frequent_Total)].
  rewrite list_sum_fold_sum.
  rewrite (fold_sum_Permutation eq Nat.add 0%nat
             ltac:(intros; lia) ltac:(intros; lia) _ _ _
             (merge_sort_Permutation _ _)).
  rewrite fold_sum_map. simpl. unfold frequency.
  rewrite (length_fold_sum present).
  pose proof (group_sums_total cell_eqb (fun c : cell => c) eq Nat.add 0%nat
                ltac:(intros; lia) ltac:(intros; lia) ltac:(intros; lia)
                cell_eqb_refl cell_eqb_sym cell_eqb_trans
                (fun _ : cell => 1%nat) present) as Hpart.
  rewrite map_id in Hpart. rewrite <- Hpart.
  apply (fold_sum_ext eq Nat.add 0%nat). intros v _. apply length_fold_sum.
Qed.

Lemma facility_loop_other (df : DataFrame) (facility_cols : list string)
    (facility_analysis report : gmap string facility_report) (c : string) :
  facility_loop df facility_cols facility_analysis = Ok report ->
  c ∉ facility_cols ->
  report !! c = facility_analysis !! c.
Proof.
  revert facility_analysis.
  induction facility_cols as [|col rest IH]; intros acc; simpl.
  - now intros [= <-].
  - destruct (getitem df col) as [s|]; simpl; [|discriminate].
    intros Hrun Hc. apply not_elem_of_cons in Hc as [Hne Hc].
    rewrite (IH _ Hrun Hc). now apply lookup_insert_ne.
Qed.

Lemma facility_loop_KeyError (df : DataFrame) (before after : list string)
    (missing : string) (facility_analysis : gmap string facility_report) :
  Forall (fun c => c ∈ columns df) before ->
  missing ∉ columns df ->
  facility_loop df (before ++ missing :: after) facility_analysis
  = Raise (KeyError missing).
Proof.
  intros Hall Hmiss. revert facility_analysis.
  induction Hall as [|c cs Hc _ IH]; intros acc; simpl.
  - apply position_None in Hmiss. unfold getitem. now rewrite Hmiss.
  - destruct (getitem_Ok df c Hc) as (s & Hs & _). rewrite Hs. simpl. apply IH.
Qed.

(** X5. Facility report, explicit columns: when every label handed in
    [facility_cols] is a column, the report has an entry for each of
    them and for nothing else; otherwise the call raises [KeyError] with
    the first label that is not a column and returns no report. *)
Theorem facility_cols_explicit (df : DataFrame) (given : list string) :
  (Forall (fun c => c ∈ columns df) given ->
   exists report,
     analyze_facility_availability (Some df) (Some given) = Ok (Some report) /\
     forall c, is_Some (report !! c) <-> c ∈ given) /\
  (forall before missing after,
      given = before ++ missing :: after ->
      Forall (fun c => c ∈ columns df) before ->
      missing ∉ columns df ->
      analyze_facility_availability (Some df) (Some given)
      = Raise (KeyError missing)).
Proof.
  split.
  - intros Hall.
    destruct (facility_loop_spec df given ∅ Hall) as (report & Hrun & Hget).
    exists report. split; [simpl; now rewrite Hrun|].
    intros c. split.
    + intros Hsome. destruct (decide (c ∈ given)) as [|Hn]; [assumption|].
      rewrite (facility_loop_other _ _ _ _ _ Hrun Hn), lookup_empty in Hsome.
      now destruct Hsome.
    + intros Hc. rewrite Forall_forall in Hall.
      destruct (getitem_Ok df c (Hall c Hc)) as (s & Hs & _).
      rewrite (Hget c s Hs). rewrite decide_True by exact Hc. eauto.
  - intros before missing after -> Hall Hmiss. simpl.
    now rewrite (facility_loop_KeyError df before after missing ∅ Hall Hmiss).
Qed.

Lemma facility_cols_explicit_witness :
  (exists report,
      analyze_facility_availability (Some Examples.toilets) (Some ["Toilet"])
      = Ok (Some report)) /\
  analyze_facility_availability (Some Examples.toilets) (Some ["Toilet"; "Library"])
  = Raise (KeyError "Library").
Proof.
  split.
  - destruct (facility_cols_explicit Examples.toilets ["Toilet"]) as [Hok _].
    destruct Hok as (report & Hrun & _).
    + apply (bool_decide_unpack _). vm_compute. exact I.
    + eauto.
  - destruct (facility_cols_explicit Examples.toilets ["Toilet"; "Library"])
      as [_ Hraise].
    apply (Hraise ["Toilet"] "Library" []).
    + reflexivity.
    + apply (bool_decide_unpack _). vm_compute. exact I.
    + apply (bool_decide_unpack _). vm_compute. exact I.
Defined.

(** X6. Facility report, categorical columns: the frequencies reported
    for a column add up to the number of its cells that are not missing
    (missing cells are counted under no value), never more than the
    number of rows, and are listed from the most frequent value down. *)
Theorem facility_counts_add_up (df : DataFrame) (col : string)
    (report : gmap string facility_report) (table : list (cell * nat)) :
  analyze_facility_availability (Some df) None = Ok (Some report) ->
  report !! col = Some (Counts table) ->
  exists s,
    getitem df col = Ok s /\
    list_sum (map snd table) =
      length (List.filter (fun c => negb (is_missing c)) (values s)) /\
    (list_sum (map snd table) <= len df)%nat /\
    Sorted more_frequent table.
Proof.
  intros Hrun Hcol. simpl in Hrun.
  destruct (facility_loop df (facility_columns df) ∅) as [r|] eqn:Hloop;
    simpl in Hrun; [|discriminate].
  injection Hrun as <-.
  destruct (facility_loop_spec df (facility_columns df) ∅
              (facility_columns_are_columns df)) as (r' & Hr' & Hget).
  rewrite Hloop in Hr'. injection Hr' as <-.
  assert (Hin : col ∈ facility_columns df).
  { destruct (decide (col ∈ facility_columns df)) as [|Hn]; [assumption|].
    rewrite (facility_loop_other _ _ _ _ _ Hloop Hn), lookup_empty in Hcol.
    discriminate. }
  assert (Hc : col ∈ columns df).
  { pose proof (facility_columns_are_columns df) as H.
    rewrite Forall_forall in H. auto. }
  destruct (getitem_Ok df col Hc) as (s & Hs & Hlen).
  exists s. split; [exact Hs|].
  rewrite (Hget col s Hs), decide_True in Hcol by exact Hin.
  injection Hcol as Hentry. unfold facility_entry in Hentry.
  destruct (decide (sdtype s ∈ [object; string_dtype])); [|discriminate].
  injection Hentry as <-.
  destruct (value_counts_total (values s)) as [Hsum Hsorted].
  split; [exact Hsum|]. split; [|exact Hsorted].
  rewrite Hsum, <- Hlen. apply filter_length_le.
Qed.

Lemma facility_counts_add_up_witness :
  exists report table,
    analyze_facility_availability (Some Examples.toilets) None = Ok (Some report) /\
    report !! "Water" = Some (Counts table) /\
    list_sum (map snd table) = 3%nat.
Proof.
  exists (<["Toilet" := Availability 2 (200 # 4)]>
            (<["Water" := Counts [(CText "yes", 2%nat); (CText "no", 1%nat)]]> ∅)),
         [(CText "yes", 2%nat); (CText "no", 1%nat)].
  split; [vm_compute; reflexivity|]. split; [vm_compute; reflexivity|].
  destruct (facility_counts_add_up Examples.toilets "Water"
              (<["Toilet" := Availability 2 (200 # 4)]>
                 (<["Water" := Counts [(CText "yes", 2%nat); (CText "no", 1%nat)]]> ∅))
              [(CText "yes", 2%nat); (CText "no", 1%nat)])
    as (s & Hs & Hsum & _).
  - vm_compute. reflexivity.
  - vm_compute. reflexivity.
  - reflexivity.
Defined.

End facility_more.

Section equity_facts.

Lemma Qsum_map_plus {C} (f g : C -> Q) (l : list C) :
  (Qsum (map (fun c => f c + g c) l) == Qsum (map f l) + Qsum (map g l))%Q.
Proof.
  induction l as [|c l IH]; simpl; [reflexivity|]. rewrite IH. ring.
Qed.

Lemma Qsum_map_zero {C} (l : list C) :
  (Qsum (map (fun _ : C => 0) l) == 0)%Q.
Proof. induction l as [|c l IH]; simpl; [reflexivity|]. rewrite IH. ring. Qed.

Lemma Qsum_map_ext {C} (f g : C -> Q) (l : list C) :
  (forall c, f c == g c)%Q -> (Qsum (map f l) == Qsum (map g l))%Q.
Proof.
  intros H. induction l as [|c l IH]; simpl; [reflexivity|]. now rewrite H, IH.
Qed.

(** Summing row by row and then down, or column by column and then
    across, gives the same total. *)
Lemma Qsum_exchange (v : list cell -> nat -> Q) (table : list (list cell))
    (ps : list nat) :
  (Qsum (map (fun row => Qsum (map (v row) ps)) table)
   == Qsum (map (fun p => Qsum (map (fun row => v row p) table)) ps))%Q.
Proof.
  induction table as [|row table IH]; simpl.
  - now rewrite Qsum_map_zero.
  - rewrite IH, <- Qsum_map_plus. reflexivity.
Qed.

Lemma positions_Forall2 (cols all : list string) (ps : list nat) :
  positions cols all = Ok ps ->
  Forall2 (fun c p => position c all = Some p) cols ps.
Proof.
  intros H. unfold positions in H. apply traverse_Forall2 in H.
  eapply Forall2_impl; [exact H|]. intros c p. simpl.
  destruct (position c all); congruence.
Qed.

Lemma traverse_reduced_value {C} (d : dtype) (f : C -> list cell)
    (l : list C) (xs : list Q) :
  traverse (fun c => x <- sum_cells (f c) ;; Ok (reduced d x))%result l = Ok xs ->
  xs = map (fun c => reduced d (Qsum (map cell_value (f c)))) l.
Proof.
  revert xs. induction l as [|c l IH]; simpl; intros xs.
  - now intros [= <-].
  - destruct (sum_cells (f c)) as [x|] eqn:Hx; simpl; [|discriminate].
    destruct (traverse _ l) as [xs'|]; simpl; [|discriminate].
    intros [= <-]. now rewrite (sum_cells_value _ _ Hx), (IH xs' eq_refl).
Qed.

Lemma Qsum_map_le {C} (f g : C -> Q) (l : list C) :
  (forall c, f c <= g c)%Q -> (Qsum (map f l) <= Qsum (map g l))%Q.
Proof.
  intros H. induction l as [|c l IH]; simpl; [apply Qle_refl|].
  now apply Qplus_le_compat.
Qed.

Lemma Qsum_member_le {C} (f : C -> Q) (x : C) (l : list C) :
  (forall c, 0 <= f c)%Q -> In x l -> (f x <= Qsum (map f l))%Q.
Proof.
  intros Hf. induction l as [|c l IH]; [intros []|].
  intros [->|Hin]; simpl.
  - rewrite <- (Qplus_0_r (f x)) at 1.
    apply Qplus_le_compat; [apply Qle_refl|now apply Qsum_nonneg].
  - rewrite <- (Qplus_0_l (f x)).
    apply Qplus_le_compat; [apply Hf|now apply IH].
Qed.

(** The total the equity ratio is made of: over every cell of every
    selected column, however many columns there are, when no sum leaves
    the 64-bit integers. *)
Lemma grand_total_is_total (df : DataFrame) (cols : list string) (q : Q) :
  sums_fit df cols ->
  grand_total df cols = Ok q -> (q == columns_total df cols)%Q.
Proof.
  intros Hfit. unfold grand_total, columns_total.
  assert (Hmulti :
            (ps <- positions cols (columns df) ;;
             xs <- sum_axis1 df cols ;;
             Ok (reduced (axis1_dtype df ps) (Qsum xs)))%result = Ok q ->
            (q == Qsum (map (column_total df) cols))%Q).
  { unfold sum_axis1.
    destruct (positions cols (columns df)) as [ps|] eqn:Hps; cbn [rbind];
      [|discriminate].
    destruct (traverse _ (rows df)) as [xs|] eqn:Hxs; cbn [rbind]; [|discriminate].
    intros [= <-]. apply traverse_reduced_value in Hxs.
    apply positions_Forall2 in Hps.
    set (v := fun (row : list cell) (p : nat) => cell_value (cell_at p row)).
    set (M := Qsum (map (fun row => Qsum (map (fun p => Qabs (v row p)) ps))
                      (rows df))).
    assert (HM : is_integer_dtype (axis1_dtype df ps) = true -> (M < two_63)%Q).
    { intros Hint.
      assert (Hall : forallb (fun c => is_integer_dtype (dtype_of df c)) cols = true).
      { unfold axis1_dtype in Hint.
        destruct (forallb _ ps) eqn:Hf; [|discriminate]. clear -Hps Hf.
        induction Hps as [|c p cs ps Hc _ IH]; [reflexivity|].
        simpl in *. apply andb_prop in Hf as [Hp Hf].
        unfold dtype_of at 1. rewrite Hc, Hp. now apply IH. }
      specialize (Hfit Hall).
      assert (HMeq : (M == columns_magnitude df cols)%Q).
      { unfold M, columns_magnitude.
        rewrite (Qsum_exchange (fun row p => Qabs (v row p))).
        clear -Hps. induction Hps as [|c p cs ps Hc _ IH]; simpl; [reflexivity|].
        rewrite IH. unfold column_magnitude at 2. rewrite Hc. reflexivity. }
      now rewrite HMeq. }
    assert (Hx : xs = map (fun row => Qsum (map (v row) ps)) (rows df)).
    { subst xs. apply map_ext_in. intros row Hrow. rewrite map_map.
      apply reduced_bounded with (m := M); [|exact HM].
      eapply Qle_trans; [apply Qabs_Qsum|].
      apply (Qsum_member_le (fun row => Qsum (map (fun p => Qabs (v row p)) ps)));
        [|exact Hrow].
      intros r. apply Qsum_nonneg. intros p. apply Qabs_nonneg. }
    rewrite Hx. rewrite reduced_bounded with (m := M); [| |exact HM].
    - rewrite (Qsum_exchange v).
      clear -Hps. induction Hps as [|c p cs ps Hc _ IH]; simpl; [reflexivity|].
      rewrite IH. unfold column_total at 2. rewrite Hc. reflexivity.
    - eapply Qle_trans; [apply Qabs_Qsum|].
      apply Qsum_map_le. intros row. apply Qabs_Qsum. }
  destruct cols as [|c [|c' cs]]; [exact Hmulti | | exact Hmulti].
  clear Hmulti. unfold getitem, series_sum.
  destruct (position c (columns df)) as [i|] eqn:Hi; cbn [rbind values sdtype];
    [|discriminate].
  destruct (sum_cells (map (cell_at i) (rows df))) as [x|] eqn:Hx; cbn [rbind];
    [|discriminate].
  intros [= <-]. apply sum_cells_value in Hx. subst x. rewrite map_map.
  rewrite reduced_bounded with
    (m := Qsum (map (fun row => Qabs (cell_value (cell_at i row))) (rows df))).
  - cbn [map Qsum]. unfold column_total. rewrite Hi. ring.
  - apply (Qabs_Qsum (fun row => cell_value (cell_at i row))).
  - intros Hint. apply (sums_fit_one df c i Hfit Hi).
    unfold dtype_of. now rewrite Hi.
Qed.

(** X7. Rural-urban ratio: when the table has a rural and an urban
    column and no sum over the cells of either kind leaves the 64-bit
    integers, the ratio is the total over every cell of every rural
    column divided by (the total over every cell of every urban column
    plus 1e-10), with one column as with several; without one of the two
    kinds the result holds no entry. *)
Theorem rural_urban_ratio_of_totals (df : DataFrame) (metrics : gmap string Q) :
  calculate_equity_indicators (Some df) = Ok (Some metrics) ->
  (rural_columns df <> [] -> urban_columns df <> [] ->
   sums_fit df (rural_columns df) -> sums_fit df (urban_columns df) ->
   exists ratio,
     metrics !! "rural_urban_ratio" = Some ratio /\
     (ratio == columns_total df (rural_columns df)
               / (columns_total df (urban_columns df) + eps))%Q) /\
  (rural_columns df = [] \/ urban_columns df = [] -> metrics = ∅).
Proof.
  unfold calculate_equity_indicators.
  destruct (rural_columns df) as [|r rs] eqn:Er.
  { intros [= <-]. split; [intros Hr; contradiction | reflexivity]. }
  destruct (urban_columns df) as [|u us] eqn:Eu.
  { intros [= <-]. split; [intros _ Hu; contradiction | reflexivity]. }
  destruct (grand_total df (r :: rs)) as [rt|] eqn:Hrt; cbn [rbind];
    [|intros [=]].
  destruct (grand_total df (u :: us)) as [ut|] eqn:Hut; cbn [rbind];
    [|intros [=]].
  intros [= <-]. split.
  - intros _ _ Hfr Hfu. exists (rt / (ut + eps))%Q.
    split; [apply lookup_insert_eq|].
    now rewrite (grand_total_is_total _ _ _ Hfr Hrt),
      (grand_total_is_total _ _ _ Hfu Hut).
  - intros [H|H]; discriminate.
Qed.

Lemma rural_urban_ratio_of_totals_witness :
  exists ratio,
    calculate_equity_indicators (Some MoreExamples.settlements)
    = Ok (Some (<["rural_urban_ratio" := ratio]> ∅)) /\
    (ratio == 9 / (3 + eps))%Q.
Proof.
  eexists. split; [vm_compute; reflexivity|].
  destruct (rural_urban_ratio_of_totals MoreExamples.settlements _ eq_refl)
    as [Hratio _].
  destruct Hratio as (ratio & Hlook & Heq);
    [discriminate | discriminate
     | intros _; vm_compute; reflexivity
     | intros _; vm_compute; reflexivity |].
  vm_compute in Hlook. injection Hlook as <-. reflexivity.
Defined.

End equity_facts.

Section empty_table.

Lemma filter_columns (f : string -> bool) (df : DataFrame) :
  Forall (fun c => c ∈ columns df) (List.filter f (columns df)).
Proof. apply Forall_forall. intros c Hc. now apply filter_elem in Hc. Qed.

Lemma reduced_zero (d : dtype) : reduced d 0 = 0%Q.
Proof. unfold reduced. now destruct (is_integer_dtype d). Qed.

Lemma grand_total_empty (df : DataFrame) (cols : list string) :
  rows df = [] ->
  Forall (fun c => c ∈ columns df) cols ->
  grand_total df cols = Ok 0%Q.
Proof.
  intros Hrows Hall.
  assert (Hmulti : (ps <- positions cols (columns df) ;;
                    xs <- sum_axis1 df cols ;;
                    Ok (reduced (axis1_dtype df ps) (Qsum xs)))%result = Ok 0%Q).
  { unfold sum_axis1. destruct (positions_Ok _ _ Hall) as [ps Hps].
    rewrite Hps, Hrows. cbn [rbind traverse Qsum]. now rewrite reduced_zero. }
  unfold grand_total. destruct cols as [|c [|c' cs]]; try exact Hmulti.
  clear Hmulti. apply Forall_cons in Hall as [Hc _].
  destruct (position_Some_elem _ _ Hc) as [i Hi].
  unfold getitem. rewrite Hi. cbn [rbind]. unfold series_sum.
  cbn [values sdtype]. rewrite Hrows. cbn [map sum_cells rbind].
  now rewrite reduced_zero.
Qed.

(** X8. A table without rows: no indicator raises or divides by zero.
    The teacher-student table is empty (or [None]), the rural-urban
    ratio, when there is one, is 0, and every facility entry is an empty
    frequency table or available = 0 with percentage 0. *)
Theorem empty_table_indicators (df : DataFrame) :
  rows df = [] ->
  (exists out,
      calculate_teacher_student_ratio (Some df) = Ok out /\
      (out = None \/ out = Some [])) /\
  (exists metrics,
      calculate_equity_indicators (Some df) = Ok (Some metrics) /\
      forall ratio, metrics !! "rural_urban_ratio" = Some ratio -> (ratio == 0)%Q) /\
  (exists report,
      analyze_facility_availability (Some df) None = Ok (Some report) /\
      forall c e, report !! c = Some e -> e = Counts [] \/ e = Availability 0 0%Q).
Proof.
  intros Hrows. split; [|split].
  - unfold calculate_teacher_student_ratio.
    destruct (teacher_columns df); [eauto|].
    destruct (student_columns df); [eauto|].
    destruct (first_present state_aliases (columns df)) as [state_col|] eqn:Hfp;
      [|eauto].
    assert (Hin : state_col ∈ columns df).
    { apply first_present_Some in Hfp as (? & ? & _ & H & _). exact H. }
    destruct (position_Some_elem _ _ Hin) as [i Hi].
    rewrite (groupby_one_eq df state_col i Hi). unfold rows_with.
    rewrite Hrows. simpl. eauto.
  - unfold calculate_equity_indicators.
    destruct (rural_columns df) as [|r rs] eqn:Er.
    { exists ∅. split; [reflexivity|]. intros ratio H.
      rewrite lookup_empty in H. discriminate. }
    destruct (urban_columns df) as [|u us] eqn:Eu.
    { exists ∅. split; [reflexivity|]. intros ratio H.
      rewrite lookup_empty in H. discriminate. }
    rewrite (grand_total_empty df (r :: rs) Hrows)
      by (rewrite <- Er; apply filter_columns).
    rewrite (grand_total_empty df (u :: us) Hrows)
      by (rewrite <- Eu; apply filter_columns).
    simpl. eexists. split; [reflexivity|]. intros ratio H.
    rewrite lookup_insert_eq in H. injection H as <-. reflexivity.
  - destruct (facility_loop_spec df (facility_columns df) ∅
                (facility_columns_are_columns df)) as (report & Hrun & Hget).
    exists report. split; [simpl; now rewrite Hrun|].
    intros c e Hc.
    destruct (decide (c ∈ facility_columns df)) as [Hin|Hn].
    + assert (Hcol : c ∈ columns df).
      { pose proof (facility_columns_are_columns df) as H.
        rewrite Forall_forall in H. auto. }
      destruct (position_Some_elem _ _ Hcol) as [i Hi].
      assert (Hs : getitem df c
                   = Ok {| sdtype := nth i (map snd (schema df)) object;
                           values := [] |}).
      { unfold getitem. now rewrite Hi, Hrows. }
      rewrite (Hget c _ Hs), decide_True in Hc by exact Hin.
      injection Hc as <-. unfold facility_entry, len. rewrite Hrows. simpl.
      destruct (decide (_ ∈ [object; string_dtype])); [left; reflexivity|].
      right. now destruct (decide (_ ∈ [int64; float64])).
    + rewrite (facility_loop_other _ _ _ _ _ Hrun Hn), lookup_empty in Hc.
      discriminate.
Qed.

Lemma empty_table_indicators_witness :
  calculate_teacher_student_ratio (Some MoreExamples.no_schools) = Ok (Some []) /\
  exists metrics,
    calculate_equity_indicators (Some MoreExamples.no_schools) = Ok (Some metrics) /\
    forall ratio, metrics !! "rural_urban_ratio" = Some ratio -> (ratio == 0)%Q.
Proof.
  split; [vm_compute; reflexivity|].
  destruct (empty_table_indicators MoreExamples.no_schools eq_refl)
    as (_ & Hequity & _).
  exact Hequity.
Defined.

End empty_table.

(** * Further properties of the clustering *)

Section setitem_facts.

Lemma position_app_new (label : string) (cols : list string) :
  position label cols = None ->
  position label (cols ++ [label]) = Some (length cols).
Proof.
  induction cols as [|c cs IH]; simpl.
  - now rewrite String.eqb_refl.
  - destruct (String.eqb c label); [discriminate|].
    destruct (position label cs); [discriminate|].
    intros _. now rewrite IH.
Qed.

Lemma position_app_other (label other : string) (cols : list string) :
  label <> other ->
  position label cols = None ->
  position label (cols ++ [other]) = None.
Proof.
  intros Hne. induction cols as [|c cs IH]; simpl.
  - destruct (String.eqb_spec other label); congruence.
  - destruct (String.eqb c label); [discriminate|].
    destruct (position label cs); [discriminate|].
    intros _. now rewrite IH.
Qed.

Lemma setitem_columns_present (df : DataFrame) (col : string) (d : dtype)
    (vals : list cell) :
  col ∈ columns df -> columns (setitem df col d vals) = columns df.
Proof.
  intros Hin. destruct (position_Some_elem _ _ Hin) as [i Hi].
  unfold setitem. rewrite Hi. unfold columns. simpl.
  rewrite list_fmap_insert. simpl. apply list_insert_id.
  now apply position_lookup.
Qed.

Lemma setitem_columns_absent (df : DataFrame) (col : string) (d : dtype)
    (vals : list cell) :
  col ∉ columns df -> columns (setitem df col d vals) = columns df ++ [col].
Proof.
  intros Hnot. unfold setitem. rewrite (proj2 (position_None _ _) Hnot).
  unfold columns. simpl. now rewrite map_app.
Qed.

(** [df[col]] after [df[col] = vals]. *)
Lemma getitem_setitem (df : DataFrame) (col : string) (d : dtype)
    (vals : list cell) :
  rows_fit df ->
  length vals = len df ->
  getitem (setitem df col d vals) col = Ok {| sdtype := d; values := vals |}.
Proof.
  intros Hfit Hlen. unfold getitem, setitem.
  destruct (position col (columns df)) as [i|] eqn:Hi.
  - pose proof (position_schema_lt _ _ _ Hi) as Hlt.
    assert (Hcols : columns {| schema := <[i := (col, d)]> (schema df);
                               rows := zip_with (fun row v => <[i := v]> row)
                                         (rows df) vals |} = columns df).
    { unfold columns. simpl. rewrite list_fmap_insert. simpl.
      apply list_insert_id. now apply position_lookup. }
    rewrite Hcols, Hi. simpl. f_equal. f_equal.
    + rewrite list_fmap_insert. simpl. rewrite nth_lookup.
      rewrite list_lookup_insert_eq by (now rewrite length_map). reflexivity.
    + clear Hcols Hi. unfold len in Hlen. revert vals Hlen.
      induction Hfit as [|row rs Hrow _ IH]; intros [|v vs] Hlen; simpl in *;
        try discriminate; [reflexivity|].
      f_equal; [|apply IH; lia].
      unfold cell_at. rewrite nth_lookup.
      rewrite list_lookup_insert_eq by lia. reflexivity.
  - assert (Hcols : columns {| schema := schema df ++ [(col, d)];
                               rows := zip_with (fun row v => row ++ [v])
                                         (rows df) vals |}
                    = columns df ++ [col]).
    { unfold columns. simpl. now rewrite map_app. }
    rewrite Hcols, (position_app_new _ _ Hi). simpl. f_equal.
    assert (Hn : length (columns df) = length (schema df))
      by (unfold columns; now rewrite length_map).
    f_equal.
    + rewrite map_app, nth_lookup, Hn. simpl.
      rewrite lookup_app_r by (rewrite length_map; lia).
      rewrite length_map, Nat.sub_diag. reflexivity.
    + rewrite Hn. clear Hcols Hi Hn. unfold len in Hlen. revert vals Hlen.
      induction Hfit as [|row rs Hrow _ IH]; intros [|v vs] Hlen; simpl in *;
        try discriminate; [reflexivity|].
      f_equal; [|apply IH; lia].
      unfold cell_at. rewrite nth_lookup.
      rewrite lookup_app_r by lia. rewrite Hrow, Nat.sub_diag. reflexivity.
Qed.

(** [df[other]] is not changed by [df[col] = vals]. *)
Lemma getitem_setitem_other (df : DataFrame) (col other : string) (d : dtype)
    (vals : list cell) :
  rows_fit df ->
  length vals = len df ->
  other <> col ->
  getitem (setitem df col d vals) other = getitem df other.
Proof.
  intros Hfit Hlen Hne. unfold getitem, setitem.
  destruct (position col (columns df)) as [i|] eqn:Hi.
  - assert (Hcols : columns {| schema := <[i := (col, d)]> (schema df);
                               rows := zip_with (fun row v => <[i := v]> row)
                                         (rows df) vals |} = columns df).
    { unfold columns. simpl. rewrite list_fmap_insert. simpl.
      apply list_insert_id. now apply position_lookup. }
    rewrite Hcols. destruct (position other (columns df)) as [j|] eqn:Hj;
      [|reflexivity].
    assert (Hij : i <> j).
    { intros ->. apply position_lookup in Hi, Hj. congruence. }
    simpl. f_equal. f_equal.
    + rewrite list_fmap_insert, !nth_lookup.
      now rewrite list_lookup_insert_ne.
    + clear -Hlen Hij. unfold len in Hlen. revert vals Hlen.
      induction (rows df) as [|row rs IH]; intros [|v vs] Hlen; simpl in *;
        try discriminate; [reflexivity|].
      f_equal; [|apply IH; lia].
      unfold cell_at. rewrite !nth_lookup.
      now rewrite list_lookup_insert_ne.
  - assert (Hcols : columns {| schema := schema df ++ [(col, d)];
                               rows := zip_with (fun row v => row ++ [v])
                                         (rows df) vals |}
                    = columns df ++ [col]).
    { unfold columns. simpl. now rewrite map_app. }
    rewrite Hcols. destruct (position other (columns df)) as [j|] eqn:Hj.
    + rewrite (position_app_l _ _ _ _ Hj). simpl.
      pose proof (position_schema_lt _ _ _ Hj) as Hlt.
      f_equal. f_equal.
      * rewrite map_app, !nth_lookup.
        rewrite lookup_app_l by (now rewrite length_map). reflexivity.
      * clear -Hlen Hlt Hfit. unfold len in Hlen. revert vals Hlen.
        induction Hfit as [|row rs Hrow _ IH]; intros [|v vs] Hlen; simpl in *;
          try discriminate; [reflexivity|].
        f_equal; [|apply IH; lia].
        unfold cell_at. rewrite !nth_lookup.
        rewrite lookup_app_l by lia. reflexivity.
    + now rewrite (position_app_other _ _ _ Hne Hj).
Qed.

End setitem_facts.

Section clustering_more.

Context `{Sklearn}.

(** Without a feature selection the run takes the first twenty numeric
    columns of the table. *)
Lemma clustering_default_features (ambient : rng) (threads : schedule) (l : loc) (df : DataFrame)
    (n_clusters : nat) (w : world) :
  heap w !! l = Some df ->
  perform_clustering_analysis ambient threads (Some l) n_clusters None w =
  perform_clustering_analysis ambient threads (Some l) n_clusters
    (Some (take 20 (number_columns df))) w.
Proof.
  intros Hl. unfold perform_clustering_analysis, bind, deref. now rewrite Hl.
Qed.

Lemma clustering_any_features (ambient : rng) (threads : schedule) (l : loc) (df : DataFrame)
    (n_clusters : nat) (features : option (list string)) (w : world) :
  heap w !! l = Some df ->
  exists chosen,
    perform_clustering_analysis ambient threads (Some l) n_clusters features w =
    perform_clustering_analysis ambient threads (Some l) n_clusters (Some chosen) w.
Proof.
  intros Hl. destruct features as [given|]; [now exists given|].
  exists (take 20 (number_columns df)). now apply clustering_default_features.
Qed.

(** What a successful run returns and leaves behind. *)
Lemma clustering_success (ambient : rng) (threads : schedule) (l : loc) (df : DataFrame)
    (n_clusters : nat) (features : list string) (w w1 : world)
    (out : option clustering) :
  heap w !! l = Some df ->
  perform_clustering_analysis ambient threads (Some l) n_clusters (Some features) w
  = (Ok out, w1) ->
  exists c X X_scaled,
    out = Some c /\
    feature_matrix df features = Ok X /\
    scaler_fit_transform X = Ok X_scaled /\
    length (clusters c) = len df /\
    w1 = {| heap := <[l := setitem df "cluster" int32 (label_cells (clusters c))]>
                      (heap w);
            stdout := stdout w |}.
Proof.
  intros Hl Hrun. rewrite (clustering_run _ _ _ _ _ _ _ Hl) in Hrun.
  destruct (feature_matrix df features) as [X|e] eqn:HX; simpl in Hrun;
    [|discriminate].
  destruct (scaler_fit_transform X) as [Xs|e] eqn:HXs; simpl in Hrun;
    [|discriminate].
  destruct (kmeans_fit n_clusters (RandomState 42) threads Xs) as [fit|e];
    simpl in Hrun; [|discriminate].
  destruct (decide (length (labels_ fit) = len df)) as [Hlen|]; [|discriminate].
  injection Hrun as <- <-. eexists _, X, Xs. simpl.
  repeat split; first [reflexivity | assumption].
Qed.

(** X9. A successful clustering run changes one thing: the table behind
    [self.df] gets the labels as its [cluster] column, of dtype int32,
    one label per row. Every other column of that table reads as before,
    the other objects of the store are untouched and nothing is printed. *)
Theorem clustering_writes_cluster_column (ambient : rng) (threads : schedule) (l : loc)
    (df : DataFrame) (n_clusters : nat) (features : option (list string))
    (w w1 : world) (out : option clustering) :
  well_formed df ->
  heap w !! l = Some df ->
  perform_clustering_analysis ambient threads (Some l) n_clusters features w
  = (Ok out, w1) ->
  exists c df1,
    out = Some c /\
    heap w1 = <[l := df1]> (heap w) /\
    stdout w1 = stdout w /\
    len df1 = len df /\
    length (clusters c) = len df /\
    getitem df1 "cluster"
    = Ok {| sdtype := int32; values := label_cells (clusters c) |} /\
    forall col, col <> "cluster" -> getitem df1 col = getitem df col.
Proof.
  intros [_ Hfit] Hl Hrun.
  destruct (clustering_any_features ambient threads l df n_clusters features w Hl)
    as [chosen Heq].
  rewrite Heq in Hrun.
  destruct (clustering_success _ _ _ _ _ _ _ _ _ Hl Hrun)
    as (c & X & Xs & -> & _ & _ & Hlen & ->).
  assert (Hcells : length (label_cells (clusters c)) = len df)
    by (unfold label_cells; now rewrite length_map).
  eexists _, _. split; [reflexivity|]. simpl.
  split; [reflexivity|]. split; [reflexivity|].
  split; [now apply setitem_len|]. split; [exact Hlen|].
  split; [now apply getitem_setitem|].
  intros col Hne. now apply getitem_setitem_other.
Qed.

(** X10. A clustering run that raises leaves the store as it was: the
    [cluster] column is written only after the fit has succeeded. *)
Theorem clustering_failure_leaves_store (ambient : rng) (threads : schedule) (self_df : option loc)
    (n_clusters : nat) (features : option (list string)) (w w1 : world)
    (e : exn) :
  perform_clustering_analysis ambient threads self_df n_clusters features w
  = (Raise e, w1) ->
  w1 = w.
Proof.
  destruct self_df as [l|]; [|discriminate].
  destruct (heap w !! l) as [df|] eqn:Hl.
  - destruct (clustering_any_features ambient threads l df n_clusters features w Hl)
      as [chosen Heq].
    rewrite Heq, (clustering_run _ _ _ _ _ _ _ Hl).
    destruct (X <- feature_matrix df chosen ;;
              X_scaled <- scaler_fit_transform X ;;
              kmeans_fit n_clusters (RandomState 42) threads X_scaled)%result
      as [fit|e'].
    + destruct (decide (length (labels_ fit) = len df)); [discriminate|].
      now intros [= _ <-].
    + now intros [= _ <-].
  - unfold perform_clustering_analysis, bind, deref. rewrite Hl.
    now intros [= _ <-].
Qed.

Lemma traverse_app {A B} (f : A -> result B) (l1 l2 : list A)
    (b1 b2 : list B) :
  traverse f l1 = Ok b1 -> traverse f l2 = Ok b2 ->
  traverse f (l1 ++ l2) = Ok (b1 ++ b2).
Proof.
  revert b1. induction l1 as [|a l1 IH]; simpl; intros b1.
  - now intros [= <-].
  - destruct (f a) as [b|]; simpl; [|discriminate].
    destruct (traverse f l1) as [bs|]; simpl; [|discriminate].
    intros [= <-] H2. now rewrite (IH bs eq_refl H2).
Qed.

Lemma number_columns_are_columns (df : DataFrame) :
  Forall (fun c => c ∈ columns df) (number_columns df).
Proof.
  unfold number_columns, columns. apply Forall_forall. intros c Hc.
  apply list_elem_of_fmap in Hc as (cd & -> & Hcd).
  apply list_elem_of_fmap. exists cd. split; [reflexivity|].
  apply list_elem_of_In in Hcd. apply filter_In in Hcd as [Hcd _].
  now apply list_elem_of_In.
Qed.

(** The matrix of the features followed by [cluster], on the table the
    first run left: the matrix of the features, each row followed by
    its label. *)
Lemma feature_matrix_with_cluster (df : DataFrame) (features : list string)
    (labels : list nat) (X : list (list Q)) :
  rows_fit df ->
  "cluster" ∉ columns df ->
  length labels = len df ->
  feature_matrix df features = Ok X ->
  feature_matrix (setitem df "cluster" int32 (label_cells labels))
    (features ++ ["cluster"])
  = Ok (zip_with (fun x c => x ++ [of_nat c]) X labels).
Proof.
  intros Hfit Hnot Hlen HX. unfold feature_matrix in *.
  rewrite (setitem_columns_absent _ _ _ _ Hnot).
  destruct (positions features (columns df)) as [ps|] eqn:Hps; simpl in HX;
    [|discriminate].
  assert (Hfound : Forall2 (fun c p => position c (columns df) = Some p) features ps).
  { unfold positions in Hps. apply traverse_Forall2 in Hps.
    eapply Forall2_impl; [exact Hps|]. intros c p. simpl.
    destruct (position c (columns df)); congruence. }
  assert (Hlt : Forall (fun p => p < length (schema df))%nat ps).
  { clear -Hfound. induction Hfound as [|c p cs ps Hc _ IH]; constructor; auto.
    now apply position_schema_lt in Hc. }
  assert (Hps' : positions (features ++ ["cluster"]) (columns df ++ ["cluster"])
                 = Ok (ps ++ [length (schema df)])).
  { unfold positions. apply traverse_app.
    - rewrite <- Hps. unfold positions. apply traverse_ext.
      clear -Hfound. induction Hfound as [|c p cs ps Hc _ IH]; constructor; auto.
      simpl. rewrite Hc. now rewrite (position_app_l _ _ _ _ Hc).
    - simpl. rewrite (position_app_new _ _ (proj2 (position_None _ _) Hnot)).
      unfold columns. now rewrite length_map. }
  rewrite Hps'. simpl. unfold setitem.
  rewrite (proj2 (position_None _ _) Hnot). simpl.
  clear Hps Hps' Hfound Hnot. unfold len in Hlen. revert X labels Hlen HX.
  induction Hfit as [|row rs Hrow _ IH]; intros X [|c cs] Hlen HX; simpl in *;
    try discriminate.
  - injection HX as <-. reflexivity.
  - destruct (traverse as_float (map (fun i => fillna0 (cell_at i row)) ps))
      as [x|] eqn:Hx; simpl in HX; [|discriminate].
    destruct (traverse (traverse as_float)
                (map (fun row => map (fun i => fillna0 (cell_at i row)) ps) rs))
      as [xs|] eqn:Hxs; simpl in HX; [|discriminate].
    injection HX as <-.
    rewrite map_app.
    assert (Hrow' : traverse as_float
                      (map (fun i => fillna0 (cell_at i (row ++ [CNum (of_nat c)]))) ps
                       ++ map (fun i => fillna0 (cell_at i (row ++ [CNum (of_nat c)])))
                            [length (schema df)])
                    = Ok (x ++ [of_nat c])).
    { apply traverse_app.
      - rewrite <- Hx. f_equal. apply map_ext_Forall.
        eapply Forall_impl; [exact Hlt|]. intros p Hp. simpl in *.
        unfold cell_at. rewrite !nth_lookup.
        rewrite lookup_app_l by lia. reflexivity.
      - simpl. unfold cell_at. rewrite nth_lookup.
        rewrite lookup_app_r by lia. rewrite Hrow, Nat.sub_diag. reflexivity. }
    rewrite Hrow'. simpl.
    rewrite (IH xs cs) by (first [lia | reflexivity]). reflexivity.
Qed.

(** X11. After a successful run with the default features on a table
    that had no [cluster] column and fewer than twenty numeric columns,
    the default features of the next run are the previous ones followed
    by [cluster]: the next run clusters on the labels of the first. *)
Theorem clustering_default_takes_cluster_next (ambient : rng) (threads : schedule) (l : loc)
    (df : DataFrame) (n_clusters : nat) (w w1 : world)
    (out : option clustering) :
  well_formed df ->
  heap w !! l = Some df ->
  "cluster" ∉ columns df ->
  (length (number_columns df) < 20)%nat ->
  perform_clustering_analysis ambient threads (Some l) n_clusters None w
  = (Ok out, w1) ->
  exists c df1 X,
    out = Some c /\
    heap w1 !! l = Some df1 /\
    take 20 (number_columns df1) = number_columns df ++ ["cluster"] /\
    feature_matrix df (number_columns df) = Ok X /\
    feature_matrix df1 (take 20 (number_columns df1))
    = Ok (zip_with (fun x label => x ++ [of_nat label]) X (clusters c)).
Proof.
  intros [_ Hfit] Hl Hnot Hfew Hrun.
  rewrite (clustering_default_features _ _ _ _ _ _ Hl) in Hrun.
  rewrite take_ge in Hrun by lia.
  destruct (clustering_success _ _ _ _ _ _ _ _ _ Hl Hrun)
    as (c & X & Xs & -> & HX & _ & Hlen & ->).
  assert (Hnum : number_columns (setitem df "cluster" int32 (label_cells (clusters c)))
                 = number_columns df ++ ["cluster"]).
  { unfold setitem. rewrite (proj2 (position_None _ _) Hnot).
    unfold number_columns. simpl. rewrite List.filter_app, map_app. reflexivity. }
  eexists c, _, X. split; [reflexivity|]. simpl.
  split; [apply lookup_insert_eq|].
  rewrite Hnum, take_ge by (rewrite length_app; simpl; lia).
  split; [reflexivity|]. split; [exact HX|].
  now apply feature_matrix_with_cluster.
Qed.

End clustering_more.

Lemma clustering_writes_cluster_column_witness :
  exists c df1,
    heap (snd (@perform_clustering_analysis MoreExamples.one_cluster tt tt
                 (Some 0%nat) 1 None MoreExamples.analyzer_world))
    = <[0%nat := df1]> (heap MoreExamples.analyzer_world) /\
    getitem df1 "cluster"
    = Ok {| sdtype := int32; values := label_cells (clusters c) |} /\
    clusters c = [0%nat; 0%nat].
Proof.
  destruct (@clustering_writes_cluster_column MoreExamples.one_cluster tt tt
              0%nat MoreExamples.two_schools 1 None
              MoreExamples.analyzer_world
              (snd (@perform_clustering_analysis MoreExamples.one_cluster tt tt
                      (Some 0%nat) 1 None MoreExamples.analyzer_world))
              (Some {| clusters := [0%nat; 0%nat]; cluster_centers := [];
                       inertia := 0%Q |}))
    as (c & df1 & Hout & Hheap & _ & _ & _ & Hcol & _).
  - split; [apply (bool_decide_unpack _); vm_compute; exact I|repeat constructor].
  - reflexivity.
  - vm_compute. reflexivity.
  - exists c, df1. split; [exact Hheap|]. split; [exact Hcol|].
    now injection Hout as <-.
Defined.

Lemma clustering_failure_leaves_store_witness :
  @perform_clustering_analysis MoreExamples.one_cluster tt tt
    (Some 0%nat) 1 (Some ["State"]) MoreExamples.analyzer_world
  = (Raise ValueError, MoreExamples.analyzer_world).
Proof.
  assert (Hrun : exists w1,
             @perform_clustering_analysis MoreExamples.one_cluster tt tt
               (Some 0%nat) 1 (Some ["State"]) MoreExamples.analyzer_world
             = (Raise ValueError, w1)).
  { eexists. vm_compute. reflexivity. }
  destruct Hrun as [w1 Hrun]. rewrite Hrun. f_equal.
  exact (@clustering_failure_leaves_store MoreExamples.one_cluster tt tt
           (Some 0%nat) 1 (Some ["State"]) MoreExamples.analyzer_world w1
           ValueError Hrun).
Defined.

Lemma clustering_default_takes_cluster_next_witness :
  exists c df1,
    heap (snd (@perform_clustering_analysis MoreExamples.one_cluster tt tt
                 (Some 0%nat) 1 None MoreExamples.analyzer_world)) !! 0%nat
    = Some df1 /\
    take 20 (number_columns df1) = ["Students"; "cluster"] /\
    @feature_matrix MoreExamples.one_cluster df1 (take 20 (number_columns df1))
    = Ok (zip_with (fun x label => x ++ [of_nat label]) [[10%Q]; [20%Q]]
            (clusters c)).
Proof.
  destruct (@clustering_default_takes_cluster_next MoreExamples.one_cluster tt tt
              0%nat MoreExamples.two_schools 1
              MoreExamples.analyzer_world
              (snd (@perform_clustering_analysis MoreExamples.one_cluster tt tt
                      (Some 0%nat) 1 None MoreExamples.analyzer_world))
              (Some {| clusters := [0%nat; 0%nat]; cluster_centers := [];
                       inertia := 0%Q |}))
    as (c & df1 & X & _ & Hheap & Htake & HX & Hnext).
  - split; [apply (bool_decide_unpack _); vm_compute; exact I|repeat constructor].
  - reflexivity.
  - apply (bool_decide_unpack _). vm_compute. exact I.
  - vm_compute. lia.
  - vm_compute. reflexivity.
  - exists c, df1. split; [exact Hheap|]. split; [exact Htake|].
    rewrite Hnext. f_equal. f_equal.
    vm_compute in HX. now injection HX as <-.
Defined.

(** * [clean_data] *)

Section selection_of_columns.

Lemma select_columns (df : DataFrame) (keep : list nat) :
  columns (select_positions df keep)
  = map (fun i => nth i (columns df) "") keep.
Proof.
  unfold columns, select_positions. simpl. rewrite map_map.
  apply map_ext. intros i. symmetry.
  exact (map_nth fst (schema df) ("", object) i).
Qed.

Lemma nth_label_lookup (cols : list string) (k : nat) :
  (k < length cols)%nat -> cols !! k = Some (nth k cols "").
Proof.
  intros Hk. rewrite nth_lookup.
  destruct (lookup_lt_is_Some_2 cols k Hk) as [c Hc]. now rewrite Hc.
Qed.

Lemma position_selected (cols : list string) (keep : list nat) (col : string)
    (i : nat) :
  NoDup cols ->
  Forall (fun k => k < length cols)%nat keep ->
  position col cols = Some i ->
  i ∈ keep ->
  exists p, position col (map (fun k => nth k cols "") keep) = Some p /\
            keep !! p = Some i.
Proof.
  intros Hnd Hlt Hi. apply position_lookup in Hi.
  induction Hlt as [|k ks Hk _ IH]; intros Hin; [inversion Hin|].
  simpl. destruct (String.eqb_spec (nth k cols "") col) as [Heq|Hne].
  - exists 0%nat. split; [reflexivity|]. simpl. f_equal.
    apply nth_label_lookup in Hk. rewrite Heq in Hk.
    exact (NoDup_lookup _ _ _ _ Hnd Hk Hi).
  - apply elem_of_cons in Hin as [->|Hin].
    + exfalso. apply Hne. rewrite nth_lookup, Hi. reflexivity.
    + destruct (IH Hin) as (p & Hp & Hkp). exists (S p).
      rewrite Hp. split; reflexivity || exact Hkp.
Qed.

Lemma position_not_selected (cols : list string) (keep : list nat)
    (col : string) :
  NoDup cols ->
  Forall (fun k => k < length cols)%nat keep ->
  (forall i, position col cols = Some i -> i ∉ keep) ->
  position col (map (fun k => nth k cols "") keep) = None.
Proof.
  intros Hnd Hlt Hout. apply position_None. intros Hin.
  apply list_elem_of_fmap in Hin as (k & Hcol & Hk).
  rewrite Forall_forall in Hlt. pose proof (Hlt k Hk) as Hklt.
  apply nth_label_lookup in Hklt. rewrite <- Hcol in Hklt.
  assert (Hc : col ∈ cols) by (eapply list_elem_of_lookup_2; exact Hklt).
  destruct (position_Some_elem _ _ Hc) as [i Hi].
  apply (Hout i Hi). apply position_lookup in Hi.
  now rewrite (NoDup_lookup _ _ _ _ Hnd Hi Hklt).
Qed.

Lemma columns_length (df : DataFrame) :
  length (columns df) = length (schema df).
Proof. unfold columns. apply length_map. Qed.

(** A selected column reads as in the table. *)
Lemma getitem_select_kept (df : DataFrame) (keep : list nat) (col : string)
    (i : nat) :
  NoDup (columns df) ->
  Forall (fun k => k < length (schema df))%nat keep ->
  position col (columns df) = Some i ->
  i ∈ keep ->
  getitem (select_positions df keep) col = getitem df col.
Proof.
  intros Hnd Hlt Hi Hin. rewrite <- columns_length in Hlt.
  destruct (position_selected _ _ _ _ Hnd Hlt Hi Hin) as (p & Hp & Hkp).
  unfold getitem. rewrite select_columns, Hp, Hi. f_equal. f_equal.
  - unfold select_positions. simpl. rewrite map_map, nth_lookup.
    rewrite list_lookup_fmap, Hkp. simpl.
    exact (eq_sym (map_nth snd (schema df) ("", object) i)).
  - unfold select_positions. simpl. rewrite map_map. apply map_ext.
    intros row. unfold cell_at at 1. rewrite nth_lookup.
    rewrite list_lookup_fmap, Hkp. reflexivity.
Qed.

Lemma getitem_select_dropped (df : DataFrame) (keep : list nat) (col : string) :
  NoDup (columns df) ->
  Forall (fun k => k < length (schema df))%nat keep ->
  (forall i, position col (columns df) = Some i -> i ∉ keep) ->
  getitem (select_positions df keep) col = Raise (KeyError col).
Proof.
  intros Hnd Hlt Hout. rewrite <- columns_length in Hlt.
  unfold getitem.
  now rewrite select_columns, (position_not_selected _ _ _ Hnd Hlt Hout).
Qed.

Lemma select_NoDup (df : DataFrame) (keep : list nat) :
  NoDup (columns df) ->
  NoDup keep ->
  Forall (fun k => k < length (schema df))%nat keep ->
  NoDup (columns (select_positions df keep)).
Proof.
  intros Hnd Hkeep Hlt. rewrite <- columns_length in Hlt.
  rewrite select_columns. apply NoDup_fmap_2_strong; [|exact Hkeep].
  intros x y Hx Hy Heq. rewrite Forall_forall in Hlt.
  pose proof (nth_label_lookup _ _ (Hlt x Hx)) as Hlx.
  pose proof (nth_label_lookup _ _ (Hlt y Hy)) as Hly.
  rewrite Heq in Hlx. exact (NoDup_lookup _ _ _ _ Hnd Hlx Hly).
Qed.

Lemma select_rows_fit (df : DataFrame) (keep : list nat) :
  rows_fit (select_positions df keep).
Proof.
  unfold rows_fit, select_positions. simpl. apply Forall_forall.
  intros row Hrow. apply list_elem_of_fmap in Hrow as (r & -> & _).
  now rewrite !length_map.
Qed.

Lemma select_columns_subset (df : DataFrame) (keep : list nat) :
  Forall (fun k => k < length (schema df))%nat keep ->
  columns (select_positions df keep) ⊆ columns df.
Proof.
  intros Hlt c Hc. rewrite <- columns_length in Hlt.
  rewrite select_columns in Hc.
  apply list_elem_of_fmap in Hc as (k & -> & Hk).
  rewrite Forall_forall in Hlt.
  eapply list_elem_of_lookup_2. apply nth_label_lookup. auto.
Qed.

End selection_of_columns.

Section coercion.

Context `{ToNumeric}.

Lemma to_numeric_length (s : Series) :
  length (values (to_numeric s)) = length (values s).
Proof. unfold to_numeric. simpl. apply length_map. Qed.

Lemma getitem_values_length (df : DataFrame) (col : string) (s : Series) :
  getitem df col = Ok s -> length (values s) = len df.
Proof.
  unfold getitem. destruct (position col (columns df)); [|discriminate].
  intros [= <-]. simpl. apply length_map.
Qed.

Lemma getitem_Ok_elem (df : DataFrame) (col : string) (s : Series) :
  getitem df col = Ok s -> col ∈ columns df.
Proof.
  unfold getitem. destruct (position col (columns df)) as [i|] eqn:Hi;
    [|discriminate].
  intros _. eapply list_elem_of_lookup_2. apply position_lookup. exact Hi.
Qed.

(** On a table whose labels are distinct, the guarded conversion is the
    assignment of the converted column. *)
Lemma try_coerce_present (df : DataFrame) (col : string) (s : Series) :
  NoDup (columns df) ->
  getitem df col = Ok s ->
  try_coerce df col
  = setitem df col (sdtype (to_numeric s)) (values (to_numeric s)).
Proof.
  intros Hnd Hs. unfold try_coerce, coerce_column.
  pose proof (occurrences_NoDup col _ Hnd).
  destruct (decide (1 < occurrences col (columns df))%nat); [lia|].
  now rewrite Hs.
Qed.

Lemma try_coerce_absent (df : DataFrame) (col : string) :
  col ∉ columns df -> try_coerce df col = df.
Proof.
  intros Hnot. unfold try_coerce, coerce_column.
  destruct (decide (1 < occurrences col (columns df))%nat); [reflexivity|].
  unfold getitem. now rewrite (proj2 (position_None _ _) Hnot).
Qed.

Lemma setitem_rows_fit (df : DataFrame) (col : string) (d : dtype)
    (vals : list cell) :
  rows_fit df -> rows_fit (setitem df col d vals).
Proof.
  unfold rows_fit, setitem. intros Hfit.
  destruct (position col (columns df)) as [i|]; simpl.
  - rewrite length_insert. revert vals.
    induction Hfit as [|row rs Hrow _ IH]; intros [|v vs]; simpl;
      constructor; auto.
    now rewrite length_insert.
  - rewrite length_app. simpl. revert vals.
    induction Hfit as [|row rs Hrow _ IH]; intros [|v vs]; simpl;
      constructor; auto.
    rewrite length_app. simpl. lia.
Qed.

(** What one step of the loop keeps and changes. *)
Lemma try_coerce_step (df : DataFrame) (col : string) :
  NoDup (columns df) ->
  rows_fit df ->
  columns (try_coerce df col) = columns df /\
  rows_fit (try_coerce df col) /\
  len (try_coerce df col) = len df /\
  (forall other, other <> col ->
     getitem (try_coerce df col) other = getitem df other) /\
  getitem (try_coerce df col) col
  = (s <- getitem df col ;; Ok (to_numeric s))%result.
Proof.
  intros Hnd Hfit.
  destruct (getitem df col) as [s|e] eqn:Hs.
  - pose proof (getitem_Ok_elem _ _ _ Hs) as Hin.
    assert (Hlen : length (values (to_numeric s)) = len df).
    { rewrite to_numeric_length. now apply getitem_values_length in Hs. }
    rewrite (try_coerce_present _ _ _ Hnd Hs).
    split; [now apply setitem_columns_present|].
    split; [now apply setitem_rows_fit|].
    split; [now apply setitem_len|].
    split; [intros other Hne; now apply getitem_setitem_other|].
    cbn [rbind]. rewrite (getitem_setitem _ _ _ _ Hfit Hlen).
    reflexivity.
  - assert (Hnot : col ∉ columns df).
    { intros Hin. destruct (getitem_Ok _ _ Hin) as (s & Hs' & _). congruence. }
    rewrite (try_coerce_absent _ _ Hnot). rewrite Hs. auto.
Qed.

(** The loop converts the listed columns and leaves the others. *)
Lemma coerce_loop (todo : list string) (df : DataFrame) :
  NoDup (columns df) ->
  rows_fit df ->
  NoDup todo ->
  columns (foldl try_coerce df todo) = columns df /\
  rows_fit (foldl try_coerce df todo) /\
  len (foldl try_coerce df todo) = len df /\
  forall col,
    getitem (foldl try_coerce df todo) col
    = if decide (col ∈ todo)
      then (s <- getitem df col ;; Ok (to_numeric s))%result
      else getitem df col.
Proof.
  intros Hnd Hfit Htodo. revert df Hnd Hfit.
  induction Htodo as [|t todo Ht _ IH]; intros df Hnd Hfit.
  - simpl. split; [reflexivity|]. split; [exact Hfit|]. split; [reflexivity|].
    intros col.
    destruct (decide (col ∈ [])) as [Hin|]; [inversion Hin|reflexivity].
  - destruct (try_coerce_step df t Hnd Hfit) as (Hc & Hf & Hl & Hother & Hsame).
    destruct (IH (try_coerce df t)) as (Hc' & Hf' & Hl' & Hget);
      [now rewrite Hc|exact Hf|].
    simpl. rewrite Hc', Hl'. split; [exact Hc|]. split; [exact Hf'|].
    split; [exact Hl|]. intros col. rewrite Hget.
    destruct (decide (col = t)) as [->|Hne].
    + rewrite decide_False by exact Ht.
      rewrite decide_True by left. exact Hsame.
    + rewrite (Hother col Hne).
      destruct (decide (col ∈ todo)) as [Hin|Hnin].
      * rewrite decide_True by (now right).
        reflexivity.
      * rewrite decide_False; [reflexivity|].
        intros Hin. apply elem_of_cons in Hin as [?|?]; contradiction.
Qed.

Lemma object_columns_NoDup (df : DataFrame) :
  NoDup (columns df) -> NoDup (object_columns df).
Proof.
  unfold columns, object_columns.
  induction (schema df) as [|[c d] rest IH]; simpl; [constructor|].
  intros Hnd. apply NoDup_cons in Hnd as [Hc Hnd].
  destruct (bool_decide (d = object)); simpl; [|auto].
  apply NoDup_cons. split; [|auto]. intros Hin. apply Hc.
  apply list_elem_of_fmap in Hin as (cd & -> & Hcd).
  apply list_elem_of_fmap. exists cd. split; [reflexivity|].
  apply list_elem_of_In in Hcd. apply filter_In in Hcd as [Hcd _].
  now apply list_elem_of_In.
Qed.

(** With distinct labels, the object columns are the columns whose
    dtype is object. *)
Lemma object_columns_dtype (df : DataFrame) (col : string) (s : Series) :
  NoDup (columns df) ->
  getitem df col = Ok s ->
  col ∈ object_columns df <-> sdtype s = object.
Proof.
  unfold getitem, columns, object_columns. intros Hnd.
  destruct (position col (map fst (schema df))) as [i|] eqn:Hi; [|discriminate].
  intros [= <-]. simpl. clear -Hnd Hi. revert i Hi.
  induction (schema df) as [|[c d] rest IH]; simpl; [discriminate|].
  apply NoDup_cons in Hnd as [Hc Hnd]. intros i.
  destruct (String.eqb_spec c col) as [->|Hne].
  - intros [= <-]. simpl. destruct (bool_decide_reflect (d = object)) as [->|Hd].
    + split; [reflexivity|]. intros _. left.
    + split; [|contradiction]. intros Hin. exfalso. apply Hc.
      apply list_elem_of_fmap in Hin as (cd & -> & Hcd).
      apply list_elem_of_fmap. exists cd. split; [reflexivity|].
      apply list_elem_of_In in Hcd. apply filter_In in Hcd as [Hcd _].
      now apply list_elem_of_In.
  - destruct (position col (map fst rest)) as [p|] eqn:Hp; simpl; [|discriminate].
    intros [= <-]. simpl. rewrite <- (IH Hnd p eq_refl).
    destruct (bool_decide (d = object)); simpl; [|reflexivity].
    rewrite elem_of_cons. split; [intros [?|?]; [congruence|assumption]|auto].
Qed.

End coercion.

Section cleaning_facts.

Context `{ToNumeric}.

Lemma kept_column (df : DataFrame) (i : nat) :
  i ∈ List.filter (fun i => some_present (map (cell_at i) (rows df)))
        (column_positions df)
  <-> (i < length (schema df))%nat /\
      some_present (map (cell_at i) (rows df)) = true.
Proof.
  rewrite list_elem_of_In, filter_In. unfold column_positions.
  rewrite in_seq. split; intros [? ?]; split; auto; lia.
Qed.

Lemma kept_columns_lt (df : DataFrame) :
  Forall (fun k => k < length (schema df))%nat
    (List.filter (fun i => some_present (map (cell_at i) (rows df)))
       (column_positions df)).
Proof. apply Forall_forall. intros i Hi. now apply kept_column in Hi. Qed.

Lemma filter_NoDup {A} (f : A -> bool) (l : list A) :
  NoDup l -> NoDup (List.filter f l).
Proof.
  induction 1 as [|x l Hx _ IH]; simpl; [constructor|].
  destruct (f x); [|exact IH]. constructor; [|exact IH].
  intros Hin. apply Hx. apply list_elem_of_In in Hin.
  apply filter_In in Hin as [Hin _]. now apply list_elem_of_In.
Qed.

Lemma kept_columns_NoDup (df : DataFrame) :
  NoDup (List.filter (fun i => some_present (map (cell_at i) (rows df)))
           (column_positions df)).
Proof. apply filter_NoDup, NoDup_seq. Qed.

(** [dropna(axis=1, how='all')], column by column. *)
Lemma dropna_columns_getitem (df : DataFrame) (col : string) :
  NoDup (columns df) ->
  getitem (dropna_columns df) col
  = match getitem df col with
    | Ok s => if some_present (values s) then Ok s else Raise (KeyError col)
    | Raise e => Raise e
    end.
Proof.
  intros Hnd. unfold dropna_columns.
  destruct (position col (columns df)) as [i|] eqn:Hi.
  - assert (Hs : getitem df col
                 = Ok {| sdtype := nth i (map snd (schema df)) object;
                         values := map (cell_at i) (rows df) |})
      by (unfold getitem; now rewrite Hi).
    rewrite Hs. simpl.
    destruct (some_present (map (cell_at i) (rows df))) eqn:Hp.
    + rewrite <- Hs. apply (getitem_select_kept df _ col i Hnd);
        [apply kept_columns_lt|exact Hi|].
      apply kept_column. split; [now apply position_schema_lt in Hi|exact Hp].
    + apply getitem_select_dropped; [exact Hnd|apply kept_columns_lt|].
      intros i' Hi' Hin. assert (i' = i) by congruence. subst i'.
      apply kept_column in Hin as [_ Hin]. congruence.
  - assert (Hs : getitem df col = Raise (KeyError col))
      by (unfold getitem; now rewrite Hi).
    rewrite Hs. apply getitem_select_dropped;
      [exact Hnd|apply kept_columns_lt|congruence].
Qed.

(** [clean_data], column by column: a column that has no value outside
    the empty rows is dropped, a column of objects is converted, and any
    other column loses the empty rows and nothing else. *)
Lemma clean_column (df : DataFrame) :
  NoDup (columns df) ->
  exists cleaned,
    clean_data (Some df) = Some cleaned /\
    NoDup (columns cleaned) /\
    rows_fit cleaned /\
    len cleaned = len (dropna_rows df) /\
    columns cleaned ⊆ columns df /\
    forall col,
      getitem cleaned col
      = match getitem (dropna_rows df) col with
        | Ok s =>
            if some_present (values s)
            then Ok (if decide (sdtype s = object) then to_numeric s else s)
            else Raise (KeyError col)
        | Raise e => Raise e
        end.
Proof.
  intros Hnd. eexists. split; [reflexivity|].
  set (df1 := dropna_rows df). set (df2 := dropna_columns df1).
  assert (Hnd1 : NoDup (columns df1)) by exact Hnd.
  assert (Hnd2 : NoDup (columns df2)).
  { apply select_NoDup;
      [exact Hnd1|apply kept_columns_NoDup|apply kept_columns_lt]. }
  assert (Hfit2 : rows_fit df2) by apply select_rows_fit.
  destruct (coerce_loop (object_columns df2) df2 Hnd2 Hfit2
              (object_columns_NoDup df2 Hnd2)) as (Hc & Hf & Hl & Hget).
  split; [now rewrite Hc|]. split; [exact Hf|].
  split; [rewrite Hl; unfold df2, dropna_columns, select_positions, len;
          simpl; apply length_map|].
  split.
  { rewrite Hc. unfold df2, dropna_columns.
    apply (select_columns_subset df1), kept_columns_lt. }
  intros col. rewrite Hget.
  pose proof (dropna_columns_getitem df1 col Hnd1) as H2. fold df2 in H2.
  destruct (getitem df1 col) as [s|e] eqn:Hs.
  - destruct (some_present (values s)).
    + pose proof (object_columns_dtype df2 col s Hnd2 H2) as Hobj.
      rewrite H2. cbn [rbind].
      destruct (decide (col ∈ object_columns df2)) as [Hin|Hnin];
        destruct (decide (sdtype s = object)) as [Hd|Hd];
        try reflexivity; exfalso; tauto.
    + rewrite H2. now destruct (decide (col ∈ object_columns df2)).
  - rewrite H2. now destruct (decide (col ∈ object_columns df2)).
Qed.

Lemma dropna_rows_len (df : DataFrame) : (len (dropna_rows df) <= len df)%nat.
Proof. unfold len, dropna_rows. simpl. apply filter_length_le. Qed.

Lemma to_numeric_cell_not_text (c : cell) : not_text (to_numeric_cell c).
Proof.
  destruct c as [q|t|]; simpl; auto. now destruct (parse_number t).
Qed.

Lemma object_columns_are_columns (df : DataFrame) (col : string) :
  col ∈ object_columns df ->
  exists s, getitem df col = Ok s.
Proof.
  intros Hin. assert (Hc : col ∈ columns df).
  { unfold object_columns, columns in *.
    apply list_elem_of_fmap in Hin as (cd & -> & Hcd).
    apply list_elem_of_fmap. exists cd. split; [reflexivity|].
    apply list_elem_of_In in Hcd. apply filter_In in Hcd as [Hcd _].
    now apply list_elem_of_In. }
  destruct (getitem_Ok _ _ Hc) as (s & Hs & _). eauto.
Qed.

(** X12. [clean_data] column by column, on a table with distinct labels.
    The cleaned table has the rows that hold a value in some column. A
    column is kept when it holds a value in some kept row; it is then
    converted with [to_numeric] when its dtype is object and is left as
    it is otherwise. No column is added, and every row has one cell per
    column. *)
Theorem clean_data_by_column (df : DataFrame) :
  NoDup (columns df) ->
  exists cleaned,
    clean_data (Some df) = Some cleaned /\
    well_formed cleaned /\
    columns cleaned ⊆ columns df /\
    len cleaned = len (dropna_rows df) /\
    (len cleaned <= len df)%nat /\
    forall col,
      getitem cleaned col
      = match getitem (dropna_rows df) col with
        | Ok s =>
            if some_present (values s)
            then Ok (if decide (sdtype s = object) then to_numeric s else s)
            else Raise (KeyError col)
        | Raise e => Raise e
        end.
Proof.
  intros Hnd.
  destruct (clean_column df Hnd) as (cleaned & Hc & Hnd' & Hfit & Hlen & Hsub & Hget).
  exists cleaned. split; [exact Hc|]. split; [split; assumption|].
  split; [exact Hsub|]. split; [exact Hlen|].
  split; [rewrite Hlen; apply dropna_rows_len|exact Hget].
Qed.

(** X13. After [clean_data], on a table with distinct labels, no column
    has the dtype object, and a column that had it is int64 or float64
    and holds no text: what was no number is missing. *)
Theorem clean_data_leaves_no_object_column (df : DataFrame) :
  NoDup (columns df) ->
  exists cleaned,
    clean_data (Some df) = Some cleaned /\
    object_columns cleaned = [] /\
    forall col before after,
      getitem df col = Ok before ->
      sdtype before = object ->
      getitem cleaned col = Ok after ->
      sdtype after ∈ [int64; float64] /\ Forall not_text (values after).
Proof.
  intros Hnd.
  destruct (clean_column df Hnd) as (cleaned & Hc & Hnd' & _ & _ & _ & Hget).
  exists cleaned. split; [exact Hc|].
  assert (Hconv : forall s, sdtype (to_numeric s) ∈ [int64; float64] /\
                            Forall not_text (values (to_numeric s))).
  { intros s. split.
    - unfold to_numeric. simpl.
      destruct (existsb _ _); [right; left|].
      destruct (integral _); [left|right; left].
    - unfold to_numeric. simpl. apply Forall_forall. intros c Hin.
      apply list_elem_of_fmap in Hin as (c0 & -> & _).
      apply to_numeric_cell_not_text. }
  split.
  - destruct (object_columns cleaned) as [|col rest] eqn:Hobj; [reflexivity|].
    exfalso. assert (Hin : col ∈ object_columns cleaned)
      by (rewrite Hobj; left).
    destruct (object_columns_are_columns _ _ Hin) as [s Hs].
    pose proof (proj1 (object_columns_dtype cleaned col s Hnd' Hs) Hin) as Hd.
    rewrite Hget in Hs.
    destruct (getitem (dropna_rows df) col) as [s1|]; [|discriminate].
    destruct (some_present (values s1)); [|discriminate].
    destruct (decide (sdtype s1 = object)) as [Hd1|Hd1]; injection Hs as <-.
    + destruct (Hconv s1) as [Hdt _]. rewrite Hd in Hdt.
      apply elem_of_cons in Hdt as [?|Hdt]; [discriminate|].
      apply elem_of_cons in Hdt as [?|Hdt]; [discriminate|inversion Hdt].
    + contradiction.
  - intros col before after Hb Hobj Ha. rewrite Hget in Ha.
    assert (Hdt : forall s1, getitem (dropna_rows df) col = Ok s1 ->
                             sdtype s1 = sdtype before).
    { intros s1. unfold getitem in *. unfold dropna_rows, columns in *.
      simpl. destruct (position col (map fst (schema df))); [|discriminate].
      injection Hb as <-. now intros [= <-]. }
    destruct (getitem (dropna_rows df) col) as [s1|]; [|discriminate].
    specialize (Hdt s1 eq_refl).
    destruct (some_present (values s1)); [|discriminate].
    rewrite decide_True in Ha by congruence. injection Ha as <-.
    apply Hconv.
Qed.

(** The conversion of a column of texts that are no numbers. *)
Lemma text_column_erased (df : DataFrame) (col : string)
    (before : Series) :
  NoDup (columns df) ->
  getitem df col = Ok before ->
  sdtype before = object ->
  values before <> [] ->
  Forall no_number (values before) ->
  exists cleaned,
    clean_data (Some df) = Some cleaned /\
    len cleaned = len df /\
    getitem cleaned col
    = Ok {| sdtype := float64; values := replicate (len df) CMissing |}.
Proof.
  intros Hnd Hb Hobj Hne Htext.
  destruct (clean_column df Hnd) as (cleaned & Hc & _ & _ & Hlen & _ & Hget).
  exists cleaned. split; [exact Hc|].
  unfold getitem in Hb.
  destruct (position col (columns df)) as [i|] eqn:Hi; [|discriminate].
  injection Hb as <-. simpl in *.
  pose proof (position_schema_lt _ _ _ Hi) as Hlt.
  assert (Hrows : rows (dropna_rows df) = rows df).
  { unfold dropna_rows. simpl. apply forallb_filter_id.
    rewrite forallb_forall. intros row Hrow. unfold some_present.
    apply existsb_exists. exists (cell_at i row). split.
    - apply in_map_iff. exists i. split; [reflexivity|].
      unfold column_positions. apply in_seq. lia.
    - rewrite Forall_forall in Htext.
      destruct (Htext (cell_at i row)) as (t & -> & _); [|reflexivity].
      apply list_elem_of_fmap. exists row. split; [reflexivity|].
      now apply list_elem_of_In. }
  split; [rewrite Hlen; unfold len; now rewrite Hrows|].
  rewrite Hget. unfold getitem.
  change (columns (dropna_rows df)) with (columns df). rewrite Hi.
  cbn [values sdtype]. change (schema (dropna_rows df)) with (schema df).
  rewrite Hrows, Hobj.
  assert (Hpresent : some_present (map (cell_at i) (rows df)) = true).
  { destruct (map (cell_at i) (rows df)) as [|c cs]; [contradiction|].
    apply Forall_cons in Htext as [(t & -> & _) _]. reflexivity. }
  rewrite Hpresent, decide_True by reflexivity.
  unfold to_numeric. cbn [values sdtype].
  assert (Hall : map to_numeric_cell (map (cell_at i) (rows df))
                 = replicate (len df) CMissing).
  { unfold len. clear -Htext. induction (rows df) as [|row rs IH]; simpl;
      [reflexivity|].
    simpl in Htext. apply Forall_cons in Htext as [(t & -> & Ht) Hrest].
    simpl. rewrite Ht. f_equal. now apply IH. }
  assert (Hpos : exists n, len df = S n).
  { unfold len. destruct (rows df) as [|row rs]; [contradiction|].
    simpl. eauto. }
  destruct Hpos as [n Hn]. rewrite Hall, Hn. reflexivity.
Qed.

(** X14. A column of objects in which every cell is a text that is no
    number keeps every row of the table, and after [clean_data] it is
    still there, float64, with every cell missing. *)
Theorem clean_data_erases_text_column (df : DataFrame) (col : string)
    (before : Series) :
  NoDup (columns df) ->
  getitem df col = Ok before ->
  sdtype before = object ->
  values before <> [] ->
  Forall no_number (values before) ->
  exists cleaned,
    clean_data (Some df) = Some cleaned /\
    len cleaned = len df /\
    getitem cleaned col
    = Ok {| sdtype := float64; values := replicate (len df) CMissing |}.
Proof. apply text_column_erased. Qed.

End cleaning_facts.

Lemma clean_data_by_column_witness :
  exists cleaned,
    @clean_data MoreExamples.digits_only (Some MoreExamples.raw_profile)
    = Some cleaned /\
    len cleaned = 2%nat /\
    getitem cleaned "Classrooms"
    = Ok {| sdtype := float64; values := [Examples.num 7; CMissing] |} /\
    getitem cleaned "Remarks" = Raise (KeyError "Remarks").
Proof.
  destruct (@clean_data_by_column MoreExamples.digits_only
              MoreExamples.raw_profile)
    as (cleaned & Hc & _ & _ & Hlen & _ & Hget).
  - apply (bool_decide_unpack _). vm_compute. exact I.
  - exists cleaned. split; [exact Hc|]. split; [rewrite Hlen; reflexivity|].
    split; rewrite Hget; vm_compute; reflexivity.
Defined.

Lemma clean_data_leaves_no_object_column_witness :
  exists cleaned,
    @clean_data MoreExamples.digits_only (Some MoreExamples.raw_profile)
    = Some cleaned /\
    object_columns cleaned = [].
Proof.
  destruct (@clean_data_leaves_no_object_column MoreExamples.digits_only
              MoreExamples.raw_profile)
    as (cleaned & Hc & Hobj & _).
  - apply (bool_decide_unpack _). vm_compute. exact I.
  - exists cleaned. split; assumption.
Defined.

Lemma clean_data_erases_text_column_witness :
  exists cleaned,
    @clean_data MoreExamples.digits_only (Some MoreExamples.raw_enrolment)
    = Some cleaned /\
    len cleaned = 3%nat /\
    getitem cleaned "School_Code"
    = Ok {| sdtype := float64; values := [CMissing; CMissing; CMissing] |}.
Proof.
  apply (@clean_data_erases_text_column MoreExamples.digits_only
           MoreExamples.raw_enrolment "School_Code"
           {| sdtype := object;
              values := [CText "A12"; CText "B07"; CText "C01"] |}).
  - apply (bool_decide_unpack _). vm_compute. exact I.
  - reflexivity.
  - reflexivity.
  - discriminate.
  - repeat constructor; eexists; split; reflexivity.
Defined.

(** * [process_all_data] *)

Section pipeline.

Context `{ToNumeric} `{Loaders}.

(** [merge_datasets] loses no row when it returns, and raises nothing
    but the [ValueError] of a refused join. *)
Lemma merge_datasets_outcomes (profile_df : DataFrame)
    (enrolment_df facility_df teacher_df : option DataFrame) :
  (forall merged_df,
      snd (merge_datasets profile_df enrolment_df facility_df teacher_df)
      = Ok merged_df ->
      (len profile_df <= len merged_df)%nat) /\
  (forall e,
      snd (merge_datasets profile_df enrolment_df facility_df teacher_df)
      = Raise e ->
      e = ValueError).
Proof.
  unfold merge_datasets.
  destruct (first_present possible_keys (columns profile_df)) as [key|] eqn:Hkey.
  - assert (Hin : key ∈ columns profile_df).
    { apply first_present_Some in Hkey as (? & ? & _ & Hin & _). exact Hin. }
    destruct (three_joins_spec profile_df enrolment_df facility_df teacher_df
                key Hin) as [Hok Herr].
    split; [|exact Herr]. intros merged_df Hm. now apply (Hok merged_df).
  - split; [|discriminate]. intros merged_df [= <-]. cbn [snd]. lia.
Qed.

Lemma to_csv_not_merged (name year : string) (df : option DataFrame) :
  name ∈ ["profile"; "enrolment"; "facility"; "teacher"] ->
  Forall (fun file => fst file <> processed_path "merged" year)
    (to_csv_if_present name year df).
Proof.
  intros Hin. destruct df; simpl; constructor; [|constructor].
  simpl. intros Heq.
  repeat (apply elem_of_cons in Hin as [->|Hin]);
    [vm_compute in Heq; discriminate Heq ..|inversion Hin].
Qed.

(** X15. [process_all_data] returns [None] exactly when no profile
    table was loaded, and it then writes no merged file. Otherwise the
    cleaned profile table is the first file written, and the run ends as
    the joins of the cleaned tables end. When they return a table, it
    has at least the rows of the cleaned profile table, it is returned,
    and it is the last file written, under the name of the merged file.
    When pandas refuses a join, the run raises that [ValueError] after
    the cleaned tables were written, and there is no merged file. The
    joins return when no alias of the key is a column of the cleaned
    profile table, and when the labels of the cleaned tables are all
    different, the keys apart, and the keys have one dtype. *)
Theorem process_all_data_outcome (year : string) :
  (snd (load_profile_data year) = None ->
   returned (process_all_data year) = Ok None /\
   Forall (fun file => fst file <> processed_path "merged" year)
     (written (process_all_data year))) /\
  (forall profile_df, snd (load_profile_data year) = Some profile_df ->
   exists cleaned,
     clean_data (Some profile_df) = Some cleaned /\
     head (written (process_all_data year))
     = Some (processed_path "profile" year, cleaned) /\
     (forall merged_df,
         snd (merge_datasets cleaned
                (clean_data (snd (load_enrolment_data year)))
                (clean_data (snd (load_facility_data year)))
                (clean_data (snd (load_teacher_data year))))
         = Ok merged_df ->
         returned (process_all_data year) = Ok (Some merged_df) /\
         (len cleaned <= len merged_df)%nat /\
         last (written (process_all_data year))
         = Some (processed_path "merged" year, merged_df)) /\
     (forall e,
         snd (merge_datasets cleaned
                (clean_data (snd (load_enrolment_data year)))
                (clean_data (snd (load_facility_data year)))
                (clean_data (snd (load_teacher_data year))))
         = Raise e ->
         e = ValueError /\
         returned (process_all_data year) = Raise e /\
         Forall (fun file => fst file <> processed_path "merged" year)
           (written (process_all_data year))) /\
     (first_present possible_keys (columns cleaned) = None ->
      returned (process_all_data year) = Ok (Some cleaned)) /\
     (forall k,
         first_present possible_keys (columns cleaned) = Some k ->
         same_key_dtype k (dtype_of cleaned k)
           (clean_data (snd (load_enrolment_data year))) ->
         same_key_dtype k (dtype_of cleaned k)
           (clean_data (snd (load_facility_data year))) ->
         same_key_dtype k (dtype_of cleaned k)
           (clean_data (snd (load_teacher_data year))) ->
         NoDup (columns cleaned
                ++ brought k (clean_data (snd (load_enrolment_data year)))
                ++ brought k (clean_data (snd (load_facility_data year)))
                ++ brought k (clean_data (snd (load_teacher_data year)))) ->
         exists merged_df,
           returned (process_all_data year) = Ok (Some merged_df) /\
           last (written (process_all_data year))
           = Some (processed_path "merged" year, merged_df))).
Proof.
  assert (Hfiles : forall p e f t,
             Forall (fun file => fst file <> processed_path "merged" year)
               (to_csv_if_present "profile" year p
                ++ to_csv_if_present "enrolment" year e
                ++ to_csv_if_present "facility" year f
                ++ to_csv_if_present "teacher" year t)).
  { intros p e f t.
    repeat apply Forall_app_2; apply to_csv_not_merged;
      repeat first [left | right]. }
  split.
  - intros Hp. unfold process_all_data. rewrite Hp. simpl.
    split; [reflexivity|]. apply (Hfiles None).
  - intros profile_df Hp. unfold process_all_data. rewrite Hp.
    destruct (clean_data (Some profile_df)) as [cleaned|] eqn:Hc;
      [|discriminate Hc].
    exists cleaned. split; [reflexivity|].
    set (enrolment_df := clean_data (snd (load_enrolment_data year))).
    set (facility_df := clean_data (snd (load_facility_data year))).
    set (teacher_df := clean_data (snd (load_teacher_data year))).
    destruct (merge_datasets_outcomes cleaned enrolment_df facility_df teacher_df)
      as [Hok Herr].
    split; [|split; [|split; [|split]]].
    + destruct (snd (merge_datasets cleaned enrolment_df facility_df teacher_df));
        reflexivity.
    + intros merged_df Hm. rewrite Hm. cbn [returned written].
      split; [reflexivity|]. split; [now apply Hok|]. apply last_snoc.
    + intros e Hm. rewrite Hm. cbn [returned written].
      split; [now apply Herr|]. split; [reflexivity|].
      apply (Hfiles (Some cleaned)).
    + intros Hnone. unfold merge_datasets. now rewrite Hnone.
    + intros k Hk He Hf Ht Hnd.
      destruct (merge_datasets_accepted cleaned enrolment_df facility_df
                  teacher_df k Hk He Hf Ht Hnd) as [merged_df Hm].
      exists merged_df. rewrite Hm. cbn [returned written].
      split; [reflexivity|apply last_snoc].
Qed.

Lemma list_sum_constant {A} (f : A -> nat) (c : nat) (l : list A) :
  Forall (fun a => f a = c) l -> list_sum (map f l) = (length l * c)%nat.
Proof.
  induction 1 as [|a l Ha _ IH]; simpl; [reflexivity|]. rewrite Ha, IH. lia.
Qed.

(** The cells of a column all missing, row by row. *)
Lemma all_missing_rows (df : DataFrame) (col : string) (d : dtype) (n i : nat) :
  getitem df col = Ok {| sdtype := d; values := replicate n CMissing |} ->
  position col (columns df) = Some i ->
  Forall (fun row => cell_at i row = CMissing) (rows df).
Proof.
  unfold getitem. intros Hs Hi. rewrite Hi in Hs. injection Hs as _ Hvals.
  revert n Hvals. induction (rows df) as [|row rs IH]; intros n Hvals;
    [constructor|].
  destruct n as [|n]; [discriminate|]. simpl in Hvals.
  injection Hvals as Hrow Hrest. constructor; [exact Hrow|]. now apply (IH n).
Qed.

(** The first key of the profile table is still its first key after
    cleaning, when cleaning keeps that column. *)
Lemma first_present_subset (candidates present kept : list string) (key : string) :
  first_present candidates present = Some key ->
  kept ⊆ present ->
  key ∈ kept ->
  first_present candidates kept = Some key.
Proof.
  intros Hkey Hsub Hin.
  apply first_present_Some in Hkey as (before & after & -> & _ & Hbefore).
  apply first_present_Some. exists before, after.
  split; [reflexivity|]. split; [exact Hin|].
  intros x Hx Hk. apply (Hbefore x Hx). now apply Hsub.
Qed.

Lemma delete_label_apart (labels : list string) (j : nat) (col : string) :
  NoDup labels -> labels !! j = Some col -> col ∉ delete j labels.
Proof.
  intros Hnd Hj. rewrite <- (take_drop_middle _ _ _ Hj) in Hnd.
  apply NoDup_app in Hnd as (_ & Hapart & Hnd).
  apply NoDup_cons in Hnd as [Hdrop _].
  rewrite delete_take_drop. intros Hin.
  apply elem_of_app in Hin as [Hin|Hin]; [|contradiction].
  apply (Hapart col Hin). now left.
Qed.

(** The join of two cleaned tables whose keys were texts that are no
    numbers, and which share no other label: every key is missing on
    both sides, the join is not refused, and every row of the left table
    meets every row of the right one. *)
Lemma erased_keys_join (left right : DataFrame) (key suffix : string)
    (d : dtype) (n m : nat) :
  getitem left key = Ok {| sdtype := d; values := replicate n CMissing |} ->
  getitem right key = Ok {| sdtype := d; values := replicate m CMissing |} ->
  NoDup (columns left) ->
  NoDup (columns right) ->
  (forall x, x ∈ columns left -> x ∈ columns right -> x = key) ->
  (0 < len right)%nat ->
  exists joined,
    merge_if_present left (Some right) key suffix = Ok joined /\
    key ∈ columns joined /\
    len joined = (len left * len right)%nat.
Proof.
  intros Hl Hr Hndl Hndr Hshare Hpos.
  pose proof (getitem_Ok_elem _ _ _ Hl) as Hinl.
  pose proof (getitem_Ok_elem _ _ _ Hr) as Hinr.
  destruct (position_Some_elem _ _ Hinl) as [i Hi].
  destruct (position_Some_elem _ _ Hinr) as [j Hj].
  assert (Hd : dtype_of right key = dtype_of left key).
  { rewrite (dtype_of_position _ _ _ Hi), (dtype_of_position _ _ _ Hj).
    unfold getitem in Hl, Hr. rewrite Hi in Hl. rewrite Hj in Hr.
    injection Hl as -> _. injection Hr as -> _. reflexivity. }
  assert (Hnd : NoDup (columns left ++ map fst (delete j (schema right)))).
  { assert (Hdel : map fst (delete j (schema right)) = delete j (columns right))
      by apply list_fmap_delete.
    rewrite Hdel. apply NoDup_app. split; [exact Hndl|]. split.
    - intros x Hx Hdx.
      assert (x = key).
      { apply Hshare; [exact Hx|].
        now apply list_elem_of_delete_inv in Hdx. }
      subst x. revert Hdx. apply delete_label_apart; [exact Hndr|].
      now apply position_lookup.
    - exact (sublist_NoDup _ _ Hndr (sublist_delete _ _)). }
  destruct (merge_apart left right key suffix i j Hi Hj Hd Hnd)
    as (joined & Hm & Hcols & _).
  exists joined. unfold merge_if_present.
  rewrite decide_True by exact Hinr.
  split; [exact Hm|].
  split; [rewrite Hcols; apply elem_of_app; now left|].
  rewrite (merge_len _ _ _ _ _ _ _ Hi Hj Hm).
  apply list_sum_constant.
  pose proof (all_missing_rows _ _ _ _ _ Hl Hi) as Hleft.
  pose proof (all_missing_rows _ _ _ _ _ Hr Hj) as Hright.
  eapply Forall_impl; [exact Hleft|].
  intros row Hrow. simpl in Hrow. unfold emitted, matching. rewrite Hrow.
  rewrite forallb_filter_id.
  - fold (len right). lia.
  - apply forallb_forall. intros r Hin. rewrite Forall_forall in Hright.
    rewrite (Hright r) by (now apply list_elem_of_In). reflexivity.
Qed.

(** X16. School codes that are texts and no numbers do not survive
    [clean_data]: the key is missing in every row of the cleaned profile
    and enrolment tables. When the two tables share no label but the
    key, their join is not refused, missing keys match each other, and
    it pairs every profile row with every enrolment row. That table is
    what [process_all_data] returns when no facility and no teacher
    table was loaded; with them, the table returned, if the later joins
    are not refused, has at least as many rows. *)
Theorem text_keys_pair_every_row (year key : string)
    (profile_df enrolment_df : DataFrame) (profile_keys enrolment_keys : Series) :
  snd (load_profile_data year) = Some profile_df ->
  snd (load_enrolment_data year) = Some enrolment_df ->
  NoDup (columns profile_df) ->
  NoDup (columns enrolment_df) ->
  (forall x, x ∈ columns profile_df -> x ∈ columns enrolment_df -> x = key) ->
  first_present possible_keys (columns profile_df) = Some key ->
  getitem profile_df key = Ok profile_keys ->
  getitem enrolment_df key = Ok enrolment_keys ->
  sdtype profile_keys = object ->
  sdtype enrolment_keys = object ->
  values profile_keys <> [] ->
  values enrolment_keys <> [] ->
  Forall no_number (values profile_keys) ->
  Forall no_number (values enrolment_keys) ->
  exists cleaned_profile cleaned_enrolment paired,
    clean_data (Some profile_df) = Some cleaned_profile /\
    clean_data (Some enrolment_df) = Some cleaned_enrolment /\
    getitem cleaned_profile key
    = Ok {| sdtype := float64;
            values := replicate (len profile_df) CMissing |} /\
    getitem cleaned_enrolment key
    = Ok {| sdtype := float64;
            values := replicate (len enrolment_df) CMissing |} /\
    merge_if_present cleaned_profile (Some cleaned_enrolment) key "_enrol"
    = Ok paired /\
    len paired = (len profile_df * len enrolment_df)%nat /\
    (snd (load_facility_data year) = None ->
     snd (load_teacher_data year) = None ->
     returned (process_all_data year) = Ok (Some paired)) /\
    (forall merged_df,
        returned (process_all_data year) = Ok (Some merged_df) ->
        (len profile_df * len enrolment_df <= len merged_df)%nat) /\
    (forall e, returned (process_all_data year) = Raise e -> e = ValueError).
Proof.
  intros Hp He Hndp Hnde Hshare Hkey Hkp Hke Hop Hoe Hnp Hne Htp Hte.
  destruct (text_column_erased profile_df key profile_keys Hndp Hkp Hop Hnp Htp)
    as (p' & Hcp & Hlenp & Hgetp).
  destruct (text_column_erased enrolment_df key enrolment_keys Hnde Hke Hoe Hne Hte)
    as (e' & Hce & Hlene & Hgete).
  destruct (clean_column profile_df Hndp)
    as (p'' & Hcp' & Hndp' & _ & _ & Hsubp & _).
  assert (p'' = p') by congruence. subst p''.
  destruct (clean_column enrolment_df Hnde)
    as (e'' & Hce' & Hnde' & _ & _ & Hsube & _).
  assert (e'' = e') by congruence. subst e''.
  assert (Hpos : (0 < len enrolment_df)%nat).
  { apply getitem_values_length in Hke. rewrite <- Hke.
    destruct (values enrolment_keys); [contradiction|simpl; lia]. }
  destruct (erased_keys_join p' e' key "_enrol" _ _ _ Hgetp Hgete Hndp' Hnde')
    as (m1 & H1 & Hin1 & Hlen1); [|lia|].
  { intros x Hx Hx'. apply Hshare; [now apply Hsubp|now apply Hsube]. }
  rewrite Hlenp, Hlene in Hlen1.
  exists p', e', m1.
  split; [exact Hcp|]. split; [exact Hce|]. split; [exact Hgetp|].
  split; [exact Hgete|]. split; [exact H1|]. split; [exact Hlen1|].
  destruct (merge_if_present_spec m1
              (clean_data (snd (load_facility_data year))) key "_facility" Hin1)
    as (Hok2 & Hskip2 & Herr2).
  unfold process_all_data. rewrite Hp, He, Hcp, Hce.
  unfold merge_datasets.
  rewrite (first_present_subset _ _ _ _ Hkey Hsubp (getitem_Ok_elem _ _ _ Hgetp)).
  cbn [snd fst]. rewrite H1. cbn [rbind].
  split; [|split].
  - intros Hf Ht. rewrite Hf, Ht. reflexivity.
  - destruct (merge_if_present m1 (clean_data (snd (load_facility_data year)))
                key "_facility") as [m2|e2]; cbn [rbind returned];
      [|discriminate].
    destruct (Hok2 m2 eq_refl) as (Hin2 & Hle2 & _).
    destruct (merge_if_present_spec m2
                (clean_data (snd (load_teacher_data year))) key "_teacher" Hin2)
      as (Hok3 & _).
    destruct (merge_if_present m2 (clean_data (snd (load_teacher_data year)))
                key "_teacher") as [m3|e3]; cbn [returned]; [|discriminate].
    destruct (Hok3 m3 eq_refl) as (_ & Hle3 & _).
    intros merged_df [= <-]. lia.
  - destruct (merge_if_present m1 (clean_data (snd (load_facility_data year)))
                key "_facility") as [m2|e2]; cbn [rbind returned].
    2:{ intros e [= <-]. now apply Herr2. }
    destruct (Hok2 m2 eq_refl) as (Hin2 & _).
    destruct (merge_if_present_spec m2
                (clean_data (snd (load_teacher_data year))) key "_teacher" Hin2)
      as (_ & _ & Herr3).
    destruct (merge_if_present m2 (clean_data (snd (load_teacher_data year)))
                key "_teacher") as [m3|e3]; cbn [returned]; [discriminate|].
    intros e [= <-]. now apply Herr3.
Qed.

End pipeline.

Lemma process_all_data_outcome_witness :
  exists merged_df,
    returned (@process_all_data MoreExamples.digits_only
                MoreExamples.two_archives "2024-25")
    = Ok (Some merged_df) /\
    last (written (@process_all_data MoreExamples.digits_only
                     MoreExamples.two_archives "2024-25"))
    = Some ("data/processed/merged_2024-25.csv", merged_df).
Proof.
  destruct (@process_all_data_outcome MoreExamples.digits_only
              MoreExamples.two_archives "2024-25") as [_ Hsome].
  destruct (Hsome MoreExamples.coded_profile eq_refl)
    as (cleaned & Hc & _ & _ & _ & _ & Hreturns).
  vm_compute in Hc. injection Hc as <-.
  apply (Hreturns "School_Code").
  - reflexivity.
  - intros _. reflexivity.
  - exact I.
  - exact I.
  - apply (bool_decide_unpack _). vm_compute. exact I.
Defined.

Lemma text_keys_pair_every_row_witness :
  exists paired,
    returned (@process_all_data MoreExamples.digits_only
                MoreExamples.two_archives "2024-25")
    = Ok (Some paired) /\
    len paired = 6%nat.
Proof.
  destruct (@text_keys_pair_every_row MoreExamples.digits_only
              MoreExamples.two_archives "2024-25" "School_Code"
              MoreExamples.coded_profile MoreExamples.raw_enrolment
              {| sdtype := object; values := [CText "A12"; CText "B07"] |}
              {| sdtype := object;
                 values := [CText "A12"; CText "B07"; CText "C01"] |})
    as (p & e & paired & _ & _ & _ & _ & _ & Hlen & Hret & _).
  - reflexivity.
  - reflexivity.
  - apply (bool_decide_unpack _). vm_compute. exact I.
  - apply (bool_decide_unpack _). vm_compute. exact I.
  - intros x Hx Hx'.
    change (x ∈ ["School_Code"; "Classrooms"]) in Hx.
    apply elem_of_cons in Hx as [->|Hx]; [reflexivity|].
    apply elem_of_cons in Hx as [->|Hx]; [|inversion Hx].
    exfalso. revert Hx'. apply (bool_decide_unpack _). vm_compute. exact I.
  - reflexivity.
  - reflexivity.
  - reflexivity.
  - reflexivity.
  - reflexivity.
  - discriminate.
  - discriminate.
  - repeat constructor; eexists; split; reflexivity.
  - repeat constructor; eexists; split; reflexivity.
  - exists paired. split; [now apply Hret|exact Hlen].
Defined.
